(** * irdata: authentication and the encrypted credential store (auth.go)

    A shallow embedding of [auth.go]: the password encoder, key loading and
    shredding, the credential file written by [writeCreds] and read back by
    [readCreds], and the login protocol of [auth].

    Go byte slices and strings are [list byte]; file names are [string];
    the file system, the entropy source, the HTTP peer, the key buffer and
    the session flag are fields of one explicit [world] threaded through a
    state-and-panic monad. *)

From Stdlib Require Import ZArith NArith Lia List Bool String.
From Stdlib.Strings Require Import Byte.
From stdpp Require Import base option strings gmap.
Import ListNotations.

Local Open Scope Z_scope.

(** ** Bytes *)

Abbreviation bytes := (list byte).

Definition bytes_of_string (s : string) : bytes := String.list_byte_of_string s.

Definition byte_to_Z (b : byte) : Z := Z.of_N (Byte.to_N b).

Definition byte_of_Z (z : Z) : byte :=
  match Byte.of_N (Z.to_N (z mod 256)) with
  | Some b => b
  | None => x00
  end.

#[global] Instance byte_eq_dec : EqDecision byte := Byte.byte_eq_dec.

(** ** encoding/base64: [StdEncoding.Strict()] *)

Module Base64.

(** A sextet, most significant bit first. *)
Definition sextet := (bool * bool * bool * bool * bool * bool)%type.

Definition alphabet : bytes :=
  bytes_of_string "ABCDEFGHIJKLMNOPQRSTUVWXYZabcdefghijklmnopqrstuvwxyz0123456789+/".

Definition pad : byte := "="%byte.

Definition b2n (b : bool) : nat := if b then 1%nat else 0%nat.

Definition sextetIndex (s : sextet) : nat :=
  let '(s5, s4, s3, s2, s1, s0) := s in
  (32 * b2n s5 + 16 * b2n s4 + 8 * b2n s3 + 4 * b2n s2 + 2 * b2n s1 + b2n s0)%nat.

Definition encChar (s : sextet) : byte := nth (sextetIndex s) alphabet pad.

Definition allSextets : list sextet :=
  let bs := [false; true] in
  s5 ← bs; s4 ← bs; s3 ← bs; s2 ← bs; s1 ← bs; s0 ← bs;
  [(s5, s4, s3, s2, s1, s0)].

Definition decChar (c : byte) : option sextet :=
  List.find (fun s => Byte.eqb (encChar s) c) allSextets.

(** The three ways a quantum is encoded: 3, 2 or 1 input bytes. *)
Definition enc3 (a b c : byte) : bytes :=
  let '(a0, (a1, (a2, (a3, (a4, (a5, (a6, a7))))))) := Byte.to_bits a in
  let '(b0, (b1, (b2, (b3, (b4, (b5, (b6, b7))))))) := Byte.to_bits b in
  let '(c0, (c1, (c2, (c3, (c4, (c5, (c6, c7))))))) := Byte.to_bits c in
  [ encChar (a7, a6, a5, a4, a3, a2); encChar (a1, a0, b7, b6, b5, b4);
    encChar (b3, b2, b1, b0, c7, c6); encChar (c5, c4, c3, c2, c1, c0) ].

Definition enc2 (a b : byte) : bytes :=
  let '(a0, (a1, (a2, (a3, (a4, (a5, (a6, a7))))))) := Byte.to_bits a in
  let '(b0, (b1, (b2, (b3, (b4, (b5, (b6, b7))))))) := Byte.to_bits b in
  [ encChar (a7, a6, a5, a4, a3, a2); encChar (a1, a0, b7, b6, b5, b4);
    encChar (b3, b2, b1, b0, false, false); pad ].

Definition enc1 (a : byte) : bytes :=
  let '(a0, (a1, (a2, (a3, (a4, (a5, (a6, a7))))))) := Byte.to_bits a in
  [ encChar (a7, a6, a5, a4, a3, a2);
    encChar (a1, a0, false, false, false, false); pad; pad ].

Fixpoint EncodeToString (src : bytes) : bytes :=
  match src with
  | [] => []
  | [a] => enc1 a
  | [a; b] => enc2 a b
  | a :: b :: c :: rest => enc3 a b c ++ EncodeToString rest
  end.

Definition dec3 (s1 s2 s3 s4 : sextet) : bytes :=
  let '(p5, p4, p3, p2, p1, p0) := s1 in
  let '(q5, q4, q3, q2, q1, q0) := s2 in
  let '(r5, r4, r3, r2, r1, r0) := s3 in
  let '(t5, t4, t3, t2, t1, t0) := s4 in
  [ Byte.of_bits (q4, (q5, (p0, (p1, (p2, (p3, (p4, p5)))))));
    Byte.of_bits (r2, (r3, (r4, (r5, (q0, (q1, (q2, q3)))))));
    Byte.of_bits (t0, (t1, (t2, (t3, (t4, (t5, (r0, r1))))))) ].

(** [decodeQuanta] works on input from which CR and LF were dropped, four
    characters at a time.  Padding is only accepted in the last quantum, and
    in strict mode the unused low bits before a pad must be zero. *)
Definition decFull (c1 c2 c3 c4 : byte) : option bytes :=
  s1 ← decChar c1; s2 ← decChar c2; s3 ← decChar c3; s4 ← decChar c4;
  Some (dec3 s1 s2 s3 s4).

Definition zero6 : sextet := (false, false, false, false, false, false).

Definition decLast (c1 c2 c3 c4 : byte) : option bytes :=
  if Byte.eqb c4 pad then
    if Byte.eqb c3 pad then
      s1 ← decChar c1; s2 ← decChar c2;
      let '(_, _, q3, q2, q1, q0) := s2 in
      if q3 || q2 || q1 || q0 then None
      else Some (firstn 1 (dec3 s1 s2 zero6 zero6))
    else
      s1 ← decChar c1; s2 ← decChar c2; s3 ← decChar c3;
      let '(_, _, _, _, r1, r0) := s3 in
      if r1 || r0 then None
      else Some (firstn 2 (dec3 s1 s2 s3 zero6))
  else decFull c1 c2 c3 c4.

Fixpoint decodeQuanta (s : bytes) : option bytes :=
  match s with
  | [] => Some []
  | [c1; c2; c3; c4] => decLast c1 c2 c3 c4
  | c1 :: c2 :: c3 :: c4 :: rest =>
      q ← decFull c1 c2 c3 c4; r ← decodeQuanta rest; Some (q ++ r)
  | _ => None
  end.

Definition isNewline (c : byte) : bool :=
  Byte.eqb c x0a || Byte.eqb c x0d.

Definition dropNewlines (s : bytes) : bytes :=
  List.filter (fun c => negb (isNewline c)) s.

(** [DecodeString]: [None] is a [CorruptInputError]. *)
Definition DecodeString (s : bytes) : option bytes :=
  decodeQuanta (dropNewlines s).

(** Capacity of the buffer [DecodeString] allocates: [DecodedLen(len(s))]. *)
Definition DecodedLen (n : nat) : nat := (n / 4 * 3)%nat.

End Base64.

(** ** crypto/sha256 *)

Module SHA256.

Definition mask32 : Z := 0xffffffff.
Definition w32 (x : Z) : Z := Z.land x mask32.
Definition add32 (x y : Z) : Z := w32 (x + y).
Definition rotr (n x : Z) : Z :=
  Z.lor (Z.shiftr x n) (w32 (Z.shiftl x (32 - n))).
Definition not32 (x : Z) : Z := Z.lxor x mask32.

Definition Ch (x y z : Z) : Z := Z.lxor (Z.land x y) (Z.land (not32 x) z).
Definition Maj (x y z : Z) : Z :=
  Z.lxor (Z.lxor (Z.land x y) (Z.land x z)) (Z.land y z).
Definition Sigma0 (x : Z) : Z := Z.lxor (Z.lxor (rotr 2 x) (rotr 13 x)) (rotr 22 x).
Definition Sigma1 (x : Z) : Z := Z.lxor (Z.lxor (rotr 6 x) (rotr 11 x)) (rotr 25 x).
Definition sigma0 (x : Z) : Z := Z.lxor (Z.lxor (rotr 7 x) (rotr 18 x)) (Z.shiftr x 3).
Definition sigma1 (x : Z) : Z := Z.lxor (Z.lxor (rotr 17 x) (rotr 19 x)) (Z.shiftr x 10).

(** The round constants are the first 32 bits of the fractional parts of
    the cube roots of the first 64 primes, the initial chaining value those
    of the square roots of the first 8. *)
Definition isPrime (n : Z) : bool :=
  forallb (fun d => negb (n mod d =? 0) || (n <=? d)) (List.map Z.of_nat (seq 2 17)).

Definition primes : list Z :=
  List.filter isPrime (List.map Z.of_nat (seq 2 310)).

Definition cbrtFloor (n : Z) : Z :=
  fold_left (fun r b => let r' := r + Z.shiftl 1 (Z.of_nat b) in
                        if r' * r' * r' <=? n then r' else r)
            (List.rev (seq 0 40)) 0.

Definition K : list Z :=
  Eval vm_compute in
    List.map (fun p => Z.land (cbrtFloor (Z.shiftl p 96)) mask32) primes.

Definition H0 : list Z :=
  Eval vm_compute in
    List.map (fun p => Z.land (Z.sqrt (Z.shiftl p 64)) mask32) (firstn 8 primes).

(** The chaining value: eight 32-bit words. *)
Record state := mkState { ha : Z; hb : Z; hc : Z; hd : Z; he : Z; hf : Z; hg : Z; hh : Z }.

Definition init : state :=
  let h := fun i => nth i H0 0 in
  mkState (h 0%nat) (h 1%nat) (h 2%nat) (h 3%nat) (h 4%nat) (h 5%nat) (h 6%nat) (h 7%nat).

Definition be32 (w : Z) : bytes :=
  [ byte_of_Z (Z.shiftr w 24); byte_of_Z (Z.shiftr w 16);
    byte_of_Z (Z.shiftr w 8); byte_of_Z w ].

Definition word_of (b3 b2 b1 b0 : byte) : Z :=
  Z.lor (Z.lor (Z.shiftl (byte_to_Z b3) 24) (Z.shiftl (byte_to_Z b2) 16))
        (Z.lor (Z.shiftl (byte_to_Z b1) 8) (byte_to_Z b0)).

Fixpoint words (bs : bytes) : list Z :=
  match bs with
  | b3 :: b2 :: b1 :: b0 :: rest => word_of b3 b2 b1 b0 :: words rest
  | _ => []
  end.

(** Message schedule, newest word first: [extend n ws] adds [n] words. *)
Fixpoint extend (n : nat) (ws : list Z) : list Z :=
  match n with
  | O => ws
  | S n' =>
      let w := add32 (add32 (sigma1 (nth 1 ws 0)) (nth 6 ws 0))
                     (add32 (sigma0 (nth 14 ws 0)) (nth 15 ws 0)) in
      extend n' (w :: ws)
  end.

Definition schedule (block : bytes) : list Z :=
  List.rev (extend 48 (List.rev (words block))).

Definition round (s : state) (kw : Z * Z) : state :=
  let '(k, w) := kw in
  let t1 := add32 (add32 (add32 (hh s) (Sigma1 (he s))) (Ch (he s) (hf s) (hg s)))
                  (add32 k w) in
  let t2 := add32 (Sigma0 (ha s)) (Maj (ha s) (hb s) (hc s)) in
  mkState (add32 t1 t2) (ha s) (hb s) (hc s) (add32 (hd s) t1) (he s) (hf s) (hg s).

Definition compress (h : state) (block : bytes) : state :=
  let s := fold_left round (combine K (schedule block)) h in
  mkState (add32 (ha h) (ha s)) (add32 (hb h) (hb s)) (add32 (hc h) (hc s))
          (add32 (hd h) (hd s)) (add32 (he h) (he s)) (add32 (hf h) (hf s))
          (add32 (hg h) (hg s)) (add32 (hh h) (hh s)).

Definition be64 (n : Z) : bytes := be32 (Z.shiftr n 32) ++ be32 n.

Definition padding (len : nat) : bytes :=
  x80 :: repeat x00 (Z.to_nat ((55 - Z.of_nat len) mod 64))
      ++ be64 (8 * Z.of_nat len).

Fixpoint blocks (fuel : nat) (h : state) (bs : bytes) : state :=
  match fuel with
  | O => h
  | S fuel' =>
      match bs with
      | [] => h
      | _ => blocks fuel' (compress h (firstn 64 bs)) (skipn 64 bs)
      end
  end.

Definition serialize (h : state) : bytes :=
  be32 (ha h) ++ be32 (hb h) ++ be32 (hc h) ++ be32 (hd h)
  ++ be32 (he h) ++ be32 (hf h) ++ be32 (hg h) ++ be32 (hh h).

(** [Sum256]: the digest of a whole message. *)
Definition Sum256 (msg : bytes) : bytes :=
  let padded := msg ++ padding (length msg) in
  serialize (blocks (length padded) init padded).

(** The [hash.Hash] returned by [sha256.New()]: everything written so far.
    [Write] never fails; [Sum nil] is the digest of what was written. *)
Definition hasher := bytes.
Definition New : hasher := [].
Definition Write (h : hasher) (p : bytes) : hasher := h ++ p.
Definition Sum (h : hasher) : bytes := Sum256 h.

End SHA256.

(** Hexadecimal text of bytes, and back, for test vectors. *)
Definition hex (bs : bytes) : string :=
  String.string_of_list_byte
    (flat_map (fun b => let n := byte_to_Z b in
       let d := fun k => nth (Z.to_nat k) (bytes_of_string "0123456789abcdef") x00 in
       [d (n / 16); d (n mod 16)]) bs).

(** ** Errors, panics and the world *)

Inductive error :=
  | ErrorString (msg : string)              (* errors.New, fmt.Errorf *)
  | PathError (op path reason : string)     (* *fs.PathError of package os *)
  | KeySizeError (k : nat)                  (* aes.KeySizeError *)
  | CorruptInputError                       (* base64.CorruptInputError *)
  | ErrOpen                                 (* cipher: message authentication failed *)
  | GobError (msg : string)
  | TransportError (msg : string).

(** [log.Panic(err)] and [log.Panicf] panic with the logged error; index and
    slice violations and nil dereferences are run-time panics. A fatal error
    of the run time is no panic in Go's sense: the process ends there, no
    deferred call runs and [recover] does not see it. It is kept apart here,
    as the third way a run can end early. *)
Inductive panic :=
  | LogPanic (e : error)
  | RuntimePanic (msg : string)
  | FatalError (msg : string).

Inductive result (A : Type) :=
  | Ok (a : A)
  | Panicked (p : panic).
Arguments Ok {A} a.
Arguments Panicked {A} p.

(** A Go [(value, err)] pair of which exactly one side is meaningful. *)
Inductive goResult (A : Type) :=
  | Val (a : A)
  | Err (e : error).
Arguments Val {A} a.
Arguments Err {A} e.

Record file := mkFile { mode : Z; content : bytes }.

Record response := mkResponse { StatusCode : Z; Status : string }.

(** What [httpClient.Post] and [retryingGet] hand back: [(resp, err)], each
    possibly nil. *)
Definition reply := (option response * option error)%type.

Inductive event :=
  | EvStat (name : string)
  | EvReadFile (name : string)
  | EvWriteFile (name : string)
  | EvNewCipher (keyLen : nat)
  | EvShred (buf : nat)
  | EvNewGCM
  | EvRandRead (n : nat)
  | EvSeal
  | EvOpen
  | EvGobEncode
  | EvGobDecode
  | EvPost (url body : bytes)
  | EvSleep (seconds : Z)
  | EvGet (url : bytes).

(** Modelled from the spec: the [Irdata] struct is declared outside
    auth.go, which uses two of its fields. [isAuthed] is the "single boolean
    authenticated, process-wide"; [httpClient] is the peer whose replies the
    world records. *)
Record Irdata := mkIrdata { isAuthed : bool }.

Record world := mkWorld {
  fs : gmap string file;          (* file name -> mode bits and content *)
  umask : Z;
  privileged : bool;              (* permission checks are skipped *)
  entropy : bytes;                (* what crypto/rand will deliver *)
  keyBufs : list bytes;           (* backing arrays of loaded keys *)
  session : Irdata;
  postReplies : nat -> reply;     (* reply to the n-th POST *)
  getReplies : nat -> reply;      (* reply to the n-th retryingGet *)
  events : list event             (* oldest first *)
}.

Definition M (A : Type) : Type := world -> result A * world.

#[global] Instance M_ret : MRet M := fun A a w => (Ok a, w).
#[global] Instance M_bind : MBind M := fun A B f m w =>
  match m w with
  | (Ok a, w') => f a w'
  | (Panicked p, w') => (Panicked p, w')
  end.

Definition doPanic {A} (p : panic) : M A := fun w => (Panicked p, w).
(** [log.Panic(err)] *)
Definition log_Panic {A} (e : error) : M A := doPanic (LogPanic e).
(** The idiom [if err != nil { log.Panic(err) }]. *)
Definition orPanic {A} (r : goResult A) : M A :=
  match r with
  | Val a => mret a
  | Err e => log_Panic e
  end.

Definition addEvents (w : world) (es : list event) : world :=
  mkWorld (fs w) (umask w) (privileged w) (entropy w) (keyBufs w) (session w)
          (postReplies w) (getReplies w) (events w ++ es).
Definition updFs (f : gmap string file) (w : world) : world :=
  mkWorld f (umask w) (privileged w) (entropy w) (keyBufs w)
          (session w) (postReplies w) (getReplies w) (events w).
Definition updEntropy (e : bytes) (w : world) : world :=
  mkWorld (fs w) (umask w) (privileged w) e (keyBufs w)
          (session w) (postReplies w) (getReplies w) (events w).
Definition updKeyBufs (k : list bytes) (w : world) : world :=
  mkWorld (fs w) (umask w) (privileged w) (entropy w) k
          (session w) (postReplies w) (getReplies w) (events w).
Definition updSession (s : Irdata) (w : world) : world :=
  mkWorld (fs w) (umask w) (privileged w) (entropy w) (keyBufs w)
          s (postReplies w) (getReplies w) (events w).

Definition emit (e : event) : M unit := fun w => (Ok tt, addEvents w [e]).
Definition getWorld : M world := fun w => (Ok w, w).
Definition setFs (f : gmap string file) : M unit := fun w => (Ok tt, updFs f w).
Definition setEntropy (e : bytes) : M unit := fun w => (Ok tt, updEntropy e w).
Definition setKeyBufs (k : list bytes) : M unit := fun w => (Ok tt, updKeyBufs k w).
Definition setSession (s : Irdata) : M unit := fun w => (Ok tt, updSession s w).

(** ** Package os, on a flat name space *)

Definition ModePerm : Z := 511.      (* 0777 *)
Definition ModeDir : Z := Z.shiftl 1 31.
Definition perm0400 : Z := 256.      (* 0400 *)
Definition perm0200 : Z := 128.      (* 0200 *)

Definition os_Stat (name : string) : M (goResult Z) :=
  _ ← emit (EvStat name);
  w ← getWorld;
  match fs w !! name with
  | Some f => mret (Val (mode f))
  | None => mret (Err (PathError "stat" name "no such file or directory"))
  end.

Definition os_ReadFile (name : string) : M (goResult bytes) :=
  _ ← emit (EvReadFile name);
  w ← getWorld;
  match fs w !! name with
  | None => mret (Err (PathError "open" name "no such file or directory"))
  | Some f =>
      if negb (Z.land (mode f) ModeDir =? 0) then
        mret (Err (PathError "read" name "is a directory"))
      else if privileged w || negb (Z.land (mode f) perm0400 =? 0) then
        mret (Val (content f))
      else mret (Err (PathError "open" name "permission denied"))
  end.

(** [os.WriteFile]: create with [perm] less the umask, or truncate an
    existing file, whose mode is kept. *)
Definition os_WriteFile (name : string) (data : bytes) (perm : Z) : M (option error) :=
  _ ← emit (EvWriteFile name);
  w ← getWorld;
  match fs w !! name with
  | None =>
      let m := Z.land (Z.land perm ModePerm) (Z.lxor (Z.land (umask w) ModePerm) ModePerm) in
      _ ← setFs (<[name := mkFile m data]> (fs w));
      mret None
  | Some f =>
      if negb (Z.land (mode f) ModeDir =? 0) then
        mret (Some (PathError "open" name "is a directory"))
      else if privileged w || negb (Z.land (mode f) perm0200 =? 0) then
        _ ← setFs (<[name := mkFile (mode f) data]> (fs w));
        mret None
      else mret (Some (PathError "open" name "permission denied"))
  end.

(** [rand.Read(b)] with [len(b) = n]. The random source is the list
    [entropy] of the bytes it still delivers. [rand.Read] fills [b]
    entirely and returns a nil error, or, when the source fails, ends the
    process with a fatal error; it never returns an error value (crypto/rand
    as of Go 1.24; the text of the fatal error goes on with the error of
    the source, which is left out here). *)
Definition rand_Read (n : nat) : M (goResult bytes) :=
  _ ← emit (EvRandRead n);
  w ← getWorld;
  if (n <=? length (entropy w))%nat then
    _ ← setEntropy (skipn n (entropy w));
    mret (Val (firstn n (entropy w)))
  else doPanic (FatalError "crypto/rand: failed to read random data").

(** ** crypto/aes: the block cipher (FIPS 197), bytes as [Z] *)

Module AES.

Definition xtime (a : Z) : Z :=
  let s := Z.land (Z.shiftl a 1) 0xff in
  if Z.testbit a 7 then Z.lxor s 0x1b else s.

Fixpoint gmulAux (n : nat) (a b acc : Z) : Z :=
  match n with
  | O => acc
  | S n' => gmulAux n' (xtime a) (Z.shiftr b 1)
                    (if Z.testbit b 0 then Z.lxor acc a else acc)
  end.
Definition gmul (a b : Z) : Z := gmulAux 8 a b 0.

(** The inverse in GF(2^8) is the 254th power. *)
Definition ginv (x : Z) : Z :=
  let x2 := gmul x x in let x4 := gmul x2 x2 in let x8 := gmul x4 x4 in
  let x16 := gmul x8 x8 in let x32 := gmul x16 x16 in let x64 := gmul x32 x32 in
  let x128 := gmul x64 x64 in
  gmul x2 (gmul x4 (gmul x8 (gmul x16 (gmul x32 (gmul x64 x128))))).

Definition rotl8 (b n : Z) : Z :=
  Z.land (Z.lor (Z.shiftl b n) (Z.shiftr b (8 - n))) 0xff.

Definition sboxCalc (x : Z) : Z :=
  let i := ginv x in
  Z.lxor (Z.lxor (Z.lxor i (rotl8 i 1)) (Z.lxor (rotl8 i 2) (rotl8 i 3)))
         (Z.lxor (rotl8 i 4) 0x63).

Definition sboxTable : list Z :=
  Eval vm_compute in List.map (fun n => sboxCalc (Z.of_nat n)) (seq 0 256).

Definition sbox (x : Z) : Z := nth (Z.to_nat x) sboxTable 0.

Definition xorList (a b : list Z) : list Z :=
  List.map (fun p => Z.lxor (fst p) (snd p)) (combine a b).

Definition rotWord (w : list Z) : list Z :=
  match w with
  | a :: rest => rest ++ [a]
  | [] => []
  end.

Fixpoint rcon (j : nat) : Z :=
  match j with
  | O => 0
  | S O => 1
  | S j' => xtime (rcon j')
  end.

Fixpoint chunks4 (l : list Z) : list (list Z) :=
  match l with
  | a :: b :: c :: d :: rest => [a; b; c; d] :: chunks4 rest
  | _ => []
  end.

(** Key expansion, newest word first; [i] is the index of the next word. *)
Fixpoint expand (fuel i Nk : nat) (acc : list (list Z)) : list (list Z) :=
  match fuel with
  | O => acc
  | S fuel' =>
      let prev := hd [] acc in
      let temp :=
        if (i mod Nk =? 0)%nat then
          xorList (List.map sbox (rotWord prev)) [rcon (i / Nk); 0; 0; 0]
        else if (6 <? Nk)%nat && (i mod Nk =? 4)%nat then List.map sbox prev
        else prev in
      expand fuel' (S i) Nk (xorList (nth (Nk - 1) acc []) temp :: acc)
  end.

Definition keyExpansion (key : list Z) : list (list Z) :=
  let Nk := (length key / 4)%nat in
  List.rev (expand (4 * (Nk + 7) - Nk) Nk Nk (List.rev (chunks4 key))).

Definition roundKey (w : list (list Z)) (r : nat) : list Z :=
  concat (firstn 4 (skipn (4 * r) w)).

Definition subBytes (s : list Z) : list Z := List.map sbox s.

Definition shiftRows (s : list Z) : list Z :=
  List.map (fun i => nth (i mod 4 + 4 * ((i / 4 + i mod 4) mod 4)) s 0) (seq 0 16).

Definition mixColumn (c : list Z) : list Z :=
  match c with
  | [s0; s1; s2; s3] =>
      [ Z.lxor (Z.lxor (gmul 2 s0) (gmul 3 s1)) (Z.lxor s2 s3);
        Z.lxor (Z.lxor s0 (gmul 2 s1)) (Z.lxor (gmul 3 s2) s3);
        Z.lxor (Z.lxor s0 s1) (Z.lxor (gmul 2 s2) (gmul 3 s3));
        Z.lxor (Z.lxor (gmul 3 s0) s1) (Z.lxor s2 (gmul 2 s3)) ]
  | _ => c
  end.

Definition mixColumns (s : list Z) : list Z := concat (List.map mixColumn (chunks4 s)).

Definition encryptBlock (key block : list Z) : list Z :=
  let w := keyExpansion key in
  let Nr := (length key / 4 + 6)%nat in
  let s := xorList block (roundKey w 0) in
  let s := fold_left (fun s r => xorList (mixColumns (shiftRows (subBytes s)))
                                         (roundKey w r))
                     (seq 1 (Nr - 1)) s in
  xorList (shiftRows (subBytes s)) (roundKey w Nr).

End AES.

Definition unhex (s : string) : list Z :=
  let digit := fun (c : byte) =>
    let z := byte_to_Z c in
    if z <? 58 then z - 48 else z - 87 in
  (fix go (l : bytes) : list Z :=
     match l with
     | a :: b :: rest => (16 * digit a + digit b) :: go rest
     | _ => []
     end) (bytes_of_string s).

(** ** crypto/cipher: GCM over AES (NIST SP 800-38D), 96-bit nonce, 128-bit tag *)

Module GCM.

Definition toZs (b : bytes) : list Z := List.map byte_to_Z b.
Definition ofZs (l : list Z) : bytes := List.map byte_of_Z l.

(** A block as a 128-bit number, first byte most significant. *)
Definition toInt (l : list Z) : Z := fold_left (fun acc b => Z.lor (Z.shiftl acc 8) b) l 0.
Definition ofInt (z : Z) : list Z :=
  List.map (fun i => Z.land (Z.shiftr z (8 * (15 - Z.of_nat i))) 0xff) (seq 0 16).

Definition R : Z := Z.shiftl 0xe1 120.

Fixpoint gfmulAux (n : nat) (x v z : Z) : Z :=
  match n with
  | O => z
  | S n' =>
      let z' := if Z.testbit x (Z.of_nat n') then Z.lxor z v else z in
      let v' := if Z.testbit v 0 then Z.lxor (Z.shiftr v 1) R else Z.shiftr v 1 in
      gfmulAux n' x v' z'
  end.
Definition gfmul (x y : Z) : Z := gfmulAux 128 x y 0.

Fixpoint chunks16 (fuel : nat) (l : list Z) : list (list Z) :=
  match fuel with
  | O => []
  | S fuel' =>
      match l with
      | [] => []
      | _ => firstn 16 l :: chunks16 fuel' (skipn 16 l)
      end
  end.

Definition pad16 (l : list Z) : list Z :=
  l ++ repeat 0 ((16 - length l mod 16) mod 16).

Definition be (width : nat) (z : Z) : list Z :=
  List.map (fun i => Z.land (Z.shiftr z (8 * (Z.of_nat width - 1 - Z.of_nat i))) 0xff)
           (seq 0 width).

Definition ghash (h : Z) (data : list Z) : Z :=
  fold_left (fun y blk => gfmul (Z.lxor y (toInt blk)) h)
            (chunks16 (length data) data) 0.

Definition byteXor (a b : byte) : byte :=
  let '(a0, (a1, (a2, (a3, (a4, (a5, (a6, a7))))))) := Byte.to_bits a in
  let '(b0, (b1, (b2, (b3, (b4, (b5, (b6, b7))))))) := Byte.to_bits b in
  Byte.of_bits (xorb a0 b0, (xorb a1 b1, (xorb a2 b2, (xorb a3 b3,
               (xorb a4 b4, (xorb a5 b5, (xorb a6 b6, xorb a7 b7))))))).

Definition xorBytes (p ks : bytes) : bytes :=
  List.map (fun ab => byteXor (fst ab) (snd ab)) (combine p ks).

(** Counter blocks start at 2; block 1 masks the tag. *)
Definition keystream (k n : bytes) (len : nat) : bytes :=
  ofZs (flat_map (fun j => AES.encryptBlock (toZs k) (toZs n ++ be 4 (2 + Z.of_nat j)))
                 (seq 0 ((len + 15) / 16))).

Definition ctr (k n p : bytes) : bytes := xorBytes p (keystream k n (length p)).

Definition tag (k n c ad : bytes) : bytes :=
  let h := toInt (AES.encryptBlock (toZs k) (repeat 0 16)) in
  let data := pad16 (toZs ad) ++ pad16 (toZs c)
              ++ be 8 (8 * Z.of_nat (length ad)) ++ be 8 (8 * Z.of_nat (length c)) in
  let mask := toInt (AES.encryptBlock (toZs k) (toZs n ++ be 4 1)) in
  ofZs (ofInt (Z.lxor (ghash h data) mask)).

Definition seal (k n p ad : bytes) : bytes :=
  let c := ctr k n p in c ++ tag k n c ad.

Definition open (k n c ad : bytes) : option bytes :=
  if (length c <? 16)%nat then None
  else
    let ct := firstn (length c - 16) c in
    let t := skipn (length c - 16) c in
    if bool_decide (t = tag k n ct ad) then Some (ctr k n ct) else None.

End GCM.

(** ** Library interfaces the store is written against *)

(** [strings.ToLower] on a string with a byte outside ASCII goes through
    [strings.Map(unicode.ToLower, s)]; the Unicode tables are the
    library's. *)
Class Unicode := { mapToLower : bytes -> bytes }.

Definition NonceSize : nat := 12.    (* gcmStandardNonceSize *)

(** The longest plaintext GCM seals: [((1<<32)-2)] blocks of 16 bytes. *)
Definition maxPlaintext : Z := (2 ^ 32 - 2) * 16.

Definition validKeyLen (n : nat) : bool :=
  (n =? 16)%nat || (n =? 24)%nat || (n =? 32)%nat.

(** ** auth.go *)

Record authDataT := mkAuthData { Username : bytes; EncodedPassword : bytes }.

(** encoding/gob on [authDataT]: [enc.Encode] into a buffer and
    [dec.Decode] from one. *)
Class GobCodec := {
  gobEncode : authDataT -> goResult bytes;
  gobDecode : bytes -> goResult authDataT
}.

(** What the store relies on: decoding what was encoded gives the record. *)
Definition GobRoundTrip `{GobCodec} : Prop :=
  forall a bs, gobEncode a = Val bs -> gobDecode bs = Val a.

Definition loginURL : bytes := bytes_of_string "https://members-ng.iracing.com/auth".
Definition testUrl : bytes :=
  bytes_of_string "https://members-ng.iracing.com/data/constants/event_types".

Definition additionalContext : bytes := bytes_of_string "irdata.auth".

#[global] Instance error_eq_dec : EqDecision error.
Proof. solve_decision. Defined.

(** [errors.Is] on errors that neither wrap nor define [Is]: equality. *)
Definition errors_Is (e target : error) : bool := bool_decide (e = target).

Section Strings.
Context `{Unicode}.

Definition isASCII (c : byte) : bool := byte_to_Z c <? 128.
Definition isUpper (c : byte) : bool :=
  (byte_to_Z "A"%byte <=? byte_to_Z c) && (byte_to_Z c <=? byte_to_Z "Z"%byte).
Definition lowerByte (c : byte) : byte :=
  if isUpper c then byte_of_Z (byte_to_Z c + (byte_to_Z "a"%byte - byte_to_Z "A"%byte))
  else c.

Definition ToLower (s : bytes) : bytes :=
  if forallb isASCII s then
    if negb (existsb isUpper s) then s else List.map lowerByte s
  else mapToLower s.

Definition encodePassword (username password : bytes) : bytes :=
  let hasher := SHA256.New in
  let hasher := SHA256.Write hasher password in
  let hasher := SHA256.Write hasher (ToLower username) in
  Base64.EncodeToString (SHA256.Sum hasher).
End Strings.

(** The key slice returned by [getKey] is a reference to its backing array:
    an index into [keyBufs]. *)
Definition keyBytes (w : world) (key : nat) : bytes := default [] (keyBufs w !! key).

Definition getKey (keyFilename : string) : M nat :=
  st ← os_Stat keyFilename;
  m ← orPanic st;
  if negb (Z.land m ModePerm =? perm0400) then
    log_Panic (ErrorString ("key file " +:+ keyFilename +:+ " must have perms set to 0400"))
  else
    c ← os_ReadFile keyFilename;
    content ← orPanic c;
    key ← orPanic (match Base64.DecodeString content with
                   | Some k => Val k
                   | None => Err CorruptInputError
                   end);
    w ← getWorld;
    _ ← setKeyBufs (keyBufs w ++ [key]);
    mret (length (keyBufs w)).

(** The loop of [shred]: every index of the key's backing array, in order,
    is set to 0x69. *)
Definition shredLoop (buf : bytes) : bytes :=
  fold_left (fun b i => <[i := x69]> b) (seq 0 (length buf)) buf.

Definition shred (key : nat) : M unit :=
  _ ← emit (EvShred key);
  w ← getWorld;
  setKeyBufs (alter shredLoop key (keyBufs w)).

(** [aes.NewCipher]: the block keeps its own copy of the key material. *)
Record Block := mkBlock { blockKey : bytes }.
Record AEAD := mkAEAD { aeadKey : bytes }.

Definition aes_NewCipher (key : nat) : M (goResult Block) :=
  w ← getWorld;
  let k := keyBytes w key in
  _ ← emit (EvNewCipher (length k));
  if validKeyLen (length k) then mret (Val (mkBlock k))
  else mret (Err (KeySizeError (length k))).

(** [cipher.NewGCM] fails only for a block size other than 16, which AES
    never has. *)
Definition cipher_NewGCM (b : Block) : M (goResult AEAD) :=
  _ ← emit EvNewGCM;
  mret (Val (mkAEAD (blockKey b))).

Definition makeNonce (gcm : AEAD) : M (goResult bytes) := rand_Read NonceSize.

(** A slice with its capacity; the backing array is zero past the length. *)
Record goSlice := mkSlice { elems : bytes; cap : nat }.

(** [s[:hi]] is in range up to the capacity, [s[lo:]] up to the length. *)
Definition sliceTo (s : goSlice) (hi : nat) : M bytes :=
  if (hi <=? cap s)%nat then
    mret (firstn hi (elems s ++ repeat x00 (cap s - length (elems s))))
  else doPanic (RuntimePanic "slice bounds out of range").
Definition sliceFrom (s : goSlice) (lo : nat) : M bytes :=
  if (lo <=? length (elems s))%nat then mret (skipn lo (elems s))
  else doPanic (RuntimePanic "slice bounds out of range").

Definition base64_DecodeString (s : bytes) : goResult goSlice :=
  match Base64.DecodeString s with
  | Some d => Val (mkSlice d (Base64.DecodedLen (length s)))
  | None => Err CorruptInputError
  end.

(** Modelled from the spec: the [CredsProvider] interface is declared
    outside auth.go; it is the capability "GetCreds() -> (username bytes,
    password bytes)" supplied by the caller. *)
Record CredsProvider := mkCredsProvider { GetCreds : bytes * bytes }.

Section Store.
Context `{GobCodec}.

(** [aesgcm.Seal(dst, nonce, plaintext, ad)] appends to [dst]; a nonce of
    the wrong length and a plaintext beyond what the 32-bit counter covers
    are panics of the library. *)
Definition Seal (g : AEAD) (dst nonce plaintext ad : bytes) : M bytes :=
  _ ← emit EvSeal;
  if negb (length nonce =? NonceSize)%nat then
    doPanic (RuntimePanic "crypto/cipher: incorrect nonce length given to GCM")
  else if maxPlaintext <? Z.of_nat (length plaintext) then
    doPanic (RuntimePanic "crypto/cipher: message too large for GCM")
  else mret (dst ++ GCM.seal (aeadKey g) nonce plaintext ad).

Definition Open (g : AEAD) (dst nonce ciphertext ad : bytes) : M (goResult bytes) :=
  _ ← emit EvOpen;
  if negb (length nonce =? NonceSize)%nat then
    doPanic (RuntimePanic "crypto/cipher: incorrect nonce length given to GCM")
  else if maxPlaintext + 16 <? Z.of_nat (length ciphertext) then mret (Err ErrOpen)
  else
    match GCM.open (aeadKey g) nonce ciphertext ad with
    | Some p => mret (Val (dst ++ p))
    | None => mret (Err ErrOpen)
    end.

Definition gob_Encode (a : authDataT) : M (goResult bytes) :=
  _ ← emit EvGobEncode; mret (gobEncode a).
Definition gob_Decode (b : bytes) : M (goResult authDataT) :=
  _ ← emit EvGobDecode; mret (gobDecode b).

Definition writeCreds (keyFilename authFilename : string) (authData : authDataT)
  : M unit :=
  key ← getKey keyFilename;
  r ← aes_NewCipher key;
  (* not a defer because we want to do this right away *)
  _ ← shred key;
  block ← match r with
          | Val b => mret b
          | Err err =>
              if errors_Is err (KeySizeError 0) then
                log_Panic (ErrorString "key must be 16, 24, or 32 bytes long")
              else log_Panic err
          end;
  g ← cipher_NewGCM block;
  aesgcm ← orPanic g;
  n ← makeNonce aesgcm;
  nonce ← orPanic n;
  e ← gob_Encode authData;
  buf ← orPanic e;
  data ← Seal aesgcm nonce nonce buf additionalContext;
  let base64data := Base64.EncodeToString data in
  werr ← os_WriteFile authFilename base64data ModePerm;
  match werr with
  | Some err => log_Panic err
  | None => mret tt
  end.

Definition readCreds (keyFilename authFilename : string) : M authDataT :=
  key ← getKey keyFilename;
  r ← aes_NewCipher key;
  (* not a defer because we want to do this right away *)
  _ ← shred key;
  block ← orPanic r;
  g ← cipher_NewGCM block;
  aesgcm ← orPanic g;
  c ← os_ReadFile authFilename;
  base64data ← orPanic c;
  data ← orPanic (base64_DecodeString base64data);
  nonce ← sliceTo data NonceSize;
  sealed ← sliceFrom data NonceSize;
  o ← Open aesgcm [] nonce sealed additionalContext;
  authGob ← orPanic o;
  d ← gob_Decode authGob;
  authData ← orPanic d;
  mret authData.
(** What [writeCreds] does once the key is shredded, given the outcome [r]
    of [aes.NewCipher]; and the same for [readCreds]. *)
Definition sealAndWrite (authFilename : string) (authData : authDataT)
  (r : goResult Block) : M unit :=
  block ← match r with
          | Val b => mret b
          | Err err =>
              if errors_Is err (KeySizeError 0) then
                log_Panic (ErrorString "key must be 16, 24, or 32 bytes long")
              else log_Panic err
          end;
  g ← cipher_NewGCM block;
  aesgcm ← orPanic g;
  n ← makeNonce aesgcm;
  nonce ← orPanic n;
  e ← gob_Encode authData;
  buf ← orPanic e;
  data ← Seal aesgcm nonce nonce buf additionalContext;
  let base64data := Base64.EncodeToString data in
  werr ← os_WriteFile authFilename base64data ModePerm;
  match werr with
  | Some err => log_Panic err
  | None => mret tt
  end.

Definition openAndDecode (authFilename : string) (r : goResult Block) : M authDataT :=
  block ← orPanic r;
  g ← cipher_NewGCM block;
  aesgcm ← orPanic g;
  c ← os_ReadFile authFilename;
  base64data ← orPanic c;
  data ← orPanic (base64_DecodeString base64data);
  nonce ← sliceTo data NonceSize;
  sealed ← sliceFrom data NonceSize;
  o ← Open aesgcm [] nonce sealed additionalContext;
  authGob ← orPanic o;
  d ← gob_Decode authGob;
  authData ← orPanic d;
  mret authData.
End Store.

(** ** The session *)

Definition isPost (e : event) : bool := match e with EvPost _ _ => true | _ => false end.
Definition isGet (e : event) : bool := match e with EvGet _ => true | _ => false end.
Definition isSleep (e : event) : bool := match e with EvSleep _ => true | _ => false end.
Definition isNetwork (e : event) : bool := isPost e || isGet e.

(** [i.httpClient.Post(url, contentType, body)] *)
Definition httpClient_Post (url body : bytes) : M reply := fun w =>
  let n := length (List.filter isPost (events w)) in
  (_ ← emit (EvPost url body); mret (postReplies w n)) w.

(** Modelled from the spec: [retryingGet] is a method of [Irdata] defined
    outside auth.go, the "external retrying-GET collaborator" that issues one
    GET to the given endpoint and hands back [(resp, err)]; it leaves the
    session flag alone. [EvGet] records one call of it; what it does inside
    is not auth.go's. *)
Definition retryingGet (url : bytes) : M reply := fun w =>
  let n := length (List.filter isGet (events w)) in
  (_ ← emit (EvGet url); mret (getReplies w n)) w.

Definition time_Sleep (seconds : Z) : M unit := emit (EvSleep seconds).

(** [resp.StatusCode] on a possibly nil [*http.Response]. *)
Definition statusCode (resp : option response) : M Z :=
  match resp with
  | Some r => mret (StatusCode r)
  | None => doPanic (RuntimePanic "invalid memory address or nil pointer dereference")
  end.

(** [fmt.Sprintf] of the login body: email and password between quotes. *)
Definition quoted (s : bytes) : bytes := x22 :: s ++ [x22].

Definition loginBody (authData : authDataT) : bytes :=
  bytes_of_string "{" ++ quoted (bytes_of_string "email") ++ bytes_of_string ": "
  ++ quoted (Username authData) ++ bytes_of_string " ,"
  ++ quoted (bytes_of_string "password") ++ bytes_of_string ": "
  ++ quoted (EncodedPassword authData) ++ bytes_of_string "}".

(** The [for retries > 0] loop; [cur] is the value of [(resp, err)] on entry. *)
Fixpoint loginLoop (retries : nat) (authData : authDataT) (cur : reply) : M reply :=
  match retries with
  | O => mret cur
  | S retries' =>
      cur' ← httpClient_Post loginURL (loginBody authData);
      sc ← statusCode (fst cur');
      if sc <? 500 then mret cur'
      else
        (* retries-- *)
        _ ← time_Sleep ((6 - Z.of_nat retries') * 5);
        loginLoop retries' authData cur'
  end.

Definition auth (authData : authDataT) : M (option error) :=
  w ← getWorld;
  if isAuthed (session w) then mret None
  else if bool_decide (EncodedPassword authData = []) then
    mret (Some (ErrorString "must provide credentials before calling"))
  else
    '(resp, err) ← loginLoop 5 authData (None, None);
    match err with
    | Some e => log_Panic e
    | None =>
        sc ← statusCode resp;
        if negb (sc =? 200) then
          mret (Some (ErrorString "unexpected auth failure, try debug"))
        else
          (* test we are really auth'ed *)
          '(resp, err) ← retryingGet testUrl;
          match err with
          | Some e => log_Panic e
          | None =>
              sc ← statusCode resp;
              if negb (sc =? 200) then
                if sc =? 401 then
                  mret (Some (ErrorString "login failed, check creds"))
                else mret (Some (ErrorString "unexpected auth failure, try debug"))
              else
                _ ← setSession (mkIrdata true);
                mret None
          end
    end.

Section Entry.
Context `{Unicode} `{GobCodec}.

Definition AuthWithCredsFromFile (keyFilename authFilename : string)
  : M (option error) :=
  authData ← readCreds keyFilename authFilename;
  auth authData.

Definition AuthWithProvideCreds (authSource : CredsProvider) : M (option error) :=
  let '(username, password) := GetCreds authSource in
  auth (mkAuthData username (encodePassword username password)).

Definition SaveProvidedCredsToFile (keyFilename authFilename : string)
  (authSource : CredsProvider) : M unit :=
  let '(username, password) := GetCreds authSource in
  writeCreds keyFilename authFilename
    (mkAuthData username (encodePassword username password)).
End Entry.

(** ** Observations on a run *)

Definition sleepsOf (es : list event) : list Z :=
  omap (fun e => match e with EvSleep s => Some s | _ => None end) es.

Definition postCount (es : list event) : nat := length (List.filter isPost es).
Definition getCount (es : list event) : nat := length (List.filter isGet es).

Definition isCipherOp (e : event) : bool :=
  match e with
  | EvNewCipher _ | EvNewGCM | EvSeal | EvOpen => true
  | _ => false
  end.

(** The events a computation adds to those already recorded. *)
Definition added (w w' : world) : list event := skipn (length (events w)) (events w').

(** ** Worlds to run the code in *)

Definition okReply (code : Z) : reply := (Some (mkResponse code ""), None).
Definition noReply : reply := (None, Some (TransportError "dial tcp: connection refused")).

Definition replyList (l : list reply) (dflt : reply) : nat -> reply :=
  fun n => nth n l dflt.

Definition world0 : world :=
  mkWorld ∅ 18 false [] [] (mkIrdata false)
          (fun _ => okReply 200) (fun _ => okReply 200) [].

Definition withReplies (posts gets : nat -> reply) (w : world) : world :=
  mkWorld (fs w) (umask w) (privileged w) (entropy w) (keyBufs w) (session w)
          posts gets (events w).

Definition creds0 : authDataT :=
  mkAuthData (bytes_of_string "user@example.com")
             (bytes_of_string "ihBzlO6bnu0lfgFIo+8L4Sq3a+vl4rzfyPtyHKb2TO8=").

Definition nilDeref : panic :=
  RuntimePanic "invalid memory address or nil pointer dereference".

(** One run of the login loop as a derivation: [loopRun rs ad n i cur es res]
    says that the loop entered with [n] retries left, when [i] POSTs were
    made before and [(resp, err)] hold [cur], produces the events [es] and
    ends in [res], against a peer answering the j-th POST with [rs j]. *)
Inductive loopRun (rs : nat -> reply) (ad : authDataT)
  : nat -> nat -> reply -> list event -> result reply -> Prop :=
  | run_exhausted i cur :
      loopRun rs ad 0 i cur [] (Ok cur)
  | run_no_response n i cur e :
      rs i = (None, e) ->
      loopRun rs ad (S n) i cur [EvPost loginURL (loginBody ad)] (Panicked nilDeref)
  | run_resolved n i cur r e :
      rs i = (Some r, e) -> StatusCode r < 500 ->
      loopRun rs ad (S n) i cur [EvPost loginURL (loginBody ad)] (Ok (Some r, e))
  | run_retry n i cur r e es res :
      rs i = (Some r, e) -> 500 <= StatusCode r ->
      loopRun rs ad n (S i) (Some r, e) es res ->
      loopRun rs ad (S n) i cur
        (EvPost loginURL (loginBody ad) :: EvSleep ((6 - Z.of_nat n) * 5) :: es) res.

(** The sleeps of a loop entered with [n] retries left: after the
    decrement [retries] is [n-1], [n-2], ... and each sleep lasts
    [(6-retries)*5] seconds. *)
Fixpoint delays (n : nat) : list Z :=
  match n with
  | O => []
  | S n' => (6 - Z.of_nat n') * 5 :: delays n'
  end.

(** Modelled from the spec: the constructor of [Irdata] is outside auth.go;
    the flag is "initialized false", the zero value of the struct. *)
Definition zeroIrdata : Irdata := mkIrdata false.

(** A failed attempt and the sleep after it, once per delay. *)
Definition retryEvents (ad : authDataT) (ds : list Z) : list event :=
  flat_map (fun d => [EvPost loginURL (loginBody ad); EvSleep d]) ds.

Definition thePost (ad : authDataT) : event := EvPost loginURL (loginBody ad).

Definition errUnexpected : error := ErrorString "unexpected auth failure, try debug".
Definition errCheckCreds : error := ErrorString "login failed, check creds".
Definition errNoCreds : error := ErrorString "must provide credentials before calling".

(** The login phase of a call of [auth] in [w]: [k] attempts were answered
    with a status of 500 or more and slept on, and [es] are its events. *)
Definition loginPhase (ad : authDataT) (w : world) (k : nat) (es : list event) : Prop :=
  (k <= 5)%nat
  /\ es = retryEvents ad (firstn k (delays 5))
          ++ (if (k <? 5)%nat then [thePost ad] else [])
  /\ forall j, (j < k)%nat ->
       exists r e, postReplies w (postCount (events w) + j) = (Some r, e)
                   /\ 500 <= StatusCode r.

(** The world after a successful verification. *)
Definition loggedIn (w : world) (es : list event) : world :=
  mkWorld (fs w) (umask w) (privileged w) (entropy w) (keyBufs w) (mkIrdata true)
          (postReplies w) (getReplies w) (events w ++ es).

(** [keeps R m]: whatever the outcome, the world [m] leaves is [R]-related
    to the one it started in. *)
Definition keeps {A} (R : world -> world -> Prop) (m : M A) : Prop :=
  forall w, R w (snd (m w)).

Definition sameSession (w w' : world) : Prop := session w' = session w.

(** A peer that answers the first login POST with 503 and everything after
    with 200, and one that always answers 503. *)
Definition worldOne503 : world :=
  withReplies (replyList [okReply 503] (okReply 200)) (fun _ => okReply 200) world0.
Definition worldAll503 : world :=
  withReplies (fun _ => okReply 503) (fun _ => okReply 200) world0.
Definition worldNoPeer : world :=
  withReplies (fun _ => noReply) (fun _ => okReply 200) world0.

(** The world once [getKey] has loaded [k], [aes.NewCipher] has read it and
    [shred] has overwritten it. *)
Definition keyPhase (kf : string) (k : bytes) (w : world) : world :=
  updKeyBufs (keyBufs w ++ [repeat x69 (length k)])
    (addEvents w [EvStat kf; EvReadFile kf; EvNewCipher (length k);
                  EvShred (length (keyBufs w))]).

Definition errPerms (kf : string) : error :=
  ErrorString ("key file " +:+ kf +:+ " must have perms set to 0400").

(** What [getKey] makes of the key file, as a value. *)
Definition keyOf (kf : string) (w : world) : result bytes :=
  match fs w !! kf with
  | None => Panicked (LogPanic (PathError "stat" kf "no such file or directory"))
  | Some f =>
      if negb (Z.land (mode f) ModePerm =? perm0400) then
        Panicked (LogPanic (errPerms kf))
      else if negb (Z.land (mode f) ModeDir =? 0) then
        Panicked (LogPanic (PathError "read" kf "is a directory"))
      else match Base64.DecodeString (content f) with
           | None => Panicked (LogPanic CorruptInputError)
           | Some k => Ok k
           end
  end.

(** [w'] differs from [w] at most in files, entropy used and events added. *)
Definition extends (w w' : world) : Prop :=
  keyBufs w' = keyBufs w /\ session w' = session w
  /\ privileged w' = privileged w /\ umask w' = umask w
  /\ exists es, events w' = events w ++ es.

(** ** encoding/gob: the wire format of [authDataT]

    The stream [enc.Encode(authData)] writes for a struct of two strings
    that is the first user type of the encoder: the type definition
    message and the value message, in which empty strings are left out.
    The first user type has id 64 (earlier releases of Go gave it 65; the
    streams differ in those bytes only).

    [Decode] is a decoder for the streams of this encoder and no more:
    encoding/gob's own decoder also accepts other type ids and matches
    the fields of a type definition by name. What is proved of the store
    takes the codec as a parameter, with [GobRoundTrip] as the one thing
    asked of it; this module is the instance the examples run with. *)

Module Gob.

Fixpoint beBytes (fuel : nat) (n : Z) : list Z :=
  match fuel with
  | O => []
  | S fuel' => if n =? 0 then [] else beBytes fuel' (n / 256) ++ [n mod 256]
  end.

Definition fromBE (l : list Z) : Z := fold_left (fun acc b => acc * 256 + b) l 0.

(** An unsigned integer: one byte below 128, else the negated byte count
    and the bytes, most significant first. *)
Definition encUint (n : Z) : bytes :=
  if n <? 128 then [byte_of_Z n]
  else let bs := beBytes 8 n in
       byte_of_Z (256 - Z.of_nat (length bs)) :: List.map byte_of_Z bs.

(** A signed integer: the sign in bit 0, the value (complemented when
    negative) above it. *)
Definition encInt (i : Z) : bytes :=
  if i <? 0 then encUint (Z.lor (Z.shiftl (Z.lnot i) 1) 1)
  else encUint (Z.shiftl i 1).

Definition encString (s : bytes) : bytes := encUint (Z.of_nat (length s)) ++ s.

Definition typeId : Z := 64.
Definition stringId : Z := 6.

Definition fieldType (name : string) (id : Z) : bytes :=
  [x01] ++ encString (bytes_of_string name) ++ [x01] ++ encInt id ++ [x00].

(** The [wireType] describing [authDataT]: its [StructT] member, holding
    the [CommonType] (name and id) and the two fields. *)
Definition typeDef : bytes :=
  encInt (- typeId)
  ++ [x03]
  ++ ([x01] ++ ([x01] ++ encString (bytes_of_string "authDataT")
                 ++ [x01] ++ encInt typeId ++ [x00]))
  ++ ([x01] ++ encUint 2
       ++ fieldType "Username" stringId
       ++ fieldType "EncodedPassword" stringId)
  ++ [x00]
  ++ [x00].

Definition message (body : bytes) : bytes := encUint (Z.of_nat (length body)) ++ body.

Definition encodeFields (a : authDataT) : bytes :=
  match Username a, EncodedPassword a with
  | [], [] => []
  | [], p => [x02] ++ encString p
  | u, [] => [x01] ++ encString u
  | u, p => [x01] ++ encString u ++ [x01] ++ encString p
  end.

Definition encodeValue (a : authDataT) : bytes :=
  encInt typeId ++ encodeFields a ++ [x00].

Definition maxLen : Z := 2 ^ 62.

Definition Encode (a : authDataT) : goResult bytes :=
  if (Z.of_nat (length (Username a)) <? maxLen)
     && (Z.of_nat (length (EncodedPassword a)) <? maxLen)
  then Val (message typeDef ++ message (encodeValue a))
  else Err (GobError "gob: encoder: message too big").

Definition decUint (bs : bytes) : option (Z * bytes) :=
  match bs with
  | [] => None
  | b :: rest =>
      let v := byte_to_Z b in
      if v <? 128 then Some (v, rest)
      else
        let cnt := Z.to_nat (256 - v) in
        if (8 <? cnt)%nat || (length rest <? cnt)%nat then None
        else Some (fromBE (List.map byte_to_Z (firstn cnt rest)), skipn cnt rest)
  end.

(** A count followed by that many bytes: a string, or a message. *)
Definition decString (bs : bytes) : option (bytes * bytes) :=
  '(n, rest) ← decUint bs;
  if Z.of_nat (length rest) <? n then None
  else Some (firstn (Z.to_nat n) rest, skipn (Z.to_nat n) rest).

Fixpoint decFields (fuel : nat) (field : Z) (a : authDataT) (bs : bytes)
  : option (authDataT * bytes) :=
  match fuel with
  | O => None
  | S fuel' =>
      '(delta, rest) ← decUint bs;
      if delta =? 0 then Some (a, rest)
      else
        let field' := field + delta in
        '(s, rest') ← decString rest;
        if field' =? 0 then decFields fuel' field' (mkAuthData s (EncodedPassword a)) rest'
        else if field' =? 1 then decFields fuel' field' (mkAuthData (Username a) s) rest'
        else None
  end.

Definition decodeValue (body : bytes) : option authDataT :=
  let idLen := length (encInt typeId) in
  if bool_decide (firstn idLen body = encInt typeId) then
    match decFields 3 (-1) (mkAuthData [] []) (skipn idLen body) with
    | Some (a, []) => Some a
    | _ => None
    end
  else None.

Definition Decode (bs : bytes) : goResult authDataT :=
  match ('(m1, r1) ← decString bs;
         '(m2, r2) ← decString r1;
         if bool_decide (m1 = typeDef) && bool_decide (r2 = [])
         then decodeValue m2 else None) with
  | Some a => Val a
  | None => Err (GobError "gob: decoding failed")
  end.

End Gob.

#[global] Instance gobWire : GobCodec :=
  {| gobEncode := Gob.Encode; gobDecode := Gob.Decode |}.

(** The instance the examples run with. All of them have ASCII names, for
    which [ToLower] never gets to [mapToLower]. On a name with a byte
    outside ASCII this instance leaves the name as it is, which
    [strings.ToLower] does not: it is not a model of the Unicode tables,
    and nothing below is proved with it about such names. *)
#[global] Instance asciiOnly : Unicode := {| mapToLower := fun s => s |}.

(** What [os.ReadFile] yields for a name, as a value. *)
Definition fileOf (name : string) (w : world) : goResult bytes :=
  match fs w !! name with
  | None => Err (PathError "open" name "no such file or directory")
  | Some f =>
      if negb (Z.land (mode f) ModeDir =? 0) then
        Err (PathError "read" name "is a directory")
      else if privileged w || negb (Z.land (mode f) perm0400 =? 0) then Val (content f)
      else Err (PathError "open" name "permission denied")
  end.

Definition sliceBounds : panic := RuntimePanic "slice bounds out of range".

Definition errKeyLen : error := ErrorString "key must be 16, 24, or 32 bytes long".

(** The mode [os.WriteFile] gives a file it creates with [ModePerm]. *)
Definition createMode (w : world) : Z :=
  Z.land (Z.land ModePerm ModePerm) (Z.lxor (Z.land (umask w) ModePerm) ModePerm).

(** The world after a successful [writeCreds] tail: 12 bytes of entropy
    used, the file stored with mode [m], the five events recorded. *)
Definition stored (af : string) (m : Z) (data64 : bytes) (w : world) : world :=
  updFs (<[af := mkFile m data64]> (fs w))
    (updEntropy (skipn NonceSize (entropy w))
       (addEvents w [EvNewGCM; EvRandRead NonceSize; EvGobEncode; EvSeal; EvWriteFile af])).

(** Worlds for the store: a 32-byte key in a file of mode 0400 (or 0644, or
    a 5-byte key), 24 bytes of entropy, and possibly a credential file. *)
Definition key32 : bytes := GCM.ofZs (List.map Z.of_nat (seq 0 32)).
Definition key5 : bytes := GCM.ofZs (List.map Z.of_nat (seq 0 5)).

Definition storeWorld (keyMode : Z) (key : bytes) (creds : option bytes) : world :=
  let keyFile := mkFile keyMode (Base64.EncodeToString key) in
  let files : gmap string file :=
    match creds with
    | Some c => <["creds.dat" := mkFile 420 c]> {["secret.key" := keyFile]}
    | None => {["secret.key" := keyFile]}
    end in
  mkWorld files 18 false (GCM.ofZs (List.map Z.of_nat (seq 100 24))) []
          (mkIrdata false) (fun _ => okReply 200) (fun _ => okReply 200) [].

Definition worldStore : world := storeWorld 256 key32 None.
Definition worldBadPerms : world := storeWorld 420 key32 None.
Definition worldShortKey : world := storeWorld 256 key5 None.
Definition worldShortCreds : world := storeWorld 256 key32 (Some (bytes_of_string "AAAA")).

Definition isOpenEv (e : event) : bool := match e with EvOpen => true | _ => false end.

(** A peer whose login answers 200 and whose verification answers 401. *)
Definition worldVerify401 : world :=
  withReplies (fun _ => okReply 200) (fun _ => okReply 401) world0.

(** ** Counting byte strings *)



(** ** Letter case *)





(** ** Further observations *)

(** Seconds slept in a run. *)
Definition totalSleep (es : list event) : Z := fold_right Z.add 0 (sleepsOf es).

(** [w'] differs from [w] at most in the session flag and events added. *)
Definition sameStore (w w' : world) : Prop :=
  fs w' = fs w /\ entropy w' = entropy w /\ keyBufs w' = keyBufs w
  /\ umask w' = umask w /\ privileged w' = privileged w
  /\ exists es, events w' = events w ++ es.

(** The first [k] login POSTs from [w] on are answered with a response of
    status 500 or more. *)
Definition serverErrors (w : world) (k : nat) : Prop :=
  forall j, (j < k)%nat ->
    exists r e, postReplies w (postCount (events w) + j) = (Some r, e)
                /\ 500 <= StatusCode r.

(** A peer answering the login with two 503 (the first along with an
    error value) and then 200. *)
Definition worldTwo503 : world :=
  withReplies
    (replyList [(Some (mkResponse 503 ""), Some (TransportError "unexpected EOF"));
                okReply 503] (okReply 200))
    (fun _ => okReply 200) world0.

(** A peer whose login answers 403. *)
Definition world403 : world :=
  withReplies (fun _ => okReply 403) (fun _ => okReply 200) world0.


(** [w'] has the files of [w], except perhaps [af]; and [w'] has the files
    and the unread random bytes of [w]. *)
Definition onlyFile (af : string) (w w' : world) : Prop :=
  forall name, name <> af -> fs w' !! name = fs w !! name.
Definition sameFiles (w w' : world) : Prop :=
  fs w' = fs w /\ entropy w' = entropy w.

Definition isWriteEv (e : event) : bool :=
  match e with EvWriteFile _ => true | _ => false end.


(** A credential file whose envelope carries an all-zero tag. *)
Definition forgedEnvelope : bytes :=
  Base64.EncodeToString (repeat x00 NonceSize ++ [x01; x02; x03] ++ repeat x00 16).
Definition worldForged : world := storeWorld 256 key32 (Some forgedEnvelope).
Definition worldBadBase64 : world :=
  storeWorld 256 key32 (Some (bytes_of_string "not base64!")).
Definition worldNoEntropy : world := updEntropy [] worldStore.


(** What stands between the two values in the login body. *)
Definition fieldSep : bytes :=
  [x22] ++ bytes_of_string " ," ++ quoted (bytes_of_string "password")
  ++ bytes_of_string ": " ++ [x22].

Definition src0 : CredsProvider :=
  mkCredsProvider (bytes_of_string "User@Example.com", bytes_of_string "secret").

(** * Properties *)

(** ** Test vectors *)

Example base64_foobar :
  Base64.EncodeToString (bytes_of_string "foobar") = bytes_of_string "Zm9vYmFy"
  /\ Base64.EncodeToString (bytes_of_string "fooba") = bytes_of_string "Zm9vYmE="
  /\ Base64.EncodeToString (bytes_of_string "foob") = bytes_of_string "Zm9vYg=="
  /\ Base64.DecodeString (bytes_of_string "Zm9vYg==") = Some (bytes_of_string "foob")
  /\ Base64.DecodeString (bytes_of_string "Zm9vYh==") = None.
Proof. vm_compute. repeat split. Qed.

Example sha256_constants :
  length SHA256.K = 64%nat /\ nth 0 SHA256.K 0 = 0x428a2f98
  /\ nth 63 SHA256.K 0 = 0xc67178f2 /\ nth 7 SHA256.H0 0 = 0x5be0cd19.
Proof. repeat split. Qed.

Example sha256_abc :
  hex (SHA256.Sum256 (bytes_of_string "abc"))
  = "ba7816bf8f01cfea414140de5dae2223b00361a396177a9cb410ff61f20015ad"%string
  /\ hex (SHA256.Sum256 (repeat "a"%byte 70))
  = "6bd5e5034855a11241f0dee8fc72850ffd9955b28347a86428b5fa19119f6ad0"%string.
Proof. vm_compute. split; reflexivity. Qed.

Example aes_fips197 :
  AES.encryptBlock (unhex "000102030405060708090a0b0c0d0e0f")
                   (unhex "00112233445566778899aabbccddeeff")
  = unhex "69c4e0d86a7b0430d8cdb78070b4c55a"
  /\ AES.encryptBlock (unhex "000102030405060708090a0b0c0d0e0f1011121314151617")
                      (unhex "00112233445566778899aabbccddeeff")
  = unhex "dda97ca4864cdfe06eaf70a0ec0d7191"
  /\ AES.encryptBlock
       (unhex "000102030405060708090a0b0c0d0e0f101112131415161718191a1b1c1d1e1f")
       (unhex "00112233445566778899aabbccddeeff")
  = unhex "8ea2b7ca516745bfeafc49904b496089".
Proof. vm_compute. repeat split. Qed.

Example gcm_vectors :
  GCM.seal (repeat x00 16) (repeat x00 12) [] []
  = GCM.ofZs (unhex "58e2fccefa7e3061367f1d57a4e7455a")
  /\ GCM.seal (repeat x00 16) (repeat x00 12) (repeat x00 16) []
  = GCM.ofZs (unhex "0388dace60b6a392f328c2b971b2fe78ab6e47d42cec13bdf53a67b21257bddf")
  /\ GCM.seal (GCM.ofZs (List.map Z.of_nat (seq 0 32)))
              (GCM.ofZs (List.map Z.of_nat (seq 100 12)))
              (bytes_of_string "hello irdata credentials") additionalContext
  = GCM.ofZs (unhex "207eb20a16c93fec5a032b89fa06189826a7687ee20d9f0171c190383a219a392d14deb0ec897c35").
Proof. vm_compute. repeat split. Qed.

Example gob_stream :
  Gob.Encode (mkAuthData (bytes_of_string "ab") (bytes_of_string "c"))
  = Val (GCM.ofZs (unhex
      ("377f0301" ++ "0109617574684461746154" ++ "01ff8000" ++ "0102"
       ++ "0108557365726e616d65" ++ "010c00"
       ++ "010f456e636f64656450617373776f7264" ++ "010c00" ++ "0000"
       ++ "0aff80" ++ "01026162" ++ "010163" ++ "00")))
  /\ Gob.Decode (GCM.ofZs (unhex
      ("377f0301" ++ "0109617574684461746154" ++ "01ff8000" ++ "0102"
       ++ "0108557365726e616d65" ++ "010c00"
       ++ "010f456e636f64656450617373776f7264" ++ "010c00" ++ "0000"
       ++ "0aff80" ++ "01026162" ++ "010163" ++ "00")))
     = Val (mkAuthData (bytes_of_string "ab") (bytes_of_string "c"))
  /\ Gob.encUint 256 = [xfe; x01; x00]
  /\ Gob.decUint [xfe; x01; x00; x07] = Some (256, [x07]).
Proof. vm_compute. repeat split. Qed.

(** ** Bytes and numbers *)



Lemma byte_to_of_Z (z : Z) : 0 <= z < 256 -> byte_to_Z (byte_of_Z z) = z.
Proof.
  intros Hz. unfold byte_of_Z, byte_to_Z. rewrite Z.mod_small by lia.
  destruct (Byte.of_N (Z.to_N z)) as [b|] eqn:Hb.
  - apply Byte.to_of_N in Hb. lia.
  - apply Byte.of_N_None_iff in Hb. lia.
Qed.

(** ** base64 *)

Module Base64Facts.
Import Base64.

Lemma decChar_encChar (s : sextet) : decChar (encChar s) = Some s.
Proof. destruct s as [[[[[[] []] []] []] []] []]; vm_compute; reflexivity. Qed.

Lemma encChar_not_pad (s : sextet) : Byte.eqb (encChar s) pad = false.
Proof. destruct s as [[[[[[] []] []] []] []] []]; vm_compute; reflexivity. Qed.

Lemma encChar_not_newline (s : sextet) : isNewline (encChar s) = false.
Proof. destruct s as [[[[[[] []] []] []] []] []]; vm_compute; reflexivity. Qed.

Lemma decFull_enc3 (a b c : byte) :
  match enc3 a b c with
  | [c1; c2; c3; c4] =>
      decFull c1 c2 c3 c4 = Some [a; b; c] /\ Byte.eqb c4 pad = false
  | _ => False
  end.
Proof.
  unfold enc3.
  pose proof (Byte.of_bits_to_bits a) as Ha.
  pose proof (Byte.of_bits_to_bits b) as Hb.
  pose proof (Byte.of_bits_to_bits c) as Hc.
  destruct (Byte.to_bits a) as (a0 & a1 & a2 & a3 & a4 & a5 & a6 & a7).
  destruct (Byte.to_bits b) as (b0 & b1 & b2 & b3 & b4 & b5 & b6 & b7).
  destruct (Byte.to_bits c) as (c0 & c1 & c2 & c3 & c4 & c5 & c6 & c7).
  unfold decFull. rewrite !decChar_encChar. cbn [mbind option_bind dec3].
  split; [by rewrite Ha, Hb, Hc | apply encChar_not_pad].
Qed.

Lemma decLast_enc2 (a b : byte) :
  match enc2 a b with
  | [c1; c2; c3; c4] => decLast c1 c2 c3 c4 = Some [a; b]
  | _ => False
  end.
Proof.
  unfold enc2.
  pose proof (Byte.of_bits_to_bits a) as Ha.
  pose proof (Byte.of_bits_to_bits b) as Hb.
  destruct (Byte.to_bits a) as (a0 & a1 & a2 & a3 & a4 & a5 & a6 & a7).
  destruct (Byte.to_bits b) as (b0 & b1 & b2 & b3 & b4 & b5 & b6 & b7).
  unfold decLast. rewrite encChar_not_pad.
  replace (Byte.eqb pad pad) with true by reflexivity.
  rewrite !decChar_encChar. cbn [mbind option_bind dec3 orb firstn zero6].
  by rewrite Ha, Hb.
Qed.

Lemma decLast_enc1 (a : byte) :
  match enc1 a with
  | [c1; c2; c3; c4] => decLast c1 c2 c3 c4 = Some [a]
  | _ => False
  end.
Proof.
  unfold enc1.
  pose proof (Byte.of_bits_to_bits a) as Ha.
  destruct (Byte.to_bits a) as (a0 & a1 & a2 & a3 & a4 & a5 & a6 & a7).
  unfold decLast.
  replace (Byte.eqb pad pad) with true by reflexivity.
  rewrite !decChar_encChar. cbn [mbind option_bind dec3 orb firstn zero6].
  by rewrite Ha.
Qed.

Lemma bytes_ind3 (P : bytes -> Prop) :
  P [] -> (forall a, P [a]) -> (forall a b, P [a; b]) ->
  (forall a b c l, P l -> P (a :: b :: c :: l)) ->
  forall l, P l.
Proof.
  intros H0 H1 H2 H3.
  fix IH 1. intros [|a [|b [|c l]]];
    [apply H0 | apply H1 | apply H2 | apply H3, IH].
Qed.

Lemma decodeQuanta_cons4 (c1 c2 c3 c4 : byte) (rest : bytes) :
  Byte.eqb c4 pad = false ->
  decodeQuanta (c1 :: c2 :: c3 :: c4 :: rest)
  = (q ← decFull c1 c2 c3 c4; r ← decodeQuanta rest; Some (q ++ r)).
Proof.
  intros Hpad. destruct rest as [|x rest]; [|reflexivity].
  cbn [decodeQuanta]. unfold decLast. rewrite Hpad.
  destruct (decFull c1 c2 c3 c4) as [q|]; [|reflexivity].
  cbn. by rewrite app_nil_r.
Qed.

Lemma decodeQuanta_Encode (src : bytes) :
  decodeQuanta (EncodeToString src) = Some src.
Proof.
  induction src as [|a|a b|a b c l IH] using bytes_ind3.
  - reflexivity.
  - cbn [EncodeToString]. pose proof (decLast_enc1 a) as H.
    destruct (enc1 a) as [|c1 [|c2 [|c3 [|c4 [|]]]]]; try done.
  - cbn [EncodeToString]. pose proof (decLast_enc2 a b) as H.
    destruct (enc2 a b) as [|c1 [|c2 [|c3 [|c4 [|]]]]]; try done.
  - cbn [EncodeToString]. pose proof (decFull_enc3 a b c) as H.
    destruct (enc3 a b c) as [|c1 [|c2 [|c3 [|c4 [|]]]]]; try done.
    destruct H as [Hdec Hpad]. cbn [app].
    rewrite (decodeQuanta_cons4 _ _ _ _ _ Hpad), Hdec, IH. reflexivity.
Qed.

Lemma Forall_not_newline_Encode (src : bytes) :
  Forall (fun c => isNewline c = false) (EncodeToString src).
Proof.
  assert (Hpad : isNewline pad = false) by reflexivity.
  induction src as [|a|a b|a b c l IH] using bytes_ind3; cbn [EncodeToString].
  - constructor.
  - unfold enc1. destruct (Byte.to_bits a) as (a0 & a1 & a2 & a3 & a4 & a5 & a6 & a7).
    repeat constructor; auto using encChar_not_newline.
  - unfold enc2. destruct (Byte.to_bits a) as (a0 & a1 & a2 & a3 & a4 & a5 & a6 & a7).
    destruct (Byte.to_bits b) as (b0 & b1 & b2 & b3 & b4 & b5 & b6 & b7).
    repeat constructor; auto using encChar_not_newline.
  - apply Forall_app. split; [|done]. unfold enc3.
    destruct (Byte.to_bits a) as (a0 & a1 & a2 & a3 & a4 & a5 & a6 & a7).
    destruct (Byte.to_bits b) as (b0 & b1 & b2 & b3 & b4 & b5 & b6 & b7).
    destruct (Byte.to_bits c) as (c0 & c1 & c2 & c3 & c4 & c5 & c6 & c7).
    repeat constructor; auto using encChar_not_newline.
Qed.

Lemma dropNewlines_Encode (src : bytes) :
  dropNewlines (EncodeToString src) = EncodeToString src.
Proof.
  unfold dropNewlines.
  induction (Forall_not_newline_Encode src) as [|c l Hc _ IH]; [done|].
  cbn [List.filter]. by rewrite Hc, IH.
Qed.

(** Decoding what was encoded gives the bytes back. *)
Lemma DecodeString_Encode (src : bytes) :
  DecodeString (EncodeToString src) = Some src.
Proof. unfold DecodeString. by rewrite dropNewlines_Encode, decodeQuanta_Encode. Qed.

End Base64Facts.

Lemma length_enc3 a b c : length (Base64.enc3 a b c) = 4%nat.
Proof.
  unfold Base64.enc3.
  destruct (Byte.to_bits a) as (a0 & a1 & a2 & a3 & a4 & a5 & a6 & a7).
  destruct (Byte.to_bits b) as (b0 & b1 & b2 & b3 & b4 & b5 & b6 & b7).
  by destruct (Byte.to_bits c) as (c0 & c1 & c2 & c3 & c4 & c5 & c6 & c7).
Qed.

Lemma length_enc2 a b : length (Base64.enc2 a b) = 4%nat.
Proof.
  unfold Base64.enc2.
  destruct (Byte.to_bits a) as (a0 & a1 & a2 & a3 & a4 & a5 & a6 & a7).
  by destruct (Byte.to_bits b) as (b0 & b1 & b2 & b3 & b4 & b5 & b6 & b7).
Qed.

Lemma length_enc1 a : length (Base64.enc1 a) = 4%nat.
Proof.
  unfold Base64.enc1.
  by destruct (Byte.to_bits a) as (a0 & a1 & a2 & a3 & a4 & a5 & a6 & a7).
Qed.

(** The buffer [DecodeString] allocates holds what was encoded. *)
Lemma DecodedLen_Encode (src : bytes) :
  (length src <= Base64.DecodedLen (length (Base64.EncodeToString src)))%nat.
Proof.
  unfold Base64.DecodedLen.
  induction src as [|a|a b|a b c l IH] using Base64Facts.bytes_ind3;
    cbn [Base64.EncodeToString].
  - cbn. lia.
  - rewrite length_enc1. cbn. lia.
  - rewrite length_enc2. cbn. lia.
  - rewrite length_app, length_enc3. cbn [length].
    replace (4 + length (Base64.EncodeToString l))%nat
      with (1 * 4 + length (Base64.EncodeToString l))%nat by lia.
    rewrite Nat.div_add_l by lia. lia.
Qed.

Lemma bytes_ind4 (P : bytes -> Prop) :
  P [] -> (forall a, P [a]) -> (forall a b, P [a; b]) -> (forall a b c, P [a; b; c]) ->
  (forall a b c d l, P l -> P (a :: b :: c :: d :: l)) ->
  forall l, P l.
Proof.
  intros H0 H1 H2 H3 H4.
  fix IH 1. intros [|a [|b [|c [|d l]]]];
    [apply H0 | apply H1 | apply H2 | apply H3 | apply H4, IH].
Qed.

Lemma length_dec3 s1 s2 s3 s4 : length (Base64.dec3 s1 s2 s3 s4) = 3%nat.
Proof.
  by destruct s1 as [[[[[? ?] ?] ?] ?] ?], s2 as [[[[[? ?] ?] ?] ?] ?],
    s3 as [[[[[? ?] ?] ?] ?] ?], s4 as [[[[[? ?] ?] ?] ?] ?].
Qed.

Lemma length_decFull c1 c2 c3 c4 q :
  Base64.decFull c1 c2 c3 c4 = Some q -> length q = 3%nat.
Proof.
  unfold Base64.decFull.
  destruct (Base64.decChar c1), (Base64.decChar c2), (Base64.decChar c3),
    (Base64.decChar c4); try done.
  cbn. intros [= <-]. apply length_dec3.
Qed.

Lemma length_decLast c1 c2 c3 c4 q :
  Base64.decLast c1 c2 c3 c4 = Some q -> (length q <= 3)%nat.
Proof.
  unfold Base64.decLast.
  destruct (Byte.eqb c4 Base64.pad); [|intros Hq; by rewrite (length_decFull _ _ _ _ _ Hq)].
  destruct (Byte.eqb c3 Base64.pad).
  - destruct (Base64.decChar c1) as [s1|], (Base64.decChar c2) as [s2|]; try done.
    cbn [mbind option_bind]. destruct s2 as [[[[[? ?] q3] q2] q1] q0].
    destruct (q3 || q2 || q1 || q0); [done|]. intros [= <-].
    rewrite length_take, length_dec3. lia.
  - destruct (Base64.decChar c1) as [s1|], (Base64.decChar c2) as [s2|],
      (Base64.decChar c3) as [s3|]; try done.
    cbn [mbind option_bind]. destruct s3 as [[[[[? ?] ?] ?] r1] r0].
    destruct (r1 || r0); [done|]. intros [= <-].
    rewrite length_take, length_dec3. lia.
Qed.

Lemma decodeQuanta_length (s : bytes) : forall d,
  Base64.decodeQuanta s = Some d -> (length d <= length s / 4 * 3)%nat.
Proof.
  induction s as [| | | |c1 c2 c3 c4 rest IH] using bytes_ind4; intros d Hd;
    try discriminate.
  - injection Hd as <-. cbn. lia.
  - replace (length (c1 :: c2 :: c3 :: c4 :: rest)) with (1 * 4 + length rest)%nat
      by (cbn; lia).
    rewrite Nat.div_add_l by lia.
    destruct rest as [|x rest].
    + cbn [Base64.decodeQuanta] in Hd. apply length_decLast in Hd. cbn. lia.
    + change (Base64.decodeQuanta (c1 :: c2 :: c3 :: c4 :: x :: rest))
        with (q ← Base64.decFull c1 c2 c3 c4;
              r ← Base64.decodeQuanta (x :: rest); Some (q ++ r)) in Hd.
      destruct (Base64.decFull c1 c2 c3 c4) as [q|] eqn:Hq; [|done].
      cbn [mbind option_bind] in Hd.
      destruct (Base64.decodeQuanta (x :: rest)) as [r|] eqn:Hr; [|done].
      injection Hd as <-. rewrite length_app, (length_decFull _ _ _ _ _ Hq).
      specialize (IH r eq_refl). lia.
Qed.

(** [DecodeString] never yields more than the buffer it allocated holds. *)
Lemma DecodeString_length (c d : bytes) :
  Base64.DecodeString c = Some d -> (length d <= Base64.DecodedLen (length c))%nat.
Proof.
  unfold Base64.DecodeString, Base64.DecodedLen. intros Hd%decodeQuanta_length.
  pose proof (List.filter_length_le (fun x => negb (Base64.isNewline x)) c) as Hf.
  assert (length (Base64.dropNewlines c) / 4 <= length c / 4)%nat
    by (apply Nat.Div0.div_le_mono; exact Hf).
  lia.
Qed.

(** ** AES-GCM opens what it sealed *)

Module GCMFacts.
Import GCM.

Lemma roundKey_length (key : list Z) :
  validKeyLen (length key) = true ->
  length (AES.roundKey (AES.keyExpansion key) (length key / 4 + 6)) = 16%nat.
Proof.
  unfold validKeyLen. intros Hlen.
  destruct (Nat.eqb_spec (length key) 16) as [H16|_];
    [|destruct (Nat.eqb_spec (length key) 24) as [H24|_];
      [|destruct (Nat.eqb_spec (length key) 32) as [H32|_]; [|discriminate]]].
  - do 17 (destruct key as [|? key]; try discriminate). reflexivity.
  - do 25 (destruct key as [|? key]; try discriminate). reflexivity.
  - do 33 (destruct key as [|? key]; try discriminate). reflexivity.
Qed.

Lemma encryptBlock_length (key blk : list Z) :
  validKeyLen (length key) = true -> length (AES.encryptBlock key blk) = 16%nat.
Proof.
  intros Hlen. unfold AES.encryptBlock, AES.xorList.
  rewrite length_map, length_combine, (roundKey_length _ Hlen).
  unfold AES.shiftRows. rewrite length_map, length_seq. reflexivity.
Qed.

Lemma flat_map_length16 (f : nat -> list Z) (l : list nat) :
  (forall j, length (f j) = 16%nat) -> length (flat_map f l) = (16 * length l)%nat.
Proof.
  intros Hf. induction l as [|j l IH]; [reflexivity|].
  cbn [flat_map length]. rewrite length_app, IH, Hf. lia.
Qed.

Lemma keystream_length (k n : bytes) (len : nat) :
  validKeyLen (length k) = true ->
  length (keystream k n len) = (16 * ((len + 15) / 16))%nat.
Proof.
  intros Hlen. unfold keystream, ofZs.
  rewrite length_map, flat_map_length16, length_seq; [done|].
  intros j. apply encryptBlock_length. unfold toZs. by rewrite length_map.
Qed.

Lemma xorBytes_length (p ks : bytes) :
  length (xorBytes p ks) = Nat.min (length p) (length ks).
Proof. unfold xorBytes. by rewrite length_map, length_combine. Qed.

Lemma ctr_length (k n p : bytes) :
  validKeyLen (length k) = true -> length (ctr k n p) = length p.
Proof.
  intros Hlen. unfold ctr. rewrite xorBytes_length, (keystream_length _ _ _ Hlen).
  apply Nat.min_l.
  pose proof (Nat.div_mod_eq (length p + 15) 16).
  pose proof (Nat.mod_upper_bound (length p + 15) 16). lia.
Qed.

Lemma byteXor_cancel (a b : byte) : byteXor (byteXor a b) b = a.
Proof.
  unfold byteXor.
  pose proof (Byte.of_bits_to_bits a) as Ha.
  destruct (Byte.to_bits a) as (a0 & a1 & a2 & a3 & a4 & a5 & a6 & a7).
  destruct (Byte.to_bits b) as (b0 & b1 & b2 & b3 & b4 & b5 & b6 & b7).
  rewrite Byte.to_bits_of_bits.
  rewrite !xorb_assoc, !xorb_nilpotent, !xorb_false_r. exact Ha.
Qed.

Lemma xorBytes_cancel (p ks : bytes) :
  (length p <= length ks)%nat -> xorBytes (xorBytes p ks) ks = p.
Proof.
  revert ks. induction p as [|a p IH]; intros [|b ks] Hlen; try done.
  - cbn in Hlen. lia.
  - unfold xorBytes in *. cbn [combine List.map fst snd].
    rewrite byteXor_cancel, IH; [done | cbn in Hlen; lia].
Qed.

Lemma ctr_cancel (k n p : bytes) :
  validKeyLen (length k) = true -> ctr k n (ctr k n p) = p.
Proof.
  intros Hlen. unfold ctr at 1. rewrite (ctr_length _ _ _ Hlen).
  unfold ctr. apply xorBytes_cancel.
  pose proof (ctr_length k n p Hlen) as Hc. unfold ctr in Hc.
  rewrite xorBytes_length in Hc. lia.
Qed.

Lemma tag_length (k n c ad : bytes) : length (tag k n c ad) = 16%nat.
Proof. unfold tag, ofZs, ofInt. by rewrite !length_map, length_seq. Qed.

(** Opening, with the same key, nonce and associated data, what [seal]
    produced gives the plaintext back. *)
Lemma open_seal (k n p ad : bytes) :
  validKeyLen (length k) = true -> open k n (seal k n p ad) ad = Some p.
Proof.
  intros Hlen. unfold open, seal.
  rewrite length_app, tag_length.
  destruct (Nat.ltb_spec (length (ctr k n p) + 16) 16); [lia|].
  replace (length (ctr k n p) + 16 - 16)%nat with (length (ctr k n p)) by lia.
  rewrite take_app_length, drop_app_length.
  rewrite bool_decide_true by done.
  by rewrite ctr_cancel.
Qed.

End GCMFacts.

(** [open] accepts only a ciphertext whose last 16 bytes are the tag of
    the rest under the same key, nonce and associated data. *)
Lemma open_Some_tag (k n c ad p : bytes) :
  GCM.open k n c ad = Some p ->
  (16 <= length c)%nat
  /\ skipn (length c - 16) c = GCM.tag k n (firstn (length c - 16) c) ad
  /\ p = GCM.ctr k n (firstn (length c - 16) c).
Proof.
  unfold GCM.open. destruct (Nat.ltb_spec (length c) 16); [done|].
  destruct (decide (skipn (length c - 16) c
                    = GCM.tag k n (firstn (length c - 16) c) ad)) as [Ht|Ht].
  - rewrite bool_decide_true by done. intros [= <-]. done.
  - by rewrite bool_decide_false.
Qed.

(** A sealed text whose tag bytes were changed is rejected. *)
Lemma open_wrong_tag (k n ct t ad : bytes) :
  length t = 16%nat -> t <> GCM.tag k n ct ad -> GCM.open k n (ct ++ t) ad = None.
Proof.
  intros Hlen Hne. destruct (GCM.open k n (ct ++ t) ad) as [p|] eqn:Hopen; [|done].
  apply open_Some_tag in Hopen as (_ & Htag & _).
  rewrite length_app, Hlen in Htag.
  replace (length ct + 16 - 16)%nat with (length ct) in Htag by lia.
  rewrite take_app_length, drop_app_length in Htag. done.
Qed.

(** ** The gob stream decodes to the record encoded *)

Module GobFacts.
Import Gob.

Lemma fromBE_snoc (l : list Z) (b : Z) : fromBE (l ++ [b]) = fromBE l * 256 + b.
Proof. unfold fromBE. by rewrite fold_left_app. Qed.

Lemma beBytes_spec (fuel : nat) : forall n,
  0 <= n < 256 ^ Z.of_nat fuel ->
  fromBE (beBytes fuel n) = n
  /\ Forall (fun b => 0 <= b < 256) (beBytes fuel n)
  /\ (length (beBytes fuel n) <= fuel)%nat
  /\ (0 < n -> beBytes fuel n <> []).
Proof.
  induction fuel as [|fuel IH]; intros n Hn.
  - cbn in *. repeat split; [lia | constructor | lia | lia].
  - cbn [beBytes]. destruct (Z.eqb_spec n 0) as [->|Hn0].
    + repeat split; [constructor | cbn; lia | lia].
    + assert (Hdiv : 0 <= n / 256 < 256 ^ Z.of_nat fuel).
      { rewrite Nat2Z.inj_succ, Z.pow_succ_r in Hn by lia.
        split; [apply Z.div_pos; lia | apply Z.div_lt_upper_bound; lia]. }
      destruct (IH _ Hdiv) as (Hval & Hall & Hlen & _).
      pose proof (Z.mod_pos_bound n 256 ltac:(lia)).
      repeat split.
      * rewrite fromBE_snoc, Hval. pose proof (Z.div_mod n 256 ltac:(lia)). lia.
      * apply Forall_app. split; [done | by constructor].
      * rewrite length_app. cbn. lia.
      * intros _ Hnil. by destruct (beBytes fuel (n / 256)).
Qed.

Lemma map_to_of_Z (l : list Z) :
  Forall (fun b => 0 <= b < 256) l -> List.map byte_to_Z (List.map byte_of_Z l) = l.
Proof.
  induction 1 as [|b l Hb _ IH]; [done|].
  cbn [List.map]. by rewrite byte_to_of_Z, IH.
Qed.

Lemma decUint_encUint (n : Z) (rest : bytes) :
  0 <= n < 2 ^ 64 -> decUint (encUint n ++ rest) = Some (n, rest).
Proof.
  intros Hn. unfold encUint.
  destruct (Z.ltb_spec n 128) as [Hsmall|Hbig].
  - cbn [app decUint]. rewrite byte_to_of_Z by lia.
    destruct (Z.ltb_spec n 128); [done | lia].
  - destruct (beBytes_spec 8 n ltac:(cbn; lia)) as (Hval & Hall & Hlen & Hne).
    specialize (Hne ltac:(lia)).
    set (bs := beBytes 8 n) in *.
    assert (Hpos : (0 < length bs)%nat) by (destruct bs; [done | cbn; lia]).
    cbn [app decUint]. rewrite byte_to_of_Z by lia.
    destruct (Z.ltb_spec (256 - Z.of_nat (length bs)) 128); [lia|].
    replace (Z.to_nat (256 - (256 - Z.of_nat (length bs)))) with (length bs) by lia.
    destruct (Nat.ltb_spec 8 (length bs)); [lia|].
    rewrite length_app, length_map.
    destruct (Nat.ltb_spec (length bs + length rest) (length bs)); [lia|].
    cbn [orb].
    assert (Hl : length bs = length (List.map byte_of_Z bs)) by by rewrite length_map.
    rewrite Hl, take_app_length, drop_app_length.
    by rewrite (map_to_of_Z _ Hall), Hval.
Qed.

Lemma decString_encString (s rest : bytes) :
  Z.of_nat (length s) < 2 ^ 64 ->
  decString (encString s ++ rest) = Some (s, rest).
Proof.
  intros Hlen. unfold decString, encString.
  rewrite <- app_assoc, decUint_encUint by lia. cbn [mbind option_bind].
  rewrite length_app.
  destruct (Z.ltb_spec (Z.of_nat (length s + length rest)) (Z.of_nat (length s))); [lia|].
  rewrite Nat2Z.id. by rewrite take_app_length, drop_app_length.
Qed.


Lemma length_encUint (n : Z) : 0 <= n < 2 ^ 64 -> (length (encUint n) <= 9)%nat.
Proof.
  intros Hn. unfold encUint. destruct (n <? 128); [cbn; lia|].
  destruct (beBytes_spec 8 n ltac:(cbn; lia)) as (_ & _ & Hlen & _).
  cbn [length]. rewrite length_map. lia.
Qed.

Lemma decFields_encodeFields (a : authDataT) :
  Z.of_nat (length (Username a)) < maxLen ->
  Z.of_nat (length (EncodedPassword a)) < maxLen ->
  decFields 3 (-1) (mkAuthData [] []) (encodeFields a ++ [x00]) = Some (a, []).
Proof.
  destruct a as [u p]. cbn [Username EncodedPassword]. unfold maxLen. intros Hu Hp.
  assert (Hu' : Z.of_nat (length u) < 2 ^ 64) by lia.
  assert (Hp' : Z.of_nat (length p) < 2 ^ 64) by lia.
  unfold encodeFields. cbn [Username EncodedPassword].
  destruct u as [|u0 u], p as [|p0 p].
  - reflexivity.
  - cbn [app decFields]. change (decUint (x02 :: ?r)) with (Some (2, r)).
    cbn [mbind option_bind]. change (2 =? 0) with false. cbv iota.
    rewrite (decString_encString (p0 :: p) [x00] Hp'). reflexivity.
  - cbn [app decFields]. change (decUint (x01 :: ?r)) with (Some (1, r)).
    cbn [mbind option_bind]. change (1 =? 0) with false. cbv iota.
    rewrite (decString_encString (u0 :: u) [x00] Hu'). reflexivity.
  - cbn [app decFields]. change (decUint (x01 :: ?r)) with (Some (1, r)).
    cbn [mbind option_bind]. change (1 =? 0) with false. cbv iota.
    rewrite <- app_assoc.
    rewrite (decString_encString (u0 :: u) _ Hu').
    cbn [mbind option_bind]. change (-1 + 1 =? 0) with true. cbv iota.
    cbn [app decFields]. change (decUint (x01 :: ?r)) with (Some (1, r)).
    cbn [mbind option_bind]. change (1 =? 0) with false. cbv iota.
    rewrite (decString_encString (p0 :: p) [x00] Hp'). reflexivity.
Qed.

Lemma decodeValue_encodeValue (a : authDataT) :
  Z.of_nat (length (Username a)) < maxLen ->
  Z.of_nat (length (EncodedPassword a)) < maxLen ->
  decodeValue (encodeValue a) = Some a.
Proof.
  intros Hu Hp. unfold decodeValue, encodeValue.
  rewrite take_app_length, drop_app_length, bool_decide_true by done.
  by rewrite (decFields_encodeFields a Hu Hp).
Qed.

Lemma length_encodeValue (a : authDataT) :
  Z.of_nat (length (Username a)) < maxLen ->
  Z.of_nat (length (EncodedPassword a)) < maxLen ->
  Z.of_nat (length (encodeValue a)) < 2 ^ 64.
Proof.
  unfold maxLen. intros Hu Hp. unfold encodeValue, encodeFields.
  pose proof (length_encUint (Z.of_nat (length (Username a))) ltac:(lia)).
  pose proof (length_encUint (Z.of_nat (length (EncodedPassword a))) ltac:(lia)).
  destruct (Username a), (EncodedPassword a); unfold encString;
    repeat rewrite ?length_app, ?length_cons; cbn [length] in *;
    change (length (encInt typeId)) with 2%nat; lia.
Qed.

Lemma message_encString (body : bytes) : message body = encString body.
Proof. reflexivity. Qed.

Lemma Decode_stream (a : authDataT) :
  Z.of_nat (length (Username a)) < maxLen ->
  Z.of_nat (length (EncodedPassword a)) < maxLen ->
  Decode (message typeDef ++ message (encodeValue a)) = Val a.
Proof.
  intros Hu Hp. unfold Decode. rewrite !message_encString.
  rewrite decString_encString by (vm_compute; reflexivity).
  cbn [mbind option_bind]. rewrite ?message_encString.
  rewrite <- (app_nil_r (encString (encodeValue a))).
  rewrite decString_encString by by apply length_encodeValue.
  cbn [mbind option_bind]. rewrite !bool_decide_true by done. cbn [andb].
  by rewrite decodeValue_encodeValue.
Qed.

(** [Decode] reads back what [Encode] wrote. *)
Lemma Decode_Encode : GobRoundTrip.
Proof.
  intros a bs. cbn [gobEncode gobDecode gobWire]. unfold Encode.
  destruct (Z.ltb_spec (Z.of_nat (length (Username a))) maxLen) as [Hu|]; [|done].
  destruct (Z.ltb_spec (Z.of_nat (length (EncodedPassword a))) maxLen) as [Hp|]; [|done].
  cbn [andb]. intros Hbs.
  rewrite <- (Decode_stream a Hu Hp). f_equal. congruence.
Qed.

End GobFacts.

(** ** Pigeonhole *)

Section Pigeonhole.
Context {A B : Type} `{EqDecision B} (f : A -> B).

End Pigeonhole.









(** ** Running monadic code *)

Lemma bind_run {A B} (m : M A) (f : A -> M B) (w : world) :
  (m ≫= f) w = match m w with
               | (Ok a, w') => f a w'
               | (Panicked p, w') => (Panicked p, w')
               end.
Proof. reflexivity. Qed.

Lemma emit_run (e : event) (w : world) : emit e w = (Ok tt, addEvents w [e]).
Proof. reflexivity. Qed.

Lemma addEvents_nil (w : world) : addEvents w [] = w.
Proof. destruct w; unfold addEvents; simpl. by rewrite app_nil_r. Qed.

Lemma addEvents_app (w : world) (es es' : list event) :
  addEvents (addEvents w es) es' = addEvents w (es ++ es').
Proof. unfold addEvents; simpl. by rewrite app_assoc. Qed.

Lemma postCount_app (es es' : list event) :
  postCount (es ++ es') = (postCount es + postCount es')%nat.
Proof. unfold postCount. by rewrite List.filter_app, length_app. Qed.

Lemma getCount_app (es es' : list event) :
  getCount (es ++ es') = (getCount es + getCount es')%nat.
Proof. unfold getCount. by rewrite List.filter_app, length_app. Qed.

Lemma sleepsOf_app (es es' : list event) :
  sleepsOf (es ++ es') = sleepsOf es ++ sleepsOf es'.
Proof. unfold sleepsOf. apply omap_app. Qed.

Lemma added_addEvents (w : world) (es : list event) : added w (addEvents w es) = es.
Proof. unfold added, addEvents; simpl. by rewrite drop_app_length. Qed.

(** ** Frame rules *)

Section Keeps.
Context (R : world -> world -> Prop) `{!Reflexive R} `{!Transitive R}.

Lemma keeps_ret {A} (a : A) : keeps R (mret a).
Proof. intros w. cbn. reflexivity. Qed.

Lemma keeps_panic {A} (p : panic) : keeps R (@doPanic A p).
Proof. intros w. cbn. reflexivity. Qed.

Lemma keeps_getWorld : keeps R getWorld.
Proof. intros w. cbn. reflexivity. Qed.

Lemma keeps_bind {A B} (m : M A) (f : A -> M B) :
  keeps R m -> (forall a, keeps R (f a)) -> keeps R (m ≫= f).
Proof.
  intros Hm Hf w. rewrite bind_run. specialize (Hm w).
  destruct (m w) as [[a|p] w1]; cbn in *; [|done].
  etransitivity; [exact Hm | apply Hf].
Qed.
End Keeps.

#[local] Instance sameSession_refl : Reflexive sameSession.
Proof. by intros w. Qed.
#[local] Instance sameSession_trans : Transitive sameSession.
Proof. unfold sameSession. intros w1 w2 w3 H12 H23. congruence. Qed.

Ltac keeps_step prim :=
  first
    [ apply keeps_bind; [typeclasses eauto | | intros ?]
    | apply keeps_ret; typeclasses eauto
    | apply keeps_panic; typeclasses eauto
    | apply keeps_getWorld; typeclasses eauto
    | prim
    | match goal with
      | |- keeps _ (match ?x with _ => _ end) => destruct x
      | |- keeps _ (let '(_, _) := ?x in _) => destruct x
      end ].

Ltac session_prim :=
  idtac;
  match goal with
  | |- keeps sameSession (emit _) => by intros ?
  | |- keeps sameSession (setFs _) => by intros ?
  | |- keeps sameSession (setEntropy _) => by intros ?
  | |- keeps sameSession (setKeyBufs _) => by intros ?
  | |- keeps sameSession (log_Panic _) => by intros ?
  | |- keeps sameSession (orPanic ?r) => by destruct r; intros ?
  end.

Ltac keeps_session := repeat keeps_step session_prim.

Lemma getKey_session kf : keeps sameSession (getKey kf).
Proof. unfold getKey, os_Stat, os_ReadFile. keeps_session. Qed.

Lemma shred_session key : keeps sameSession (shred key).
Proof. unfold shred. keeps_session. Qed.

Section StoreSession.
Context `{GobCodec}.

Lemma writeCreds_session kf af ad : keeps sameSession (writeCreds kf af ad).
Proof.
  unfold writeCreds, aes_NewCipher, cipher_NewGCM, makeNonce, rand_Read,
    gob_Encode, Seal, os_WriteFile.
  pose proof (getKey_session kf). pose proof shred_session.
  keeps_session; auto.
Qed.

Lemma readCreds_session kf af : keeps sameSession (readCreds kf af).
Proof.
  unfold readCreds, aes_NewCipher, cipher_NewGCM, os_ReadFile, sliceTo, sliceFrom,
    Open, gob_Decode.
  pose proof (getKey_session kf). pose proof shred_session.
  keeps_session; auto.
Qed.
End StoreSession.

(** ** The login loop *)

Lemma httpClient_Post_run (url body : bytes) (w : world) :
  httpClient_Post url body w
  = (Ok (postReplies w (postCount (events w))), addEvents w [EvPost url body]).
Proof. reflexivity. Qed.

Lemma retryingGet_run (url : bytes) (w : world) :
  retryingGet url w
  = (Ok (getReplies w (getCount (events w))), addEvents w [EvGet url]).
Proof. reflexivity. Qed.

(** The loop is total and every run of it is a [loopRun] derivation. *)
Lemma loginLoop_loopRun (n : nat) (ad : authDataT) :
  forall (cur : reply) (w : world),
  exists es res,
    loginLoop n ad cur w = (res, addEvents w es)
    /\ loopRun (postReplies w) ad n (postCount (events w)) cur es res.
Proof.
  induction n as [|n IH]; intros cur w.
  - exists [], (Ok cur). rewrite addEvents_nil. split; [done | constructor].
  - cbn [loginLoop]. rewrite bind_run, httpClient_Post_run.
    destruct (postReplies w (postCount (events w))) as [[r|] e] eqn:Hr.
    + rewrite bind_run. cbn [statusCode fst]. cbn [mret M_ret].
      destruct (StatusCode r <? 500) eqn:Hsc.
      * eexists _, _. split; [reflexivity|].
        apply run_resolved; [done | lia].
      * rewrite bind_run. unfold time_Sleep. rewrite emit_run, addEvents_app.
        destruct (IH (Some r, e) (addEvents w ([EvPost loginURL (loginBody ad)]
                    ++ [EvSleep ((6 - Z.of_nat n) * 5)]))) as (es & res & Hrun & Hder).
        eexists _, res. rewrite Hrun, addEvents_app. split; [reflexivity|].
        cbn [app]. eapply run_retry; [exact Hr | lia |].
        cbn [addEvents postReplies events] in Hder.
        rewrite postCount_app in Hder. cbn in Hder.
        by replace (S (postCount (events w))) with (postCount (events w) + 1)%nat by lia.
    + rewrite bind_run. cbn [statusCode fst].
      eexists _, _. split; [reflexivity|]. by eapply run_no_response.
Qed.

Lemma postCount_cons (e : event) (es : list event) :
  postCount (e :: es) = ((if isPost e then 1 else 0) + postCount es)%nat.
Proof. unfold postCount. cbn. by destruct (isPost e). Qed.

Lemma loopRun_no_get rs ad n i cur es res :
  loopRun rs ad n i cur es res -> getCount es = 0%nat.
Proof. induction 1; cbn; auto. Qed.

(** What a run looks like: [k] answers of status 500 or more, each followed
    by its sleep, and then either the budget is used up, or one more POST is
    answered without a response or with a status below 500. *)
Lemma loopRun_shape rs ad n i cur es res :
  loopRun rs ad n i cur es res ->
  exists k : nat,
    (k <= n)%nat
    /\ es = retryEvents ad (firstn k (delays n))
            ++ (if (k <? n)%nat then [EvPost loginURL (loginBody ad)] else [])
    /\ sleepsOf es = firstn k (delays n)
    /\ (forall j, (j < k)%nat ->
          exists r e, rs (i + j)%nat = (Some r, e) /\ 500 <= StatusCode r)
    /\ ((k = n /\ postCount es = n
         /\ res = Ok (match k with O => cur | S k' => rs (i + k')%nat end))
        \/ ((k < n)%nat /\ postCount es = S k
            /\ ((exists e, rs (i + k)%nat = (None, e) /\ res = Panicked nilDeref)
                \/ (exists r e, rs (i + k)%nat = (Some r, e)
                      /\ StatusCode r < 500 /\ res = Ok (Some r, e))))).
Proof.
  induction 1 as [i cur | n i cur e Hr | n i cur r e Hr Hsc
                 | n i cur r e es res Hr Hsc Hrun IH].
  - exists 0%nat. repeat split; [lia | intros; lia | left; done].
  - exists 0%nat. rewrite Nat.add_0_r. repeat split; [lia | intros; lia |].
    right. repeat split; [lia | left; eauto].
  - exists 0%nat. rewrite Nat.add_0_r. repeat split; [lia | intros; lia |].
    right. repeat split; [lia | right; eauto].
  - destruct IH as (k & Hk & Hes & Hsl & Hall & Hend).
    exists (S k). split; [lia|].
    split.
    { cbn [delays firstn retryEvents flat_map app]. fold (retryEvents ad).
      rewrite Hes at 1. by do 3 f_equal. }
    split; [cbn; by rewrite <- Hsl|].
    split.
    + intros [|j] Hj.
      * rewrite Nat.add_0_r. eauto.
      * replace (i + S j)%nat with (S i + j)%nat by lia. apply Hall. lia.
    + destruct Hend as [(-> & Hpc & ->) | (Hlt & Hpc & Hlast)].
      * left. rewrite !postCount_cons. cbn [isPost].
        split; [done|]. split; [lia|].
        destruct n as [|n']; [by rewrite Nat.add_0_r, Hr|].
        f_equal. f_equal. lia.
      * right. replace (i + S k)%nat with (S i + k)%nat by lia.
        rewrite !postCount_cons. cbn [isPost].
        split; [lia|]. split; [lia | done].
Qed.

(** ** The session flag *)

Lemma getWorld_run (w : world) : getWorld w = (Ok w, w).
Proof. reflexivity. Qed.

(** [auth] from an unauthenticated session with a secret: the run of the
    login loop decides how it goes on. *)
Lemma auth_unfold (ad : authDataT) (w : world) :
  isAuthed (session w) = false -> EncodedPassword ad <> [] ->
  auth ad w =
    match loginLoop 5 ad (None, None) w with
    | (Panicked p, w1) => (Panicked p, w1)
    | (Ok (_, Some e), w1) => (Panicked (LogPanic e), w1)
    | (Ok (None, None), w1) => (Panicked nilDeref, w1)
    | (Ok (Some lr, None), w1) =>
        if negb (StatusCode lr =? 200) then
          (Ok (Some (ErrorString "unexpected auth failure, try debug")), w1)
        else
          match getReplies w1 (getCount (events w1)) with
          | (_, Some e) => (Panicked (LogPanic e), addEvents w1 [EvGet testUrl])
          | (None, None) => (Panicked nilDeref, addEvents w1 [EvGet testUrl])
          | (Some gr, None) =>
              if negb (StatusCode gr =? 200) then
                if StatusCode gr =? 401 then
                  (Ok (Some (ErrorString "login failed, check creds")),
                   addEvents w1 [EvGet testUrl])
                else
                  (Ok (Some (ErrorString "unexpected auth failure, try debug")),
                   addEvents w1 [EvGet testUrl])
              else
                (Ok None,
                 snd (setSession (mkIrdata true) (addEvents w1 [EvGet testUrl])))
          end
    end.
Proof.
  intros Hflag Hpw. unfold auth. rewrite bind_run, getWorld_run, Hflag.
  rewrite bool_decide_false by done.
  rewrite bind_run.
  destruct (loginLoop 5 ad (None, None) w) as [[[resp err]|p] w1]; [|done].
  destruct resp as [lr|], err as [e|]; try done.
  rewrite bind_run. cbn [statusCode mret M_ret].
  destruct (negb (StatusCode lr =? 200)); [done|].
  rewrite bind_run, retryingGet_run.
  destruct (getReplies w1 (getCount (events w1))) as [[gr|] [e|]]; try done.
  rewrite bind_run. cbn [statusCode mret M_ret].
  destruct (negb (StatusCode gr =? 200)); [|done].
  by destruct (StatusCode gr =? 401).
Qed.

(** Every way a call of [auth] with a secret, on an unauthenticated
    session, can go. *)
Lemma auth_run (ad : authDataT) (w : world) :
  isAuthed (session w) = false -> EncodedPassword ad <> [] ->
  let i := postCount (events w) in
  let g := getReplies w (getCount (events w)) in
  exists k es, loginPhase ad w k es /\
    ( (* the budget is used up *)
      (k = 5%nat /\ exists r e, postReplies w (i + 4) = (Some r, e)
         /\ auth ad w = (match e with
                         | Some e' => Panicked (LogPanic e')
                         | None => Ok (Some errUnexpected)
                         end, addEvents w es))
      (* no response to the last POST *)
      \/ ((k < 5)%nat /\ exists e, postReplies w (i + k) = (None, e)
            /\ auth ad w = (Panicked nilDeref, addEvents w es))
      (* a response below 500 that comes with an error *)
      \/ ((k < 5)%nat /\ exists r e, postReplies w (i + k) = (Some r, Some e)
            /\ StatusCode r < 500
            /\ auth ad w = (Panicked (LogPanic e), addEvents w es))
      (* a response below 500 other than 200 *)
      \/ ((k < 5)%nat /\ exists r, postReplies w (i + k) = (Some r, None)
            /\ StatusCode r < 500 /\ StatusCode r <> 200
            /\ auth ad w = (Ok (Some errUnexpected), addEvents w es))
      (* login answered 200: the verification decides *)
      \/ ((k < 5)%nat /\ exists r, postReplies w (i + k) = (Some r, None)
            /\ StatusCode r = 200
            /\ ( (exists gr e, g = (gr, Some e)
                    /\ auth ad w = (Panicked (LogPanic e),
                                    addEvents w (es ++ [EvGet testUrl])))
                 \/ (g = (None, None)
                     /\ auth ad w = (Panicked nilDeref,
                                     addEvents w (es ++ [EvGet testUrl])))
                 \/ (exists gr, g = (Some gr, None) /\ StatusCode gr <> 200
                     /\ auth ad w = (Ok (Some (if StatusCode gr =? 401
                                               then errCheckCreds else errUnexpected)),
                                     addEvents w (es ++ [EvGet testUrl])))
                 \/ (exists gr, g = (Some gr, None) /\ StatusCode gr = 200
                     /\ auth ad w = (Ok None, loggedIn w (es ++ [EvGet testUrl]))))) ).
Proof.
  intros Hflag Hpw i g.
  destruct (loginLoop_loopRun 5 ad (None, None) w) as (es & res & Hloop & Hder).
  pose proof (loopRun_no_get _ _ _ _ _ _ _ Hder) as Hget.
  destruct (loopRun_shape _ _ _ _ _ _ _ Hder) as (k & Hk & Hes & _ & Hall & Hend).
  exists k, es. split; [done|].
  rewrite (auth_unfold ad w Hflag Hpw), Hloop.
  cbn [addEvents getReplies events]. rewrite getCount_app, Hget, Nat.add_0_r.
  fold g. fold i in Hend.
  destruct Hend as [(-> & _ & ->) | (Hlt & _ & [(e & Hr & ->) | (r & e & Hr & Hsc & ->)])].
  - left. split; [done|].
    destruct (Hall 4%nat ltac:(lia)) as (r & e & Hr & Hsc).
    exists r, e. split; [done|]. fold i in Hr. rewrite Hr.
    destruct e as [e|]; [done|].
    destruct (Z.eqb_spec (StatusCode r) 200); [lia | done].
  - right. left. eauto.
  - destruct e as [e|].
    + right. right. left. split; [done|]. eauto 6.
    + destruct (Z.eqb_spec (StatusCode r) 200) as [H200|H200]; cbn [negb].
      * do 4 right. split; [done|]. exists r. do 2 (split; [done|]).
        rewrite addEvents_app.
        destruct g as [[gr|] [ge|]].
        -- left. eauto.
        -- destruct (Z.eqb_spec (StatusCode gr) 200) as [G200|G200]; cbn [negb].
           ++ do 3 right. exists gr. by repeat split.
           ++ right. right. left. exists gr. repeat split; [done|].
              by destruct (StatusCode gr =? 401).
        -- left. eauto.
        -- right. left. done.
      * do 3 right. left. split; [done|]. exists r. by repeat split.
Qed.

Lemma postCount_retryEvents ad ds : postCount (retryEvents ad ds) = length ds.
Proof.
  induction ds as [|d ds IH]; [done|].
  cbn [retryEvents flat_map app]. fold (retryEvents ad ds).
  rewrite !postCount_cons. cbn [isPost length]. lia.
Qed.

Lemma sleepsOf_retryEvents ad ds : sleepsOf (retryEvents ad ds) = ds.
Proof.
  induction ds as [|d ds IH]; [done|].
  cbn [retryEvents flat_map app]. fold (retryEvents ad ds).
  cbn. fold (sleepsOf (retryEvents ad ds)). by rewrite IH.
Qed.

Lemma getCount_retryEvents ad ds : getCount (retryEvents ad ds) = 0%nat.
Proof. induction ds as [|d ds IH]; [done|]. exact IH. Qed.

Lemma length_delays n : length (delays n) = n.
Proof. induction n; cbn; auto. Qed.

Lemma delays_5 : delays 5 = [10; 15; 20; 25; 30].
Proof. reflexivity. Qed.

(** Counts over the events of a login phase. *)
Lemma loginPhase_counts ad w k es :
  loginPhase ad w k es ->
  postCount es = (if (k <? 5)%nat then S k else k)
  /\ sleepsOf es = firstn k (delays 5)
  /\ getCount es = 0%nat.
Proof.
  intros (Hk & -> & _).
  rewrite postCount_app, sleepsOf_app, getCount_app.
  rewrite postCount_retryEvents, sleepsOf_retryEvents, getCount_retryEvents.
  rewrite length_take, length_delays, Nat.min_l by lia.
  destruct (k <? 5)%nat; cbn; repeat split; try lia; by rewrite app_nil_r.
Qed.

Lemma added_loggedIn w es : added w (loggedIn w es) = es.
Proof. unfold added, loggedIn; simpl. by rewrite drop_app_length. Qed.

Lemma auth_authed (ad : authDataT) (w : world) :
  isAuthed (session w) = true -> auth ad w = (Ok None, w).
Proof. intros Hflag. unfold auth. by rewrite bind_run, getWorld_run, Hflag. Qed.

Lemma auth_no_creds (ad : authDataT) (w : world) :
  isAuthed (session w) = false -> EncodedPassword ad = [] ->
  auth ad w = (Ok (Some errNoCreds), w).
Proof.
  intros Hflag Hpw. unfold auth. rewrite bind_run, getWorld_run, Hflag.
  by rewrite bool_decide_true.
Qed.

(** Splits a run [Hrun : auth ad w = (r, w')] into the cases of [auth_run]. *)
Ltac auth_cases Hrun Hflag Hpw :=
  let X := fresh "X" in
  pose proof (auth_run _ _ Hflag Hpw) as X; cbv zeta in X;
  destruct X as (k & es & Hphase &
    [(Hk & lr & le & Hlr & Ha)
    |[(Hk & le & Hlr & Ha)
    |[(Hk & lr & le & Hlr & Hsc & Ha)
    |[(Hk & lr & Hlr & Hsc & Hne & Ha)
    |(Hk & lr & Hlr & Hsc &
       [(gr & ge & Hg & Ha)
       |[(Hg & Ha)
       |[(gr & Hg & Hgs & Ha)
       |(gr & Hg & Hgs & Ha)]]])]]]]);
  rewrite Ha in Hrun; injection Hrun as <- <-; clear Ha.

(** The flag after [auth] is true exactly when [auth] reports success. *)
Lemma auth_flag_iff (ad : authDataT) (w : world) r w' :
  auth ad w = (r, w') -> isAuthed (session w) = false ->
  (isAuthed (session w') = true <-> r = Ok None).
Proof.
  intros Hrun Hflag.
  destruct (decide (EncodedPassword ad = [])) as [Hpw|Hpw].
  { rewrite (auth_no_creds _ _ Hflag Hpw) in Hrun. injection Hrun as <- <-.
    rewrite Hflag. split; discriminate. }
  auth_cases Hrun Hflag Hpw; cbn [session addEvents loggedIn isAuthed];
    try rewrite Hflag; try (split; discriminate); try done.
  destruct le; split; discriminate.
Qed.

(** No run of [auth] clears the flag. *)
Lemma auth_flag_mono (ad : authDataT) (w : world) r w' :
  auth ad w = (r, w') -> isAuthed (session w) = true -> isAuthed (session w') = true.
Proof.
  intros Hrun Hflag. rewrite (auth_authed _ _ Hflag) in Hrun. by injection Hrun as <- <-.
Qed.

(** A run that sets the flag saw status 200 from its last login POST and
    from the one verification GET. *)
Lemma auth_success_replies (ad : authDataT) (w : world) w' :
  auth ad w = (Ok None, w') -> isAuthed (session w) = false ->
  exists (k : nat) lr gr,
    (k < 5)%nat
    /\ postCount (added w w') = S k
    /\ postReplies w (postCount (events w) + k) = (Some lr, None)
    /\ StatusCode lr = 200
    /\ getCount (added w w') = 1%nat
    /\ getReplies w (getCount (events w)) = (Some gr, None)
    /\ StatusCode gr = 200.
Proof.
  intros Hrun Hflag.
  destruct (decide (EncodedPassword ad = [])) as [Hpw|Hpw].
  { by rewrite (auth_no_creds _ _ Hflag Hpw) in Hrun. }
  remember (Ok None) as r eqn:Hr.
  auth_cases Hrun Hflag Hpw; try discriminate; try (by destruct le).
  destruct (loginPhase_counts _ _ _ _ Hphase) as (Hpc & _ & Hgc).
  exists k, lr, gr. rewrite added_loggedIn, postCount_app, getCount_app, Hpc, Hgc.
  apply Nat.ltb_lt in Hk as Hk'. rewrite Hk'. cbn. repeat split; (done || lia).
Qed.

Example auth_503_503_503_200 :
  let w := withReplies (replyList [okReply 503; okReply 503; okReply 503] (okReply 200))
                       (fun _ => okReply 200) world0 in
  let '(r, w') := auth creds0 w in
  r = Ok None /\ isAuthed (session w') = true
  /\ sleepsOf (events w') = [10; 15; 20] /\ postCount (events w') = 4%nat
  /\ getCount (events w') = 1%nat.
Proof. vm_compute. repeat split. Qed.

(** ** Claims on the session *)

(** C9. [auth] is idempotent after success: on an authenticated session it
    returns nil at once and leaves the world as it was, so it records no
    POST and no GET; and a call that follows a successful one is such a
    call. *)
Theorem auth_idempotent (ad ad' : authDataT) (w : world) :
  (isAuthed (session w) = true ->
     auth ad w = (Ok None, w)
     /\ List.filter isNetwork (added w (snd (auth ad w))) = [])
  /\ (forall w1, isAuthed (session w) = false -> auth ad w = (Ok None, w1) ->
        auth ad' w1 = (Ok None, w1)).
Proof.
  split.
  - intros Hflag. rewrite (auth_authed _ _ Hflag). split; [done|].
    unfold added. cbn [snd]. by rewrite drop_all.
  - intros w1 Hflag Hrun. apply auth_authed.
    by apply (auth_flag_iff _ _ _ _ Hrun Hflag).
Qed.

Lemma auth_idempotent_witness :
  isAuthed (session (loggedIn world0 [])) = true
  /\ auth creds0 (loggedIn world0 []) = (Ok None, loggedIn world0 [])
  /\ auth creds0 (snd (auth creds0 world0)) = (Ok None, snd (auth creds0 world0)).
Proof.
  split; [reflexivity|].
  destruct (auth_idempotent creds0 creds0 (loggedIn world0 [])) as [H1 _].
  destruct (auth_idempotent creds0 creds0 world0) as [_ H2].
  split.
  - apply H1. reflexivity.
  - apply H2; reflexivity.
Defined.

(** C5. When a login POST comes back without a response, [auth] panics on
    the spot: that POST is the last event of the call, so no sleep and no
    further attempt follows it. *)
Theorem transport_failure_aborts (ad : authDataT) (w : world) r w' (j : nat) :
  auth ad w = (r, w') ->
  isAuthed (session w) = false -> EncodedPassword ad <> [] ->
  (j < postCount (added w w'))%nat ->
  fst (postReplies w (postCount (events w) + j)) = None ->
  r = Panicked nilDeref
  /\ exists es, added w w' = es ++ [thePost ad]
                /\ postCount es = j
                /\ sleepsOf es = firstn j (delays 5).
Proof.
  intros Hrun Hflag Hpw Hj Hnil.
  assert (Hsome : forall k es, loginPhase ad w k es -> (j < k)%nat -> False).
  { intros k es (_ & _ & Hall) Hjk. destruct (Hall j Hjk) as (r0 & e0 & Hr0 & _).
    by rewrite Hr0 in Hnil. }
  auth_cases Hrun Hflag Hpw;
    destruct (loginPhase_counts _ _ _ _ Hphase) as (Hpc & Hsl & Hgc);
    rewrite ?added_addEvents, ?added_loggedIn, ?postCount_app, ?Hpc in Hj;
    try (apply Nat.ltb_lt in Hk as Hk'; rewrite Hk' in Hj, Hpc);
    try subst k; cbn in Hj;
    try (exfalso; apply (Hsome _ _ Hphase); lia);
    (assert (j = k) as -> by
        (destruct (decide (j < k)%nat); [exfalso; eapply Hsome; eauto | lia]));
    try (rewrite Hlr in Hnil; discriminate).
  split; [done|]. rewrite added_addEvents.
  destruct Hphase as (_ & -> & _). rewrite Hk'.
  eexists. split; [reflexivity|].
  rewrite postCount_retryEvents, sleepsOf_retryEvents, length_take, length_delays.
  split; [lia | done].
Qed.

Lemma transport_failure_aborts_witness :
  auth creds0 worldNoPeer
  = (Panicked nilDeref, addEvents worldNoPeer [thePost creds0])
  /\ exists es, added worldNoPeer (snd (auth creds0 worldNoPeer)) = es ++ [thePost creds0]
                /\ postCount es = 0%nat /\ sleepsOf es = [].
Proof.
  split; [reflexivity|].
  refine (proj2 (transport_failure_aborts creds0 worldNoPeer _ _ 0 eq_refl _ _ _ _)).
  - reflexivity.
  - discriminate.
  - vm_compute. lia.
  - reflexivity.
Defined.

(** C4, as the code has it. A call of [auth] that reaches the login loop
    makes at most 5 POSTs; it goes on to another attempt only after a
    response of status 500 or more, sleeping [(6 - retries) * 5] seconds
    with [retries] already decremented, so the sleeps are the first [k] of
    10, 15, 20, 25, 30 seconds, one after each such response, the fifth
    included; a response below 500, or none, ends the loop. *)
Theorem login_retry_policy (ad : authDataT) (w : world) r w' :
  auth ad w = (r, w') ->
  isAuthed (session w) = false -> EncodedPassword ad <> [] ->
  exists (k : nat) (tail : list event),
    (k <= 5)%nat
    /\ added w w' = retryEvents ad (firstn k [10; 15; 20; 25; 30])
                    ++ (if (k <? 5)%nat then [thePost ad] else []) ++ tail
    /\ (tail = [] \/ tail = [EvGet testUrl])
    /\ (postCount (added w w') <= 5)%nat
    /\ sleepsOf (added w w') = firstn k [10; 15; 20; 25; 30]
    /\ (forall j, (j < k)%nat ->
          exists lr e, postReplies w (postCount (events w) + j) = (Some lr, e)
                       /\ 500 <= StatusCode lr)
    /\ ((k < 5)%nat ->
          match fst (postReplies w (postCount (events w) + k)) with
          | Some lr => StatusCode lr < 500
          | None => True
          end).
Proof.
  intros Hrun Hflag Hpw. rewrite <- delays_5.
  assert (Hgen : forall k es tail,
    loginPhase ad w k es -> (tail = [] \/ tail = [EvGet testUrl]) ->
    w' = addEvents w (es ++ tail) \/ w' = loggedIn w (es ++ tail) ->
    ((k < 5)%nat -> match fst (postReplies w (postCount (events w) + k)) with
                    | Some lr => StatusCode lr < 500
                    | None => True
                    end) ->
    exists (k : nat) (tail : list event),
      (k <= 5)%nat
      /\ added w w' = retryEvents ad (firstn k (delays 5))
                      ++ (if (k <? 5)%nat then [thePost ad] else []) ++ tail
      /\ (tail = [] \/ tail = [EvGet testUrl])
      /\ (postCount (added w w') <= 5)%nat
      /\ sleepsOf (added w w') = firstn k (delays 5)
      /\ (forall j, (j < k)%nat ->
            exists lr e, postReplies w (postCount (events w) + j) = (Some lr, e)
                         /\ 500 <= StatusCode lr)
      /\ ((k < 5)%nat ->
            match fst (postReplies w (postCount (events w) + k)) with
            | Some lr => StatusCode lr < 500
            | None => True
            end)).
  { intros k es tail Hphase Htail Hw' Hlast.
    destruct (loginPhase_counts _ _ _ _ Hphase) as (Hpc & Hsl & Hgc).
    assert (Hadded : added w w' = es ++ tail).
    { destruct Hw' as [-> | ->]; [apply added_addEvents | apply added_loggedIn]. }
    exists k, tail. destruct Hphase as (Hk & Hes & Hall).
    rewrite Hadded, postCount_app, sleepsOf_app, Hpc, Hsl.
    split; [done|]. split; [by rewrite Hes, <- app_assoc|]. split; [done|].
    split; [|split; [|done]].
    - destruct (Nat.ltb_spec k 5), Htail as [-> | ->]; cbn; lia.
    - destruct Htail as [-> | ->]; cbn; by rewrite app_nil_r. }
  auth_cases Hrun Hflag Hpw.
  - apply (Hgen k es []); [done | by left | left; by rewrite app_nil_r | lia].
  - apply (Hgen k es []); [done | by left | left; by rewrite app_nil_r |].
    intros _. by rewrite Hlr.
  - apply (Hgen k es []); [done | by left | left; by rewrite app_nil_r |].
    intros _. by rewrite Hlr.
  - apply (Hgen k es []); [done | by left | left; by rewrite app_nil_r |].
    intros _. by rewrite Hlr.
  - apply (Hgen k es [EvGet testUrl]); [done | by right | by left |].
    intros _. rewrite Hlr. cbn. lia.
  - apply (Hgen k es [EvGet testUrl]); [done | by right | by left |].
    intros _. rewrite Hlr. cbn. lia.
  - apply (Hgen k es [EvGet testUrl]); [done | by right | by left |].
    intros _. rewrite Hlr. cbn. lia.
  - apply (Hgen k es [EvGet testUrl]); [done | by right | by right |].
    intros _. rewrite Hlr. cbn. lia.
Qed.

Lemma login_retry_policy_witness :
  sleepsOf (added worldAll503 (snd (auth creds0 worldAll503))) = [10; 15; 20; 25; 30]
  /\ exists (k : nat) (tail : list event),
       (k <= 5)%nat
       /\ added worldOne503 (snd (auth creds0 worldOne503))
          = retryEvents creds0 (firstn k [10; 15; 20; 25; 30])
            ++ (if (k <? 5)%nat then [thePost creds0] else []) ++ tail.
Proof.
  split; [reflexivity|].
  destruct (login_retry_policy creds0 worldOne503 _ _ eq_refl) as (k & tail & Hk & Hev & _).
  - reflexivity.
  - discriminate.
  - exists k, tail. split; [exact Hk | exact Hev].
Defined.

(** C4 as stated fails: the sleeps are not taken from 5, 10, 15, 20, 25.
    After one 503 the code sleeps 10 seconds. *)
Lemma login_delays_counterexample :
  ~ (forall (ad : authDataT) (w : world) r w',
       auth ad w = (r, w') ->
       isAuthed (session w) = false -> EncodedPassword ad <> [] ->
       exists k : nat, sleepsOf (added w w') = firstn k [5; 10; 15; 20; 25]).
Proof.
  intros Hclaim.
  destruct (Hclaim creds0 worldOne503 _ _ eq_refl eq_refl) as (k & Hk); [discriminate|].
  vm_compute in Hk.
  destruct k as [|[|k]]; discriminate.
Qed.

(** ** The flag across the whole of auth.go *)

Section FlagClaim.
Context `{Unicode} `{GobCodec}.

Lemma AuthWithCredsFromFile_mono kf af w :
  isAuthed (session w) = true ->
  isAuthed (session (snd (AuthWithCredsFromFile kf af w))) = true.
Proof.
  intros Hflag. unfold AuthWithCredsFromFile. rewrite bind_run.
  pose proof (readCreds_session kf af w) as Hs. unfold sameSession in Hs.
  destruct (readCreds kf af w) as [[ad|p] w1]; cbn [snd] in *.
  - rewrite auth_authed by by rewrite Hs. cbn [snd]. by rewrite Hs.
  - by rewrite Hs.
Qed.

Lemma AuthWithProvideCreds_mono src w :
  isAuthed (session w) = true ->
  isAuthed (session (snd (AuthWithProvideCreds src w))) = true.
Proof.
  intros Hflag. unfold AuthWithProvideCreds. destruct (GetCreds src) as [u p].
  by rewrite auth_authed.
Qed.

(** C1. The flag starts false. [auth] sets it exactly when it returns nil
    from an unauthenticated session, which takes a login POST and the
    verification GET both answered 200; on every other path, the empty
    secret among them, it stays false. No function of auth.go clears it:
    [auth] and the two [AuthWith...] entry points keep a set flag, and the
    store functions leave the session alone. *)
Theorem authenticated_flag :
  isAuthed zeroIrdata = false
  /\ (forall ad w r w', auth ad w = (r, w') ->
        (isAuthed (session w) = true -> isAuthed (session w') = true)
        /\ (isAuthed (session w) = false ->
              (isAuthed (session w') = true <-> r = Ok None)
              /\ (EncodedPassword ad = [] ->
                    r = Ok (Some errNoCreds) /\ isAuthed (session w') = false)
              /\ (isAuthed (session w') = true ->
                    exists (k : nat) lr gr,
                      (k < 5)%nat
                      /\ postCount (added w w') = S k
                      /\ postReplies w (postCount (events w) + k) = (Some lr, None)
                      /\ StatusCode lr = 200
                      /\ getCount (added w w') = 1%nat
                      /\ getReplies w (getCount (events w)) = (Some gr, None)
                      /\ StatusCode gr = 200)))
  /\ (forall kf af ad w, session (snd (writeCreds kf af ad w)) = session w)
  /\ (forall kf af w, session (snd (readCreds kf af w)) = session w)
  /\ (forall kf af src w,
        session (snd (SaveProvidedCredsToFile kf af src w)) = session w)
  /\ (forall kf af w, isAuthed (session w) = true ->
        isAuthed (session (snd (AuthWithCredsFromFile kf af w))) = true)
  /\ (forall src w, isAuthed (session w) = true ->
        isAuthed (session (snd (AuthWithProvideCreds src w))) = true).
Proof.
  split; [reflexivity|]. split; [|split; [|split; [|split; [|split]]]].
  - intros ad w r w' Hrun. split; [by apply (auth_flag_mono ad w r)|].
    intros Hflag. split; [by apply (auth_flag_iff ad w)|]. split.
    + intros Hpw. rewrite (auth_no_creds _ _ Hflag Hpw) in Hrun.
      by injection Hrun as <- <-.
    + intros Hset. apply (auth_flag_iff ad w r w' Hrun Hflag) in Hset. subst r.
      by apply (auth_success_replies ad).
  - intros. apply writeCreds_session.
  - intros. apply readCreds_session.
  - intros kf af src w. unfold SaveProvidedCredsToFile.
    destruct (GetCreds src). apply writeCreds_session.
  - apply AuthWithCredsFromFile_mono.
  - apply AuthWithProvideCreds_mono.
Qed.

End FlagClaim.

Lemma authenticated_flag_witness :
  isAuthed (session (snd (auth creds0 world0))) = true
  /\ isAuthed (session (snd (auth creds0 worldVerify401))) = false
  /\ fst (auth creds0 worldVerify401) = Ok (Some errCheckCreds).
Proof.
  destruct (@authenticated_flag asciiOnly gobWire) as (_ & Hauth & _).
  split; [|split; [|reflexivity]].
  - destruct (Hauth creds0 world0 _ _ eq_refl) as (_ & Hfalse).
    apply (proj1 (Hfalse eq_refl)). reflexivity.
  - destruct (Hauth creds0 worldVerify401 _ _ eq_refl) as (_ & Hfalse).
    destruct (isAuthed (session (snd (auth creds0 worldVerify401)))) eqn:Hflag; [|done].
    apply (proj1 (Hfalse eq_refl)) in Hflag. vm_compute in Hflag. discriminate.
Defined.

(** ** Key loading and shredding *)

Lemma shredLoop_from (n : nat) : forall (pre post : bytes),
  length post = n ->
  fold_left (fun b i => <[i := x69]> b) (seq (length pre) n) (pre ++ post)
  = pre ++ repeat x69 n.
Proof.
  induction n as [|n IH]; intros pre post Hlen.
  - destruct post; [done | discriminate].
  - destruct post as [|p post]; [discriminate|].
    cbn [seq fold_left repeat].
    rewrite insert_app_r_alt by lia. rewrite Nat.sub_diag. cbn [insert list_insert].
    replace (pre ++ x69 :: post) with ((pre ++ [x69]) ++ post) by by rewrite <- app_assoc.
    replace (S (length pre)) with (length (pre ++ [x69])) by (rewrite length_app; cbn; lia).
    rewrite IH by (cbn in Hlen; lia). by rewrite <- app_assoc.
Qed.

(** [shred] leaves 0x69 in every byte, whatever was there. *)
Lemma shredLoop_spec (buf : bytes) : shredLoop buf = repeat x69 (length buf).
Proof. unfold shredLoop. exact (shredLoop_from (length buf) [] buf eq_refl). Qed.

Lemma perm0400_readable (m : Z) :
  Z.land m ModePerm = perm0400 -> (Z.land m perm0400 =? 0) = false.
Proof.
  intros Hm. apply Z.eqb_neq.
  replace (Z.land m perm0400) with (Z.land (Z.land m ModePerm) perm0400).
  - rewrite Hm. discriminate.
  - rewrite <- Z.land_assoc. reflexivity.
Qed.

Lemma getKey_run (kf : string) (w : world) :
  getKey kf w =
    match keyOf kf w with
    | Ok k => (Ok (length (keyBufs w)),
               updKeyBufs (keyBufs w ++ [k]) (addEvents w [EvStat kf; EvReadFile kf]))
    | Panicked p =>
        (Panicked p,
         match fs w !! kf with
         | Some f => if negb (Z.land (mode f) ModePerm =? perm0400)
                     then addEvents w [EvStat kf]
                     else addEvents w [EvStat kf; EvReadFile kf]
         | None => addEvents w [EvStat kf]
         end)
    end.
Proof.
  unfold getKey, keyOf, os_Stat, os_ReadFile.
  rewrite !bind_run, emit_run, bind_run, getWorld_run.
  cbn [addEvents fs].
  destruct (fs w !! kf) as [f|] eqn:Hf; [|reflexivity].
  cbn [mret M_ret orPanic]. rewrite bind_run. cbn [mret M_ret].
  destruct (Z.eqb_spec (Z.land (mode f) ModePerm) perm0400) as [Hm|Hm];
    cbn [negb]; [|reflexivity].
  rewrite !bind_run, emit_run, addEvents_app, bind_run, getWorld_run.
  cbn [addEvents fs privileged]. rewrite Hf.
  destruct (negb (Z.land (mode f) ModeDir =? 0)); [reflexivity|].
  rewrite (perm0400_readable _ Hm), orb_true_r.
  cbn [mret M_ret orPanic]. rewrite bind_run. cbn [mret M_ret].
  destruct (Base64.DecodeString (content f)) as [k|]; reflexivity.
Qed.

(** Both [writeCreds] and [readCreds] open with the same three calls. Once
    the key is loaded the cipher is set up and the key shredded, in that
    order, before anything else happens. *)
Lemma key_phase_run {A} (kf : string) (rest : goResult Block -> M A) (w : world) (k : bytes) :
  keyOf kf w = Ok k ->
  (key ← getKey kf; r ← aes_NewCipher key; _ ← shred key; rest r) w
  = rest (if validKeyLen (length k) then Val (mkBlock k)
          else Err (KeySizeError (length k)))
         (keyPhase kf k w).
Proof.
  intros Hk. rewrite bind_run, getKey_run, Hk.
  unfold aes_NewCipher. rewrite !bind_run, getWorld_run.
  unfold keyBytes. cbn [keyBufs updKeyBufs addEvents].
  rewrite (list_lookup_middle (keyBufs w) [] k _ eq_refl).
  cbn [default from_option]. unfold id. rewrite bind_run, emit_run.
  assert (Hshred : forall (r : goResult Block) w1,
    keyBufs w1 = keyBufs w ++ [k] ->
    (shred (length (keyBufs w)) ≫= (fun _ => rest r)) w1
    = rest r (updKeyBufs (keyBufs w ++ [repeat x69 (length k)])
                (addEvents w1 [EvShred (length (keyBufs w))]))).
  { intros r w1 Hw1. unfold shred.
    rewrite !bind_run, emit_run, bind_run, getWorld_run.
    cbn [addEvents keyBufs setKeyBufs]. rewrite Hw1.
    replace (alter shredLoop (length (keyBufs w)) (keyBufs w ++ [k]))
      with (keyBufs w ++ [repeat x69 (length k)]); [reflexivity|].
    rewrite alter_app_r_alt by lia. rewrite Nat.sub_diag. cbn.
    by rewrite shredLoop_spec. }
  destruct (validKeyLen (length k)); cbn [mret M_ret]; rewrite Hshred by reflexivity;
    f_equal; unfold keyPhase, updKeyBufs, addEvents; cbn; by rewrite <- !app_assoc.
Qed.

Lemma key_phase_panic {A} (kf : string) (rest : goResult Block -> M A) (w : world) p :
  keyOf kf w = Panicked p ->
  exists es, (key ← getKey kf; r ← aes_NewCipher key; _ ← shred key; rest r) w
             = (Panicked p, addEvents w es)
             /\ (es = [EvStat kf] \/ es = [EvStat kf; EvReadFile kf])
             /\ (forall f, fs w !! kf = Some f ->
                   Z.land (mode f) ModePerm <> perm0400 -> es = [EvStat kf]).
Proof.
  intros Hk. rewrite bind_run, getKey_run, Hk.
  destruct (fs w !! kf) as [f|].
  - destruct (Z.eqb_spec (Z.land (mode f) ModePerm) perm0400) as [Hm|Hm]; cbn [negb].
    + eexists. split; [reflexivity|]. split; [by right|]. intros f' [= <-] Hne. done.
    + eexists. split; [reflexivity|]. split; [by left|]. done.
  - eexists. split; [reflexivity|]. split; [by left|]. done.
Qed.

(** ** The credential store *)

Section StoreRuns.
Context `{GobCodec}.

Lemma writeCreds_split kf af ad :
  writeCreds kf af ad
  = (key ← getKey kf; r ← aes_NewCipher key; _ ← shred key; sealAndWrite af ad r).
Proof. reflexivity. Qed.

Lemma readCreds_split kf af :
  readCreds kf af
  = (key ← getKey kf; r ← aes_NewCipher key; _ ← shred key; openAndDecode af r).
Proof. reflexivity. Qed.

End StoreRuns.

#[local] Instance extends_refl : Reflexive extends.
Proof. intros w. repeat split. exists []. by rewrite app_nil_r. Qed.
#[local] Instance extends_trans : Transitive extends.
Proof.
  intros w1 w2 w3 (Hk & Hs & Hp & Hu & es & He) (Hk' & Hs' & Hp' & Hu' & es' & He').
  repeat split; try congruence.
  exists (es ++ es'). by rewrite He', He, app_assoc.
Qed.

Ltac extends_prim :=
  idtac;
  match goal with
  | |- keeps extends (emit ?e) => intros ?; repeat split; by exists [e]
  | |- keeps extends (setFs _) =>
      intros ?; repeat split; exists []; cbn; by rewrite app_nil_r
  | |- keeps extends (setEntropy _) =>
      intros ?; repeat split; exists []; cbn; by rewrite app_nil_r
  | |- keeps extends (log_Panic _) => intros ?; apply extends_refl
  | |- keeps extends (orPanic ?r) => destruct r; intros ?; apply extends_refl
  end.

Ltac keeps_extends := repeat keeps_step extends_prim.

Section StoreFrames.
Context `{GobCodec}.

Lemma sealAndWrite_extends af ad r : keeps extends (sealAndWrite af ad r).
Proof.
  unfold sealAndWrite, cipher_NewGCM, makeNonce, rand_Read, gob_Encode, Seal,
    os_WriteFile.
  keeps_extends.
Qed.

Lemma openAndDecode_extends af r : keeps extends (openAndDecode af r).
Proof.
  unfold openAndDecode, cipher_NewGCM, os_ReadFile, sliceTo, sliceFrom, Open,
    gob_Decode.
  keeps_extends.
Qed.

End StoreFrames.

Lemma os_ReadFile_run (name : string) (w : world) :
  os_ReadFile name w = (Ok (fileOf name w), addEvents w [EvReadFile name]).
Proof.
  unfold os_ReadFile, fileOf. rewrite bind_run, emit_run, bind_run, getWorld_run.
  cbn [addEvents fs privileged].
  destruct (fs w !! name) as [f|]; [|done].
  destruct (negb (Z.land (mode f) ModeDir =? 0)); [done|].
  by destruct (privileged w || negb (Z.land (mode f) perm0400 =? 0)).
Qed.

(** Runs monadic code as far as its primitives allow. *)
Ltac mrun :=
  repeat first
    [ rewrite bind_run
    | rewrite emit_run
    | rewrite getWorld_run
    | rewrite os_ReadFile_run
    | progress cbn [mret M_ret orPanic log_Panic doPanic] ].

Section ReadRuns.
Context `{GobCodec}.

(** [readCreds] after the key phase, when the cipher was set up. *)
Lemma openAndDecode_run (af : string) (b : Block) (w : world) :
  openAndDecode af (Val b) w =
    let w2 := addEvents w [EvNewGCM; EvReadFile af] in
    match fileOf af w with
    | Err e => (Panicked (LogPanic e), w2)
    | Val c =>
        match Base64.DecodeString c with
        | None => (Panicked (LogPanic CorruptInputError), w2)
        | Some d =>
            if (NonceSize <=? Base64.DecodedLen (length c))%nat
               && (NonceSize <=? length d)%nat then
              let nonce := firstn NonceSize
                             (d ++ repeat x00 (Base64.DecodedLen (length c) - length d)) in
              if negb (length nonce =? NonceSize)%nat then
                (Panicked (RuntimePanic "crypto/cipher: incorrect nonce length given to GCM"),
                 addEvents w [EvNewGCM; EvReadFile af; EvOpen])
              else if maxPlaintext + 16 <? Z.of_nat (length (skipn NonceSize d)) then
                (Panicked (LogPanic ErrOpen), addEvents w [EvNewGCM; EvReadFile af; EvOpen])
              else
                match GCM.open (blockKey b) nonce (skipn NonceSize d) additionalContext with
                | None => (Panicked (LogPanic ErrOpen),
                           addEvents w [EvNewGCM; EvReadFile af; EvOpen])
                | Some p =>
                    match gobDecode p with
                    | Val a => (Ok a, addEvents w [EvNewGCM; EvReadFile af; EvOpen; EvGobDecode])
                    | Err e => (Panicked (LogPanic e),
                                addEvents w [EvNewGCM; EvReadFile af; EvOpen; EvGobDecode])
                    end
                end
            else (Panicked sliceBounds, w2)
        end
    end.
Proof.
  unfold openAndDecode, cipher_NewGCM, Open, gob_Decode, sliceTo, sliceFrom,
    base64_DecodeString. cbv zeta.
  mrun. rewrite addEvents_app. cbn [app].
  change (fileOf af (addEvents w [EvNewGCM])) with (fileOf af w).
  destruct (fileOf af w) as [c|e]; mrun; [|done].
  destruct (Base64.DecodeString c) as [d|]; mrun; [|done].
  cbn [cap elems].
  destruct (NonceSize <=? Base64.DecodedLen (length c))%nat; mrun; [|done].
  destruct (NonceSize <=? length d)%nat; mrun; [|done].
  rewrite addEvents_app. cbn [app andb aeadKey blockKey].
  destruct (negb (length (firstn NonceSize
              (d ++ repeat x00 (Base64.DecodedLen (length c) - length d))) =? NonceSize)%nat);
    [done|].
  destruct (maxPlaintext + 16 <? Z.of_nat (length (skipn NonceSize d))); mrun; [done|].
  destruct (GCM.open _ _ _ _) as [p|]; mrun; [|done].
  rewrite addEvents_app. cbn [app].
  by destruct (gobDecode p).
Qed.

End ReadRuns.

(** World updates commute with recording events. *)
Lemma addEvents_updEntropy e w es :
  addEvents (updEntropy e w) es = updEntropy e (addEvents w es).
Proof. reflexivity. Qed.
Lemma addEvents_updFs f w es : addEvents (updFs f w) es = updFs f (addEvents w es).
Proof. reflexivity. Qed.
Lemma addEvents_updKeyBufs k w es :
  addEvents (updKeyBufs k w) es = updKeyBufs k (addEvents w es).
Proof. reflexivity. Qed.

Ltac world_eq :=
  unfold stored;
  repeat first [ rewrite addEvents_updEntropy | rewrite addEvents_updFs
               | rewrite addEvents_updKeyBufs | rewrite addEvents_app ];
  reflexivity.

Section WriteRuns.
Context `{GobCodec}.

(** [writeCreds] after the key phase, when every step succeeds. *)
Lemma sealAndWrite_ok (af : string) (ad : authDataT) (b : Block) (w w' : world) :
  sealAndWrite af ad (Val b) w = (Ok tt, w') ->
  exists buf m,
    (NonceSize <= length (entropy w))%nat
    /\ gobEncode ad = Val buf
    /\ Z.of_nat (length buf) <= maxPlaintext
    /\ w' = stored af m
              (Base64.EncodeToString
                 (firstn NonceSize (entropy w)
                  ++ GCM.seal (blockKey b) (firstn NonceSize (entropy w)) buf
                       additionalContext)) w
    /\ match fs w !! af with
       | None => m = createMode w
       | Some f => m = mode f /\ Z.land (mode f) ModeDir = 0
       end.
Proof.
  unfold sealAndWrite, cipher_NewGCM, makeNonce, rand_Read, gob_Encode, Seal,
    os_WriteFile.
  mrun. cbn [addEvents entropy].
  destruct (Nat.leb_spec NonceSize (length (entropy w))) as [Hent|Hent]; mrun;
    [|discriminate].
  unfold setEntropy. mrun.
  destruct (gobEncode ad) as [buf|e] eqn:Hgob; mrun; [|discriminate].
  rewrite length_take, Nat.min_l by done. rewrite Nat.eqb_refl. cbn [negb].
  destruct (Z.ltb_spec maxPlaintext (Z.of_nat (length buf))) as [|Hmax]; mrun;
    [discriminate|].
  cbn [fs updEntropy addEvents aeadKey blockKey].
  destruct (fs w !! af) as [f|] eqn:Hf; unfold setFs; mrun.
  - destruct (Z.eqb_spec (Z.land (mode f) ModeDir) 0) as [Hdir|Hdir]; cbn [negb]; mrun;
      [|discriminate].
    destruct (privileged _ || _); mrun; [|discriminate].
    intros [= <-]. exists buf, (mode f). repeat split; try done. world_eq.
  - intros [= <-]. exists buf, (createMode w). repeat split; try done. world_eq.
Qed.

Lemma sealAndWrite_err (af : string) (ad : authDataT) (err : error) (w : world) :
  sealAndWrite af ad (Err err) w
  = (Panicked (LogPanic (if errors_Is err (KeySizeError 0) then errKeyLen else err)), w).
Proof. unfold sealAndWrite. mrun. by destruct (errors_Is err (KeySizeError 0)). Qed.

End WriteRuns.

Example store_roundtrip_run :
  let '(r, w1) := writeCreds "secret.key" "creds.dat" creds0 worldStore in
  r = Ok tt
  /\ fst (readCreds "secret.key" "creds.dat" w1) = Ok creds0
  /\ keyBufs (snd (readCreds "secret.key" "creds.dat" w1))
     = [repeat x69 32; repeat x69 32]
  /\ fst (readCreds "secret.key" "creds.dat" worldShortCreds) = Panicked sliceBounds
  /\ fst (readCreds "secret.key" "creds.dat" worldBadPerms)
     = Panicked (LogPanic (errPerms "secret.key"))
  /\ fst (writeCreds "secret.key" "creds.dat" creds0 worldShortKey)
     = Panicked (LogPanic (KeySizeError 5)).
Proof. vm_compute. repeat split. Qed.

(** ** Claims on the key file and the key in memory *)

Section KeyClaims.
Context `{GobCodec}.

Lemma openAndDecode_err (af : string) (err : error) (w : world) :
  openAndDecode af (Err err) w = (Panicked (LogPanic err), w).
Proof. unfold openAndDecode. by mrun. Qed.

Lemma keyOf_bad_perms (kf : string) (w : world) (f : file) :
  fs w !! kf = Some f -> Z.land (mode f) ModePerm <> perm0400 ->
  getKey kf w = (Panicked (LogPanic (errPerms kf)), addEvents w [EvStat kf]).
Proof.
  intros Hf Hm. rewrite getKey_run. unfold keyOf. rewrite Hf.
  by destruct (Z.eqb_spec (Z.land (mode f) ModePerm) perm0400).
Qed.

(** C6. A key file whose permission bits are not exactly 0400 makes
    [getKey], and with it [writeCreds] and [readCreds], panic right after
    the stat: the file is not read and no cipher operation takes place. A
    key whose decoded length is not 16, 24 or 32 makes both panic when the
    cipher is set up, with the file system untouched. *)
Theorem key_file_rejected (kf af : string) (ad : authDataT) (w : world) (f : file) :
  fs w !! kf = Some f ->
  (Z.land (mode f) ModePerm <> perm0400 ->
     getKey kf w = (Panicked (LogPanic (errPerms kf)), addEvents w [EvStat kf])
     /\ writeCreds kf af ad w = (Panicked (LogPanic (errPerms kf)), addEvents w [EvStat kf])
     /\ readCreds kf af w = (Panicked (LogPanic (errPerms kf)), addEvents w [EvStat kf])
     /\ List.filter isCipherOp (added w (snd (writeCreds kf af ad w))) = []
     /\ List.filter isCipherOp (added w (snd (readCreds kf af w))) = [])
  /\ (forall k, keyOf kf w = Ok k -> validKeyLen (length k) = false ->
        writeCreds kf af ad w
        = (Panicked (LogPanic (if (length k =? 0)%nat then errKeyLen
                               else KeySizeError (length k))),
           keyPhase kf k w)
        /\ readCreds kf af w
           = (Panicked (LogPanic (KeySizeError (length k))), keyPhase kf k w)
        /\ fs (keyPhase kf k w) = fs w).
Proof.
  intros Hf. split.
  - intros Hm. pose proof (keyOf_bad_perms kf w f Hf Hm) as Hkey.
    assert (Hw : writeCreds kf af ad w
                 = (Panicked (LogPanic (errPerms kf)), addEvents w [EvStat kf])).
    { by rewrite writeCreds_split, bind_run, Hkey. }
    assert (Hr : readCreds kf af w
                 = (Panicked (LogPanic (errPerms kf)), addEvents w [EvStat kf])).
    { by rewrite readCreds_split, bind_run, Hkey. }
    rewrite Hw, Hr. cbn [snd]. rewrite added_addEvents. done.
  - intros k Hk Hlen. split; [|split; [|done]].
    + rewrite writeCreds_split, (key_phase_run kf _ w k Hk), Hlen, sealAndWrite_err.
      do 2 f_equal. unfold errors_Is.
      destruct (Nat.eqb_spec (length k) 0) as [->|Hne].
      * by rewrite bool_decide_true.
      * rewrite bool_decide_false; [done | congruence].
    + by rewrite readCreds_split, (key_phase_run kf _ w k Hk), Hlen, openAndDecode_err.
Qed.

(** C7. Once [getKey] has loaded a key, [writeCreds] and [readCreds] call
    [aes.NewCipher] and then, as the very next step and whether or not the
    cipher could be built, [shred]: every byte of the key's buffer is 0x69
    from then on, and everything else they do comes after. *)
Theorem key_shredded_after_use (kf af : string) (ad : authDataT) (w : world) (k : bytes) :
  keyOf kf w = Ok k ->
  keyBufs (snd (getKey kf w)) = keyBufs w ++ [k]
  /\ (forall w', w' = snd (writeCreds kf af ad w) \/ w' = snd (readCreds kf af w) ->
        keyBufs w' = keyBufs w ++ [repeat x69 (length k)]
        /\ exists es, events w'
             = events (snd (getKey kf w))
               ++ [EvNewCipher (length k); EvShred (length (keyBufs w))] ++ es)
  /\ x69 <> x00.
Proof.
  intros Hk. rewrite getKey_run, Hk. cbn [snd]. split; [done|]. split; [|done].
  assert (Hgen : forall w', extends (keyPhase kf k w) w' ->
    keyBufs w' = keyBufs w ++ [repeat x69 (length k)]
    /\ exists es, events w'
         = events (updKeyBufs (keyBufs w ++ [k]) (addEvents w [EvStat kf; EvReadFile kf]))
           ++ [EvNewCipher (length k); EvShred (length (keyBufs w))] ++ es).
  { intros w' (Hkb & _ & _ & _ & es & Hes). split; [by rewrite Hkb|].
    exists es. rewrite Hes. cbn [keyPhase events updKeyBufs addEvents].
    by rewrite <- !app_assoc. }
  intros w' [-> | ->]; apply Hgen.
  - rewrite writeCreds_split, (key_phase_run kf _ w k Hk). apply sealAndWrite_extends.
  - rewrite readCreds_split, (key_phase_run kf _ w k Hk). apply openAndDecode_extends.
Qed.

End KeyClaims.

Lemma key_file_rejected_witness :
  readCreds "secret.key" "creds.dat" worldBadPerms
  = (Panicked (LogPanic (errPerms "secret.key")),
     addEvents worldBadPerms [EvStat "secret.key"])
  /\ writeCreds "secret.key" "creds.dat" creds0 worldShortKey
     = (Panicked (LogPanic (KeySizeError 5)), keyPhase "secret.key" key5 worldShortKey).
Proof.
  split.
  - refine (proj1 (proj2 (proj2 (proj1
      (key_file_rejected "secret.key" "creds.dat" creds0 worldBadPerms
         (mkFile 420 (Base64.EncodeToString key32)) _) _)))).
    + vm_compute. reflexivity.
    + vm_compute. discriminate.
  - refine (proj1 (proj2
      (key_file_rejected "secret.key" "creds.dat" creds0 worldShortKey
         (mkFile 256 (Base64.EncodeToString key5)) _) key5 _ _)).
    + vm_compute. reflexivity.
    + vm_compute. reflexivity.
    + reflexivity.
Defined.

Lemma key_shredded_after_use_witness :
  keyOf "secret.key" worldStore = Ok key32
  /\ keyBufs (snd (readCreds "secret.key" "creds.dat" worldStore)) = [] ++ [repeat x69 32]
  /\ keyBufs (snd (writeCreds "secret.key" "creds.dat" creds0 worldStore))
     = [] ++ [repeat x69 32].
Proof.
  assert (Hk : keyOf "secret.key" worldStore = Ok key32) by (vm_compute; reflexivity).
  split; [exact Hk|].
  destruct (key_shredded_after_use "secret.key" "creds.dat" creds0 worldStore key32 Hk)
    as (_ & Hshred & _).
  split.
  - exact (proj1 (Hshred _ (or_intror eq_refl))).
  - exact (proj1 (Hshred _ (or_introl eq_refl))).
Defined.

(** ** Claims on the credential file *)

Section StoreClaims.
Context `{GobCodec}.

(** C10. A credential file that is valid base64 but decodes to fewer than
    12 bytes makes [readCreds] fail in the unguarded split of nonce and
    sealed part, with the run-time panic of a slice out of range: before
    [Open] is called, and not with an error that was logged. *)
Theorem short_envelope_panics (kf af : string) (w : world) (k c d : bytes) :
  keyOf kf w = Ok k -> validKeyLen (length k) = true ->
  fileOf af w = Val c ->
  Base64.DecodeString c = Some d ->
  (length d < NonceSize)%nat ->
  readCreds kf af w
  = (Panicked sliceBounds, addEvents (keyPhase kf k w) [EvNewGCM; EvReadFile af])
  /\ (forall e, fst (readCreds kf af w) <> Panicked (LogPanic e))
  /\ List.filter isOpenEv (events (snd (readCreds kf af w)))
     = List.filter isOpenEv (events w).
Proof.
  intros Hk Hlen Hfile Hdec Hshort.
  assert (Hrun : readCreds kf af w
    = (Panicked sliceBounds, addEvents (keyPhase kf k w) [EvNewGCM; EvReadFile af])).
  { rewrite readCreds_split, (key_phase_run kf _ w k Hk), Hlen, openAndDecode_run.
    cbv zeta. change (fileOf af (keyPhase kf k w)) with (fileOf af w).
    rewrite Hfile, Hdec.
    destruct (Nat.leb_spec NonceSize (length d)); [lia|].
    by rewrite andb_false_r. }
  rewrite Hrun. cbn [fst snd]. split; [done|]. split; [done|].
  cbn [keyPhase addEvents updKeyBufs events].
  rewrite !List.filter_app. cbn. by rewrite !app_nil_r.
Qed.

End StoreClaims.

Lemma short_envelope_panics_witness :
  Base64.DecodeString (bytes_of_string "AAAA") = Some [x00; x00; x00]
  /\ fst (readCreds "secret.key" "creds.dat" worldShortCreds) = Panicked sliceBounds.
Proof.
  split; [reflexivity|].
  refine (f_equal fst (proj1
    (short_envelope_panics "secret.key" "creds.dat" worldShortCreds key32
       (bytes_of_string "AAAA") [x00; x00; x00] _ _ _ _ _))).
  - vm_compute. reflexivity.
  - reflexivity.
  - vm_compute. reflexivity.
  - reflexivity.
  - vm_compute. lia.
Defined.

Lemma keyOf_fs (kf : string) (w w' : world) :
  fs w' !! kf = fs w !! kf -> keyOf kf w' = keyOf kf w.
Proof. unfold keyOf. by intros ->. Qed.

Section RoundTrip.
Context `{GobCodec}.
Hypothesis gob_round_trip : GobRoundTrip.

(** What a successful [writeCreds] leaves behind. *)
Lemma writeCreds_ok (kf af : string) (ad : authDataT) (w w' : world) :
  writeCreds kf af ad w = (Ok tt, w') ->
  exists k nonce buf m,
    keyOf kf w = Ok k /\ validKeyLen (length k) = true
    /\ length nonce = NonceSize /\ gobEncode ad = Val buf
    /\ Z.of_nat (length buf) <= maxPlaintext
    /\ w' = stored af m
              (Base64.EncodeToString (nonce ++ GCM.seal k nonce buf additionalContext))
              (keyPhase kf k w).
Proof.
  rewrite writeCreds_split. intros Hrun.
  destruct (keyOf kf w) as [k|p] eqn:Hk.
  - rewrite (key_phase_run kf _ w k Hk) in Hrun.
    destruct (validKeyLen (length k)) eqn:Hlen.
    + destruct (sealAndWrite_ok _ _ _ _ _ Hrun) as (buf & m & Hent & Hgob & Hmax & -> & _).
      exists k, (firstn NonceSize (entropy (keyPhase kf k w))), buf, m.
      repeat split; try done. rewrite length_take. lia.
    + by rewrite sealAndWrite_err in Hrun.
  - destruct (key_phase_panic kf (sealAndWrite af ad) w p Hk) as (es & Hp & _).
    by rewrite Hp in Hrun.
Qed.

(** C2. [readCreds] gives back the record [writeCreds] stored, with the
    same key file, provided the credential file is another file than the
    key file and can be read. *)
Theorem creds_round_trip (kf af : string) (ad : authDataT) (w w' : world) :
  kf <> af ->
  writeCreds kf af ad w = (Ok tt, w') ->
  (forall e, fileOf af w' <> Err e) ->
  fst (readCreds kf af w') = Ok ad.
Proof.
  intros Hne Hwrite Hread.
  destruct (writeCreds_ok _ _ _ _ _ Hwrite)
    as (k & nonce & buf & m & Hk & Hlen & Hnonce & Hgob & Hmax & ->).
  assert (Hsealed : length (GCM.seal k nonce buf additionalContext) = (length buf + 16)%nat).
  { unfold GCM.seal. by rewrite length_app, GCMFacts.ctr_length, GCMFacts.tag_length. }
  set (sealed := GCM.seal k nonce buf additionalContext) in *.
  set (w1 := stored af m (Base64.EncodeToString (nonce ++ sealed)) (keyPhase kf k w)) in *.
  assert (Hfs : fs w1 = <[af := mkFile m (Base64.EncodeToString (nonce ++ sealed))]> (fs w))
    by reflexivity.
  assert (Hk1 : keyOf kf w1 = Ok k).
  { rewrite <- Hk. apply keyOf_fs. rewrite Hfs. by apply lookup_insert_ne. }
  assert (Hfile : fileOf af w1 = Val (Base64.EncodeToString (nonce ++ sealed))).
  { specialize (Hread). unfold fileOf in *. rewrite Hfs, lookup_insert_eq in *.
    cbn [mode content] in *.
    destruct (negb (Z.land m ModeDir =? 0)); [by destruct (Hread _ eq_refl)|].
    destruct (privileged w1 || negb (Z.land m perm0400 =? 0)); [done|].
    by destruct (Hread _ eq_refl). }
  rewrite readCreds_split, (key_phase_run kf _ w1 k Hk1), Hlen, openAndDecode_run.
  cbv zeta. change (fileOf af (keyPhase kf k w1)) with (fileOf af w1).
  rewrite Hfile, Base64Facts.DecodeString_Encode.
  pose proof (DecodedLen_Encode (nonce ++ sealed)) as Hcap.
  rewrite length_app, Hnonce in Hcap.
  destruct (Nat.leb_spec NonceSize
              (Base64.DecodedLen (length (Base64.EncodeToString (nonce ++ sealed)))));
    [|lia].
  rewrite length_app, Hnonce.
  destruct (Nat.leb_spec NonceSize (NonceSize + length sealed)); [|lia].
  cbn [andb].
  rewrite <- app_assoc, <- Hnonce, take_app_length, drop_app_length.
  rewrite Nat.eqb_refl. cbn [blockKey negb].
  destruct (Z.ltb_spec (maxPlaintext + 16) (Z.of_nat (length sealed))); [lia|].
  unfold sealed. rewrite (GCMFacts.open_seal _ _ _ _ Hlen).
  by rewrite (gob_round_trip _ _ Hgob).
Qed.

End RoundTrip.

Lemma creds_round_trip_witness :
  fst (writeCreds "secret.key" "creds.dat" creds0 worldStore) = Ok tt
  /\ fst (readCreds "secret.key" "creds.dat"
            (snd (writeCreds "secret.key" "creds.dat" creds0 worldStore)))
     = Ok creds0.
Proof.
  assert (Hw : writeCreds "secret.key" "creds.dat" creds0 worldStore
               = (Ok tt, snd (writeCreds "secret.key" "creds.dat" creds0 worldStore))).
  { vm_compute. reflexivity. }
  split; [by rewrite Hw|].
  apply (creds_round_trip GobFacts.Decode_Encode "secret.key" "creds.dat" creds0
           worldStore _); [discriminate | exact Hw |].
  intros e. vm_compute. discriminate.
Defined.

(** ** Failing closed *)

Section FailClosed.
Context `{GobCodec}.

(** When [Open] rejects the envelope, [readCreds] panics with the cipher's
    error before anything is decoded; no record is returned. *)
Lemma readCreds_rejected (kf af : string) (w : world) (k c d : bytes) :
  keyOf kf w = Ok k -> validKeyLen (length k) = true ->
  fileOf af w = Val c -> Base64.DecodeString c = Some d ->
  (NonceSize <= length d)%nat ->
  GCM.open k (firstn NonceSize d) (skipn NonceSize d) additionalContext = None ->
  readCreds kf af w
  = (Panicked (LogPanic ErrOpen),
     addEvents (keyPhase kf k w) [EvNewGCM; EvReadFile af; EvOpen]).
Proof.
  intros Hk Hlen Hfile Hdec Hd Hopen.
  rewrite readCreds_split, (key_phase_run kf _ w k Hk), Hlen, openAndDecode_run.
  cbv zeta. change (fileOf af (keyPhase kf k w)) with (fileOf af w).
  rewrite Hfile, Hdec.
  rewrite take_app_le by done.
  destruct (Nat.leb_spec NonceSize (Base64.DecodedLen (length c))) as [_|Hcap];
    cbn [andb].
  - destruct (Nat.leb_spec NonceSize (length d)); [|lia].
    rewrite length_take, Nat.min_l, Nat.eqb_refl by done.
    cbn [blockKey negb]. rewrite Hopen.
    by destruct (maxPlaintext + 16 <? Z.of_nat (length (skipn NonceSize d))).
  - pose proof (DecodeString_length c d Hdec). lia.
Qed.

End FailClosed.

(** ** The password encoder *)



Lemma lowerByte_not_upper (a : byte) : isUpper a = false -> lowerByte a = a.
Proof. unfold lowerByte. by intros ->. Qed.

Lemma Sum256_length (msg : bytes) : length (SHA256.Sum256 msg) = 32%nat.
Proof. unfold SHA256.Sum256, SHA256.serialize. rewrite !length_app. reflexivity. Qed.


Section Encoder.
Context `{Unicode}.

Lemma ToLower_ascii (u : bytes) :
  forallb isASCII u = true -> ToLower u = List.map lowerByte u.
Proof.
  intros Hascii. unfold ToLower. rewrite Hascii.
  destruct (existsb isUpper u) eqn:Hup; [done|]. cbn [negb].
  clear Hascii. induction u as [|a u IH]; [done|].
  cbn [existsb] in Hup. apply orb_false_elim in Hup as [Ha Hu].
  cbn [List.map]. by rewrite (lowerByte_not_upper a Ha), <- IH.
Qed.


Lemma encodePassword_unfold (u p : bytes) :
  encodePassword u p = Base64.EncodeToString (SHA256.Sum256 (p ++ ToLower u)).
Proof. reflexivity. Qed.


End Encoder.



(** * Further properties of auth.go *)

(** ** The login loop, attempt by attempt *)

(** Attempts answered with a status of 500 or more are slept on and
    skipped: the loop goes on with that many retries less, and of what they
    returned only the last [(resp, err)] is kept. *)
Lemma loginLoop_skip (ad : authDataT) (k : nat) : forall (n : nat) (cur : reply) (w : world),
  (k <= n)%nat -> serverErrors w k ->
  loginLoop n ad cur w
  = loginLoop (n - k) ad
      (match k with
       | O => cur
       | S k' => postReplies w (postCount (events w) + k')
       end)
      (addEvents w (retryEvents ad (firstn k (delays n)))).
Proof.
  induction k as [|k IH]; intros n cur w Hk Herr.
  - by rewrite Nat.sub_0_r, addEvents_nil.
  - destruct n as [|n]; [lia|].
    destruct (Herr 0%nat ltac:(lia)) as (r & e & Hr & Hsc).
    rewrite Nat.add_0_r in Hr.
    cbn [loginLoop]. rewrite bind_run, httpClient_Post_run, Hr.
    rewrite bind_run. cbn [statusCode fst mret M_ret].
    destruct (Z.ltb_spec (StatusCode r) 500); [lia|].
    rewrite bind_run. unfold time_Sleep. rewrite emit_run, addEvents_app.
    rewrite IH; [| lia |].
    + rewrite addEvents_app. cbn [Nat.sub delays firstn retryEvents flat_map app].
      f_equal. destruct k as [|k']; [by rewrite Nat.add_0_r, Hr|].
      cbn [addEvents postReplies events]. rewrite postCount_app.
      change (postCount [EvPost loginURL (loginBody ad);
                         EvSleep ((6 - Z.of_nat n) * 5)]) with 1%nat.
      f_equal. lia.
    + intros j Hj. cbn [addEvents postReplies events].
      rewrite !postCount_app, !postCount_cons. cbn [isPost].
      change (postCount []) with 0%nat.
      destruct (Herr (S j) ltac:(lia)) as (r' & e' & Hr' & Hsc').
      exists r', e'. split; [|done]. rewrite <- Hr'. f_equal. lia.
Qed.

(** One attempt that resolves the loop, or gets no response. *)
Lemma loginLoop_resolved (ad : authDataT) (n : nat) (cur : reply) (w : world) r e :
  postReplies w (postCount (events w)) = (Some r, e) -> StatusCode r < 500 ->
  loginLoop (S n) ad cur w = (Ok (Some r, e), addEvents w [thePost ad]).
Proof.
  intros Hr Hsc. cbn [loginLoop]. rewrite bind_run, httpClient_Post_run, Hr.
  rewrite bind_run. cbn [statusCode fst mret M_ret].
  by destruct (Z.ltb_spec (StatusCode r) 500); [|lia].
Qed.

Lemma loginLoop_no_response (ad : authDataT) (n : nat) (cur : reply) (w : world) e :
  postReplies w (postCount (events w)) = (None, e) ->
  loginLoop (S n) ad cur w = (Panicked nilDeref, addEvents w [thePost ad]).
Proof.
  intros Hr. cbn [loginLoop]. by rewrite bind_run, httpClient_Post_run, Hr.
Qed.

(** The loop after [k < 5] failed attempts, when the next one is answered
    below 500. *)
Lemma loginLoop_after (ad : authDataT) (w : world) (k : nat) r e :
  (k < 5)%nat -> serverErrors w k ->
  postReplies w (postCount (events w) + k) = (Some r, e) -> StatusCode r < 500 ->
  loginLoop 5 ad (None, None) w
  = (Ok (Some r, e),
     addEvents w (retryEvents ad (firstn k (delays 5)) ++ [thePost ad])).
Proof.
  intros Hk Herr Hr Hsc.
  rewrite (loginLoop_skip ad k 5 _ w) by (lia || done).
  destruct (5 - k)%nat as [|n] eqn:Hn; [lia|].
  rewrite (loginLoop_resolved ad n _ _ r e); [by rewrite addEvents_app| |done].
  cbn [addEvents postReplies events].
  rewrite postCount_app, postCount_retryEvents, length_take, length_delays.
  by rewrite Nat.min_l by lia.
Qed.

(** ** The session: order of checks, outcomes, bounds *)

(** X1. The check of the secret comes second: with an empty
    [EncodedPassword], [auth] returns nil on an authenticated session and
    the error "must provide credentials before calling" otherwise, in both
    cases without touching the world, so without any request. *)
Theorem auth_empty_secret (ad : authDataT) (w : world) :
  EncodedPassword ad = [] ->
  auth ad w = (if isAuthed (session w) then Ok None else Ok (Some errNoCreds), w).
Proof.
  intros Hpw. destruct (isAuthed (session w)) eqn:Hflag.
  - by apply auth_authed.
  - by apply auth_no_creds.
Qed.

Lemma auth_empty_secret_witness :
  auth (mkAuthData (bytes_of_string "user@example.com") []) world0
  = (Ok (Some errNoCreds), world0)
  /\ auth (mkAuthData (bytes_of_string "user@example.com") []) (loggedIn world0 [])
     = (Ok None, loggedIn world0 []).
Proof.
  split.
  - exact (auth_empty_secret (mkAuthData (bytes_of_string "user@example.com") [])
             world0 eq_refl).
  - exact (auth_empty_secret (mkAuthData (bytes_of_string "user@example.com") [])
             (loggedIn world0 []) eq_refl).
Defined.

(** X2. When all five login POSTs are answered with a status of 500 or
    more, [auth] has slept after each of them, 100 seconds in all, and
    then gives up without a verification GET: it returns the error
    "unexpected auth failure, try debug", or panics with the error value
    that came with the fifth response; the flag stays false. *)
Theorem auth_retries_exhausted (ad : authDataT) (w : world) :
  isAuthed (session w) = false -> EncodedPassword ad <> [] ->
  serverErrors w 5 ->
  auth ad w
  = (match snd (postReplies w (postCount (events w) + 4)) with
     | Some e => Panicked (LogPanic e)
     | None => Ok (Some errUnexpected)
     end,
     addEvents w (retryEvents ad [10; 15; 20; 25; 30]))
  /\ postCount (added w (snd (auth ad w))) = 5%nat
  /\ getCount (added w (snd (auth ad w))) = 0%nat
  /\ totalSleep (added w (snd (auth ad w))) = 100
  /\ isAuthed (session (snd (auth ad w))) = false.
Proof.
  intros Hflag Hpw Herr.
  assert (Hrun : auth ad w
    = (match snd (postReplies w (postCount (events w) + 4)) with
       | Some e => Panicked (LogPanic e)
       | None => Ok (Some errUnexpected)
       end,
       addEvents w (retryEvents ad [10; 15; 20; 25; 30]))).
  { rewrite (auth_unfold ad w Hflag Hpw).
    rewrite (loginLoop_skip ad 5 5 _ w) by (lia || done).
    cbn [Nat.sub loginLoop mret M_ret]. rewrite firstn_all2 by by rewrite length_delays.
    destruct (Herr 4%nat ltac:(lia)) as (r & e & -> & Hsc). cbn [snd].
    destruct e as [e|]; [done|].
    destruct (Z.eqb_spec (StatusCode r) 200); [lia | done]. }
  rewrite Hrun. cbn [snd]. rewrite added_addEvents. split; [done|].
  unfold totalSleep.
  by rewrite postCount_retryEvents, getCount_retryEvents, sleepsOf_retryEvents.
Qed.

Lemma auth_retries_exhausted_witness :
  auth creds0 worldAll503
  = (Ok (Some errUnexpected),
     addEvents worldAll503 (retryEvents creds0 [10; 15; 20; 25; 30])).
Proof.
  refine (proj1 (auth_retries_exhausted creds0 worldAll503 eq_refl _ _)).
  - discriminate.
  - intros j Hj. exists (mkResponse 503 ""), None. split; [reflexivity | vm_compute; discriminate].
Defined.

(** X3. A login attempt answered below 500 ends the loop. Unless it is a
    200 that came without an error value, no verification GET follows:
    [auth] panics with the error value if there is one, and else returns
    "unexpected auth failure, try debug"; the flag stays false. *)
Theorem auth_login_not_accepted (ad : authDataT) (w : world) (k : nat) lr e :
  isAuthed (session w) = false -> EncodedPassword ad <> [] ->
  (k < 5)%nat -> serverErrors w k ->
  postReplies w (postCount (events w) + k) = (Some lr, e) ->
  StatusCode lr < 500 ->
  e <> None \/ StatusCode lr <> 200 ->
  auth ad w
  = (match e with
     | Some e' => Panicked (LogPanic e')
     | None => Ok (Some errUnexpected)
     end,
     addEvents w (retryEvents ad (firstn k (delays 5)) ++ [thePost ad]))
  /\ getCount (added w (snd (auth ad w))) = 0%nat
  /\ isAuthed (session (snd (auth ad w))) = false.
Proof.
  intros Hflag Hpw Hk Herr Hr Hsc Hbad.
  assert (Hrun : auth ad w
    = (match e with
       | Some e' => Panicked (LogPanic e')
       | None => Ok (Some errUnexpected)
       end,
       addEvents w (retryEvents ad (firstn k (delays 5)) ++ [thePost ad]))).
  { rewrite (auth_unfold ad w Hflag Hpw), (loginLoop_after ad w k lr e Hk Herr Hr Hsc).
    destruct e as [e|]; [done|].
    destruct Hbad as [?|Hne]; [done|].
    by destruct (Z.eqb_spec (StatusCode lr) 200). }
  rewrite Hrun. cbn [snd]. rewrite added_addEvents. split; [done|]. split; [|done].
  by rewrite getCount_app, getCount_retryEvents.
Qed.

Lemma auth_login_not_accepted_witness :
  auth creds0 world403 = (Ok (Some errUnexpected), addEvents world403 [thePost creds0]).
Proof.
  refine (proj1 (auth_login_not_accepted creds0 world403 0 (mkResponse 403 "") None
                   eq_refl _ _ _ eq_refl _ _)).
  - discriminate.
  - lia.
  - intros j Hj. lia.
  - vm_compute. reflexivity.
  - right. vm_compute. discriminate.
Defined.

(** X4. After a login answered 200 without an error value, [auth] issues
    exactly one verification GET and its reply decides: an error value
    panics, a missing response is a nil dereference, 200 sets the flag and
    returns nil, 401 returns "login failed, check creds", anything else
    "unexpected auth failure, try debug". Error values that came with the
    retried attempts play no part. *)
Theorem auth_verification (ad : authDataT) (w : world) (k : nat) lr :
  isAuthed (session w) = false -> EncodedPassword ad <> [] ->
  (k < 5)%nat -> serverErrors w k ->
  postReplies w (postCount (events w) + k) = (Some lr, None) ->
  StatusCode lr = 200 ->
  let es := retryEvents ad (firstn k (delays 5)) ++ [thePost ad; EvGet testUrl] in
  auth ad w
  = match getReplies w (getCount (events w)) with
    | (_, Some e) => (Panicked (LogPanic e), addEvents w es)
    | (None, None) => (Panicked nilDeref, addEvents w es)
    | (Some gr, None) =>
        if StatusCode gr =? 200 then (Ok None, loggedIn w es)
        else if StatusCode gr =? 401 then (Ok (Some errCheckCreds), addEvents w es)
        else (Ok (Some errUnexpected), addEvents w es)
    end.
Proof.
  intros Hflag Hpw Hk Herr Hr Hsc es.
  rewrite (auth_unfold ad w Hflag Hpw),
    (loginLoop_after ad w k lr None Hk Herr Hr ltac:(lia)).
  rewrite Hsc. cbn [Z.eqb Pos.eqb negb]. cbn [addEvents getReplies events].
  rewrite !getCount_app, getCount_retryEvents. change (getCount [thePost ad]) with 0%nat.
  cbn [Nat.add]. rewrite !Nat.add_0_r, !addEvents_app, <- !app_assoc. cbn [app]. fold es.
  destruct (getReplies w (getCount (events w))) as [[gr|] [ge|]]; try done.
  by destruct (StatusCode gr =? 200).
Qed.

Lemma auth_verification_witness :
  auth creds0 worldTwo503
  = (Ok None,
     loggedIn worldTwo503
       (retryEvents creds0 [10; 15] ++ [thePost creds0; EvGet testUrl]))
  /\ fst (auth creds0 worldVerify401) = Ok (Some errCheckCreds).
Proof.
  split.
  - refine (auth_verification creds0 worldTwo503 2 (mkResponse 200 "")
              eq_refl _ _ _ eq_refl eq_refl).
    + discriminate.
    + lia.
    + intros [|[|j]] Hj; [| |lia].
      * exists (mkResponse 503 ""), (Some (TransportError "unexpected EOF")).
        split; [reflexivity | vm_compute; discriminate].
      * exists (mkResponse 503 ""), None.
        split; [reflexivity | vm_compute; discriminate].
  - refine (f_equal fst (auth_verification creds0 worldVerify401 0 (mkResponse 200 "")
              eq_refl _ _ _ eq_refl eq_refl)).
    + discriminate.
    + lia.
    + intros j Hj. lia.
Defined.


Lemma totalSleep_firstn (k : nat) :
  0 <= fold_right Z.add 0 (firstn k (delays 5)) <= 100.
Proof.
  do 5 (destruct k as [|k]; [vm_compute; split; intro; discriminate|]).
  destruct k; vm_compute; split; intro; discriminate.
Qed.

Lemma added_same (w : world) : added w w = [].
Proof. unfold added. apply skipn_all. Qed.

(** X5. What every call of [auth] does on the network, whatever the peer
    answers and whatever the session and the credentials are: first the
    login loop, with at most five POSTs, no call of [retryingGet] and at
    most 100 seconds of sleep in all; then nothing more, or one call of
    [retryingGet] that comes directly after a login POST. What
    [retryingGet] does inside is not in auth.go and is not counted. *)
Theorem auth_bounded (ad : authDataT) (w : world) :
  exists loop tail,
    added w (snd (auth ad w)) = loop ++ tail
    /\ (postCount loop <= 5)%nat
    /\ getCount loop = 0%nat
    /\ 0 <= totalSleep loop <= 100
    /\ (tail = []
        \/ tail = [EvGet testUrl] /\ exists loop', loop = loop' ++ [thePost ad]).
Proof.
  assert (Hnil : exists loop tail : list event,
    [] = loop ++ tail /\ (postCount loop <= 5)%nat /\ getCount loop = 0%nat
    /\ 0 <= totalSleep loop <= 100
    /\ (tail = []
        \/ tail = [EvGet testUrl] /\ exists loop', loop = loop' ++ [thePost ad])).
  { exists [], []. repeat split; try (by left); vm_compute; (lia || (intro; discriminate)). }
  destruct (isAuthed (session w)) eqn:Hflag.
  { rewrite (auth_authed ad w Hflag). cbn [snd]. by rewrite added_same. }
  destruct (decide (EncodedPassword ad = [])) as [Hpw|Hpw].
  { rewrite (auth_no_creds ad w Hflag Hpw). cbn [snd]. by rewrite added_same. }
  clear Hnil. destruct (auth ad w) as [r w'] eqn:Hrun. cbn [snd].
  assert (Hloop : forall k es, loginPhase ad w k es ->
    (postCount es <= 5)%nat /\ getCount es = 0%nat /\ 0 <= totalSleep es <= 100).
  { intros k es Hphase. destruct (loginPhase_counts _ _ _ _ Hphase) as (Hcp & Hcs & Hcg).
    destruct Hphase as (Hle & _). unfold totalSleep. rewrite Hcp, Hcs, Hcg.
    split; [destruct (Nat.ltb_spec k 5); lia|]. split; [done|]. apply totalSleep_firstn. }
  assert (Hlast : forall k es, loginPhase ad w k es -> (k < 5)%nat ->
    exists loop', es = loop' ++ [thePost ad]).
  { intros k es (_ & -> & _) Hk. destruct (Nat.ltb_spec k 5); [|lia]. by eexists. }
  auth_cases Hrun Hflag Hpw; rewrite ?added_addEvents, ?added_loggedIn;
    destruct (Hloop _ _ Hphase) as (Hp & Hg0 & Hs);
    first
      [ exists es, []; rewrite app_nil_r;
        split; [reflexivity|]; split; [exact Hp|]; split; [exact Hg0|];
        split; [exact Hs|]; by left
      | exists es, [EvGet testUrl];
        split; [reflexivity|]; split; [exact Hp|]; split; [exact Hg0|];
        split; [exact Hs|]; right; split; [reflexivity | by apply (Hlast k)] ].
Qed.

#[local] Instance sameStore_refl : Reflexive sameStore.
Proof. intros w. repeat split. exists []. by rewrite app_nil_r. Qed.

#[local] Instance sameStore_trans : Transitive sameStore.
Proof.
  intros a b c (?&?&?&?&?&es&?) (?&?&?&?&?&es'&?).
  repeat split; try congruence. exists (es ++ es'). rewrite app_assoc. congruence.
Qed.

Lemma sameStore_addEvents w es : sameStore w (addEvents w es).
Proof. repeat split. by exists es. Qed.

Lemma sameStore_loggedIn w es : sameStore w (loggedIn w es).
Proof. repeat split. by exists es. Qed.

Section SessionFrame.
Context `{Unicode}.

(** X6. [auth] works on the session and the network only: the files, the
    unread random bytes, the key buffers, the umask and the privilege of
    the process are as before, and events are only added. The same holds
    for [AuthWithProvideCreds], which reads no file at all. *)
Theorem auth_frame (ad : authDataT) (src : CredsProvider) (w : world) :
  sameStore w (snd (auth ad w))
  /\ sameStore w (snd (AuthWithProvideCreds src w)).
Proof.
  assert (Hauth : forall ad' , sameStore w (snd (auth ad' w))).
  { intros ad'. destruct (isAuthed (session w)) eqn:Hflag.
    { rewrite (auth_authed ad' w Hflag). reflexivity. }
    destruct (decide (EncodedPassword ad' = [])) as [Hpw|Hpw].
    { rewrite (auth_no_creds ad' w Hflag Hpw). reflexivity. }
    destruct (auth ad' w) as [r w'] eqn:Hrun. cbn [snd].
    auth_cases Hrun Hflag Hpw;
      first [apply sameStore_addEvents | apply sameStore_loggedIn]. }
  split; [apply Hauth|].
  unfold AuthWithProvideCreds. destruct (GetCreds src) as [u p]. apply Hauth.
Qed.

End SessionFrame.


(** ** The key file and the key buffer *)

(** X7. What [getKey] accepts: it returns a key exactly when the key file
    exists, has permission bits exactly 0400, is not a directory and holds
    valid padded base64; the key is then the decoded content, of any
    length, put in a fresh buffer. However it ends, it changes no file,
    and when it panics it is with a logged error and no key was
    loaded. *)
Theorem getKey_accepts (kf : string) (w : world) :
  fs (snd (getKey kf w)) = fs w
  /\ (forall i, fst (getKey kf w) = Ok i <->
        i = length (keyBufs w)
        /\ exists f k, fs w !! kf = Some f
             /\ Z.land (mode f) ModePerm = perm0400
             /\ Z.land (mode f) ModeDir = 0
             /\ Base64.DecodeString (content f) = Some k
             /\ keyBufs (snd (getKey kf w)) = keyBufs w ++ [k])
  /\ (forall p, fst (getKey kf w) = Panicked p ->
        keyBufs (snd (getKey kf w)) = keyBufs w /\ exists e, p = LogPanic e).
Proof.
  rewrite getKey_run. unfold keyOf.
  destruct (fs w !! kf) as [f|] eqn:Hf.
  2:{ cbn [fst snd]. split; [done|]. split.
      - intros i. split; [done|]. by intros (_ & f & k & ? & _).
      - intros p [= <-]. split; [done|]. by eexists. }
  destruct (Z.eqb_spec (Z.land (mode f) ModePerm) perm0400) as [Hm|Hm]; cbn [negb].
  2:{ cbn [fst snd]. split; [done|]. split.
      - intros i. split; [done|]. intros (_ & f' & k & [= <-] & ? & _). done.
      - intros p [= <-]. split; [done|]. by eexists. }
  destruct (Z.eqb_spec (Z.land (mode f) ModeDir) 0) as [Hd|Hd]; cbn [negb].
  2:{ cbn [fst snd]. split; [done|]. split.
      - intros i. split; [done|]. intros (_ & f' & k & [= <-] & _ & ? & _). done.
      - intros p [= <-]. split; [done|]. by eexists. }
  destruct (Base64.DecodeString (content f)) as [k|] eqn:Hk; cbn [fst snd].
  - split; [done|]. split.
    + intros i. split.
      * intros [= <-]. split; [done|]. by exists f, k.
      * by intros [-> _].
    + by intros p.
  - split; [done|]. split.
    + intros i. split; [done|]. intros (_ & f' & k & [= <-] & _ & _ & ? & _). congruence.
    + intros p [= <-]. split; [done|]. by eexists.
Qed.

Lemma shred_run (key : nat) (w : world) :
  shred key w
  = (Ok tt, updKeyBufs (alter shredLoop key (keyBufs w)) (addEvents w [EvShred key])).
Proof. unfold shred. by rewrite bind_run, emit_run, bind_run, getWorld_run. Qed.

(** X8. [shred] overwrites the whole of the buffer it is given with the
    byte 0x69 and keeps its length; every other buffer, the files, the
    random bytes and the session are left alone, and shredding again
    changes nothing. It cannot fail. *)
Theorem shred_spec (key : nat) (w : world) :
  let w' := snd (shred key w) in
  fst (shred key w) = Ok tt
  /\ length (keyBufs w') = length (keyBufs w)
  /\ (forall b, keyBufs w !! key = Some b ->
        keyBufs w' !! key = Some (repeat x69 (length b)))
  /\ (forall j, j <> key -> keyBufs w' !! j = keyBufs w !! j)
  /\ fs w' = fs w /\ entropy w' = entropy w /\ session w' = session w
  /\ keyBufs (snd (shred key w')) = keyBufs w'.
Proof.
  cbv zeta. rewrite !shred_run. cbn [fst snd keyBufs updKeyBufs addEvents].
  split; [done|]. split; [by rewrite length_alter|]. split.
  { intros b Hb. by rewrite list_lookup_alter_eq, Hb, <- shredLoop_spec. }
  split; [intros j Hj; by apply list_lookup_alter_ne|].
  do 3 (split; [done|]).
  apply list_eq. intros j. destruct (decide (j = key)) as [->|Hj].
  - rewrite !list_lookup_alter_eq. destruct (keyBufs w !! key) as [b|]; [|done].
    cbn. by rewrite !shredLoop_spec, repeat_length.
  - by rewrite list_lookup_alter_ne.
Qed.

(** ** What the credential store touches *)

#[local] Instance onlyFile_refl af : Reflexive (onlyFile af).
Proof. by intros w name _. Qed.
#[local] Instance onlyFile_trans af : Transitive (onlyFile af).
Proof. intros a b c Hab Hbc name Hn. by rewrite (Hbc name Hn), (Hab name Hn). Qed.
#[local] Instance sameFiles_refl : Reflexive sameFiles.
Proof. by intros w. Qed.
#[local] Instance sameFiles_trans : Transitive sameFiles.
Proof. intros a b c [? ?] [? ?]. split; congruence. Qed.

Lemma os_WriteFile_onlyFile af d p : keeps (onlyFile af) (os_WriteFile af d p).
Proof.
  intros w name Hn. unfold os_WriteFile.
  rewrite bind_run, emit_run, bind_run, getWorld_run. cbn [addEvents fs privileged].
  destruct (fs w !! af) as [f|].
  - destruct (negb (Z.land (mode f) ModeDir =? 0)); [done|].
    destruct (privileged w || negb (Z.land (mode f) perm0200 =? 0)); [|done].
    cbn. by apply lookup_insert_ne.
  - cbn. by apply lookup_insert_ne.
Qed.

Ltac files_prim :=
  idtac;
  match goal with
  | |- keeps _ (emit _) => by intros ?
  | |- keeps _ (setKeyBufs _) => by intros ?
  | |- keeps (onlyFile _) (setEntropy _) => by intros ?
  | |- keeps _ (log_Panic _) => by intros ?
  | |- keeps _ (orPanic ?r) => by destruct r; intros ?
  | |- keeps (onlyFile _) (os_WriteFile _ _ _) => apply os_WriteFile_onlyFile
  end.

Ltac keeps_files := repeat first [files_prim | keeps_step files_prim].

Section StoreFiles.
Context `{GobCodec}.

Lemma readCreds_sameFiles kf af : keeps sameFiles (readCreds kf af).
Proof.
  unfold readCreds, getKey, shred, os_Stat, aes_NewCipher, cipher_NewGCM, os_ReadFile,
    sliceTo, sliceFrom, Open, gob_Decode.
  keeps_files.
Qed.

Lemma writeCreds_onlyFile kf af ad : keeps (onlyFile af) (writeCreds kf af ad).
Proof.
  unfold writeCreds, getKey, shred, os_Stat, os_ReadFile, aes_NewCipher, cipher_NewGCM,
    makeNonce, rand_Read, gob_Encode, Seal.
  keeps_files.
Qed.

(** X9. Which files the store touches: [readCreds] changes no file and
    draws no random bytes, whatever happens; [writeCreds] changes no file
    other than [authFilename], so the key file is never written unless it
    is named as the credential file too. *)
Theorem store_file_frame (kf af : string) (ad : authDataT) (w : world) :
  fs (snd (readCreds kf af w)) = fs w
  /\ entropy (snd (readCreds kf af w)) = entropy w
  /\ (forall name, name <> af ->
        fs (snd (writeCreds kf af ad w)) !! name = fs w !! name)
  /\ (kf <> af -> fs (snd (writeCreds kf af ad w)) !! kf = fs w !! kf).
Proof.
  destruct (readCreds_sameFiles kf af w) as [Hfs Hent].
  pose proof (writeCreds_onlyFile kf af ad w) as Hw.
  repeat split; try done. intros Hne. by apply Hw.
Qed.

End StoreFiles.


(** ** Writing the credential file *)

Section WriteFacts.
Context `{GobCodec}.

(** X10. What a successful [writeCreds] leaves: the key file was accepted
    with a key of 16, 24 or 32 bytes; the nonce is the next 12 random
    bytes, which are used up; the credential file holds the base64 of the
    nonce followed by the sealed gob of the record; an existing file keeps
    its mode, a new one gets 0777 less the umask. Nothing restricts the
    mode of the credential file the way the key file's is. *)
Theorem writeCreds_stores (kf af : string) (ad : authDataT) (w w' : world) :
  writeCreds kf af ad w = (Ok tt, w') ->
  exists k buf f,
    keyOf kf w = Ok k /\ validKeyLen (length k) = true
    /\ gobEncode ad = Val buf
    /\ (NonceSize <= length (entropy w))%nat
    /\ entropy w' = skipn NonceSize (entropy w)
    /\ fs w' = <[af := f]> (fs w)
    /\ content f
       = Base64.EncodeToString
           (firstn NonceSize (entropy w)
            ++ GCM.seal k (firstn NonceSize (entropy w)) buf additionalContext)
    /\ mode f = match fs w !! af with
                | Some f0 => mode f0
                | None => Z.land 511 (Z.lxor (Z.land (umask w) 511) 511)
                end.
Proof.
  rewrite writeCreds_split. intros Hrun.
  destruct (keyOf kf w) as [k|p] eqn:Hk.
  - rewrite (key_phase_run kf _ w k Hk) in Hrun.
    destruct (validKeyLen (length k)) eqn:Hlen.
    + destruct (sealAndWrite_ok _ _ _ _ _ Hrun) as (buf & m & Hent & Hgob & Hmax & -> & Hm).
      exists k, buf, (mkFile m (Base64.EncodeToString
        (firstn NonceSize (entropy w)
         ++ GCM.seal k (firstn NonceSize (entropy w)) buf additionalContext))).
      repeat split; try done.
      change (fs (keyPhase kf k w)) with (fs w) in Hm. cbn [mode].
      destruct (fs w !! af) as [f0|]; [by destruct Hm | by rewrite Hm].
    + by rewrite sealAndWrite_err in Hrun.
  - destruct (key_phase_panic kf (sealAndWrite af ad) w p Hk) as (es & Hp & _).
    by rewrite Hp in Hrun.
Qed.

(** X11. [makeNonce] never returns an error: [rand.Read] fills the 12
    bytes of the nonce or ends the process, so the check of that error in
    [writeCreds] cannot fire. When the random source fails, [writeCreds]
    ends in the fatal error of crypto/rand, not in a logged panic, once
    the key has been loaded and shredded: nothing is encoded, sealed or
    written, and no file changes. *)
Theorem writeCreds_no_nonce (kf af : string) (ad : authDataT) (w : world) (k : bytes) :
  keyOf kf w = Ok k -> validKeyLen (length k) = true ->
  (length (entropy w) < NonceSize)%nat ->
  writeCreds kf af ad w
  = (Panicked (FatalError "crypto/rand: failed to read random data"),
     addEvents (keyPhase kf k w) [EvNewGCM; EvRandRead NonceSize])
  /\ (forall e, fst (writeCreds kf af ad w) <> Panicked (LogPanic e))
  /\ (forall g w0 e, fst (makeNonce g w0) <> Ok (Err e))
  /\ fs (snd (writeCreds kf af ad w)) = fs w
  /\ List.filter isWriteEv (added w (snd (writeCreds kf af ad w))) = [].
Proof.
  intros Hk Hlen Hent.
  assert (Hrun : writeCreds kf af ad w
    = (Panicked (FatalError "crypto/rand: failed to read random data"),
       addEvents (keyPhase kf k w) [EvNewGCM; EvRandRead NonceSize])).
  { rewrite writeCreds_split, (key_phase_run kf _ w k Hk), Hlen.
    unfold sealAndWrite, cipher_NewGCM, makeNonce, rand_Read. mrun.
    cbn [addEvents entropy keyPhase updKeyBufs].
    destruct (Nat.leb_spec NonceSize (length (entropy w))); [lia|].
    mrun. by rewrite addEvents_app. }
  rewrite Hrun. cbn [fst snd]. split; [done|]. split; [done|]. split.
  { intros g w0 e. unfold makeNonce, rand_Read. mrun. cbn [addEvents entropy].
    by destruct (NonceSize <=? length (entropy w0))%nat. }
  split; [done|].
  unfold added, keyPhase. cbn [events addEvents updKeyBufs].
  by rewrite <- !app_assoc, drop_app_length.
Qed.

End WriteFacts.

Lemma writeCreds_stores_witness :
  exists f, fs (snd (writeCreds "secret.key" "creds.dat" creds0 worldStore)) !! "creds.dat"
            = Some f /\ mode f = 493.
Proof.
  destruct (writeCreds_stores "secret.key" "creds.dat" creds0 worldStore
              (snd (writeCreds "secret.key" "creds.dat" creds0 worldStore)))
    as (k & buf & f & _ & _ & _ & _ & _ & Hfs & Hc & Hm).
  { vm_compute. reflexivity. }
  exists f. rewrite Hfs, lookup_insert_eq. split; [done|].
  rewrite Hm. vm_compute. reflexivity.
Defined.

Lemma writeCreds_no_nonce_witness :
  fst (writeCreds "secret.key" "creds.dat" creds0 worldNoEntropy)
  = Panicked (FatalError "crypto/rand: failed to read random data").
Proof.
  refine (f_equal fst (proj1
    (writeCreds_no_nonce "secret.key" "creds.dat" creds0 worldNoEntropy key32 _ _ _))).
  - vm_compute. reflexivity.
  - reflexivity.
  - vm_compute. lia.
Defined.


(** ** Reading the credential file *)

Section ReadFacts.
Context `{GobCodec}.

(** X12. [readCreds] returns a record only when everything checked out:
    the key file was accepted with a key of 16, 24 or 32 bytes, the
    credential file was readable, valid base64 and at least 28 bytes long
    when decoded, the last 16 of them are the GCM tag of what lies between
    nonce and tag under that key, that nonce and the context "irdata.auth",
    and the record is the gob decoding of the decrypted middle part. *)
Theorem readCreds_sound (kf af : string) (w w' : world) (a : authDataT) :
  readCreds kf af w = (Ok a, w') ->
  exists k c d,
    keyOf kf w = Ok k /\ validKeyLen (length k) = true
    /\ fileOf af w = Val c /\ Base64.DecodeString c = Some d
    /\ (NonceSize + 16 <= length d)%nat
    /\ (let nonce := firstn NonceSize d in
        let sealed := skipn NonceSize d in
        let ct := firstn (length sealed - 16) sealed in
        skipn (length sealed - 16) sealed = GCM.tag k nonce ct additionalContext
        /\ gobDecode (GCM.ctr k nonce ct) = Val a)
    /\ w' = addEvents (keyPhase kf k w) [EvNewGCM; EvReadFile af; EvOpen; EvGobDecode].
Proof.
  rewrite readCreds_split. intros Hrun.
  destruct (keyOf kf w) as [k|p] eqn:Hk.
  2:{ destruct (key_phase_panic kf (openAndDecode af) w p Hk) as (es & Hp & _).
      by rewrite Hp in Hrun. }
  rewrite (key_phase_run kf _ w k Hk) in Hrun.
  destruct (validKeyLen (length k)) eqn:Hlen; [|by rewrite openAndDecode_err in Hrun].
  rewrite openAndDecode_run in Hrun. cbv zeta in Hrun.
  change (fileOf af (keyPhase kf k w)) with (fileOf af w) in Hrun.
  destruct (fileOf af w) as [c|e] eqn:Hfile; [|done].
  destruct (Base64.DecodeString c) as [d|] eqn:Hdec; [|done].
  destruct (Nat.leb_spec NonceSize (Base64.DecodedLen (length c))); [|done].
  destruct (Nat.leb_spec NonceSize (length d)) as [Hd|]; [|done].
  cbn [andb] in Hrun. rewrite take_app_le in Hrun by done.
  rewrite length_take, Nat.min_l, Nat.eqb_refl in Hrun by done.
  cbn [negb blockKey] in Hrun.
  destruct (maxPlaintext + 16 <? Z.of_nat (length (skipn NonceSize d))); [done|].
  destruct (GCM.open k (firstn NonceSize d) (skipn NonceSize d) additionalContext)
    as [p|] eqn:Hopen; [|done].
  destruct (open_Some_tag _ _ _ _ _ Hopen) as (H16 & Htag & ->).
  destruct (gobDecode _) as [a'|e] eqn:Hgob; [|done].
  injection Hrun as <- <-.
  exists k, c, d. repeat split; try done.
  rewrite length_drop in H16. lia.
Qed.

(** X13. An envelope whose last 16 bytes are not the tag of its nonce and
    body is refused: [readCreds] panics with the cipher's "message
    authentication failed" right after [Open], and nothing is decoded. *)
Theorem readCreds_wrong_tag (kf af : string) (w : world) (k c n ct t : bytes) :
  keyOf kf w = Ok k -> validKeyLen (length k) = true ->
  fileOf af w = Val c -> Base64.DecodeString c = Some (n ++ ct ++ t) ->
  length n = NonceSize -> length t = 16%nat ->
  t <> GCM.tag k n ct additionalContext ->
  readCreds kf af w
  = (Panicked (LogPanic ErrOpen),
     addEvents (keyPhase kf k w) [EvNewGCM; EvReadFile af; EvOpen]).
Proof.
  intros Hk Hlen Hfile Hdec Hn Ht Hne.
  apply (readCreds_rejected kf af w k c (n ++ ct ++ t) Hk Hlen Hfile Hdec).
  - rewrite length_app. lia.
  - rewrite <- Hn, take_app_length, drop_app_length. by apply open_wrong_tag.
Qed.

(** X14. The key comes first: when the key file is accepted, a credential
    file that cannot be read, or that is not valid base64, makes
    [readCreds] panic with that error only after the key has been loaded
    and shredded, and before any call of [Open]. *)
Theorem readCreds_unreadable (kf af : string) (w : world) (k : bytes) :
  keyOf kf w = Ok k -> validKeyLen (length k) = true ->
  match fileOf af w with
  | Err e =>
      readCreds kf af w
      = (Panicked (LogPanic e), addEvents (keyPhase kf k w) [EvNewGCM; EvReadFile af])
  | Val c =>
      Base64.DecodeString c = None ->
      readCreds kf af w
      = (Panicked (LogPanic CorruptInputError),
         addEvents (keyPhase kf k w) [EvNewGCM; EvReadFile af])
  end.
Proof.
  intros Hk Hlen.
  rewrite readCreds_split, (key_phase_run kf _ w k Hk), Hlen, openAndDecode_run.
  cbv zeta. change (fileOf af (keyPhase kf k w)) with (fileOf af w).
  destruct (fileOf af w) as [c|e]; [|done]. by intros ->.
Qed.

End ReadFacts.

Lemma readCreds_sound_witness :
  exists c d,
    fileOf "creds.dat" (snd (writeCreds "secret.key" "creds.dat" creds0 worldStore)) = Val c
    /\ Base64.DecodeString c = Some d
    /\ (NonceSize + 16 <= length d)%nat.
Proof.
  destruct (readCreds_sound "secret.key" "creds.dat"
              (snd (writeCreds "secret.key" "creds.dat" creds0 worldStore))
              (snd (readCreds "secret.key" "creds.dat"
                      (snd (writeCreds "secret.key" "creds.dat" creds0 worldStore))))
              creds0)
    as (k & c & d & _ & _ & Hfile & Hdec & Hd & _).
  { vm_compute. reflexivity. }
  by exists c, d.
Defined.

Lemma readCreds_wrong_tag_witness :
  fst (readCreds "secret.key" "creds.dat" worldForged) = Panicked (LogPanic ErrOpen).
Proof.
  refine (f_equal fst
    (readCreds_wrong_tag "secret.key" "creds.dat" worldForged key32 forgedEnvelope
       (repeat x00 NonceSize) [x01; x02; x03] (repeat x00 16) _ _ _ _ _ _ _)).
  - vm_compute. reflexivity.
  - reflexivity.
  - vm_compute. reflexivity.
  - vm_compute. reflexivity.
  - reflexivity.
  - reflexivity.
  - vm_compute. discriminate.
Defined.

Lemma readCreds_unreadable_witness :
  fst (readCreds "secret.key" "creds.dat" worldStore)
  = Panicked (LogPanic (PathError "open" "creds.dat" "no such file or directory"))
  /\ fst (readCreds "secret.key" "creds.dat" worldBadBase64)
     = Panicked (LogPanic CorruptInputError).
Proof.
  split.
  - refine (f_equal fst
      (readCreds_unreadable "secret.key" "creds.dat" worldStore key32 _ _)).
    + vm_compute. reflexivity.
    + reflexivity.
  - refine (f_equal fst
      (readCreds_unreadable "secret.key" "creds.dat" worldBadBase64 key32 _ _ _)).
    + vm_compute. reflexivity.
    + reflexivity.
    + vm_compute. reflexivity.
Defined.


(** ** The entry points *)

Section SavedCreds.
Context `{Unicode} `{GobCodec}.
Hypothesis gob_round_trip : GobRoundTrip.

(** The whole run of [readCreds] on what [writeCreds] left. *)
Lemma readCreds_after_write (kf af : string) (ad : authDataT) (w w' : world) :
  kf <> af ->
  writeCreds kf af ad w = (Ok tt, w') ->
  (forall e, fileOf af w' <> Err e) ->
  exists k,
    keyOf kf w = Ok k
    /\ readCreds kf af w'
       = (Ok ad, addEvents (keyPhase kf k w')
                   [EvNewGCM; EvReadFile af; EvOpen; EvGobDecode]).
Proof.
  intros Hne Hwrite Hread.
  destruct (writeCreds_ok _ _ _ _ _ Hwrite)
    as (k & nonce & buf & m & Hk & Hlen & Hnonce & Hgob & Hmax & ->).
  exists k. split; [done|].
  assert (Hsealed : length (GCM.seal k nonce buf additionalContext) = (length buf + 16)%nat).
  { unfold GCM.seal. by rewrite length_app, GCMFacts.ctr_length, GCMFacts.tag_length. }
  set (sealed := GCM.seal k nonce buf additionalContext) in *.
  set (w1 := stored af m (Base64.EncodeToString (nonce ++ sealed)) (keyPhase kf k w)) in *.
  assert (Hfs : fs w1 = <[af := mkFile m (Base64.EncodeToString (nonce ++ sealed))]> (fs w))
    by reflexivity.
  assert (Hk1 : keyOf kf w1 = Ok k).
  { rewrite <- Hk. apply keyOf_fs. rewrite Hfs. by apply lookup_insert_ne. }
  assert (Hfile : fileOf af w1 = Val (Base64.EncodeToString (nonce ++ sealed))).
  { unfold fileOf in *. rewrite Hfs, lookup_insert_eq in *. cbn [mode content] in *.
    destruct (negb (Z.land m ModeDir =? 0)); [by destruct (Hread _ eq_refl)|].
    destruct (privileged w1 || negb (Z.land m perm0400 =? 0)); [done|].
    by destruct (Hread _ eq_refl). }
  rewrite readCreds_split, (key_phase_run kf _ w1 k Hk1), Hlen, openAndDecode_run.
  cbv zeta. change (fileOf af (keyPhase kf k w1)) with (fileOf af w1).
  rewrite Hfile, Base64Facts.DecodeString_Encode.
  pose proof (DecodedLen_Encode (nonce ++ sealed)) as Hcap.
  rewrite length_app, Hnonce in Hcap.
  destruct (Nat.leb_spec NonceSize
              (Base64.DecodedLen (length (Base64.EncodeToString (nonce ++ sealed)))));
    [|lia].
  rewrite length_app, Hnonce.
  destruct (Nat.leb_spec NonceSize (NonceSize + length sealed)); [|lia].
  cbn [andb].
  rewrite <- app_assoc, <- Hnonce, take_app_length, drop_app_length.
  rewrite Nat.eqb_refl. cbn [blockKey negb].
  destruct (Z.ltb_spec (maxPlaintext + 16) (Z.of_nat (length sealed))); [lia|].
  unfold sealed. rewrite (GCMFacts.open_seal _ _ _ _ Hlen).
  by rewrite (gob_round_trip _ _ Hgob).
Qed.

(** X15. Saving and then logging in from the files is logging in with the
    provider's credentials: after [SaveProvidedCredsToFile] has succeeded,
    [AuthWithCredsFromFile] on the same two files, once it has read them,
    does what [AuthWithProvideCreds] does with the same provider, provided
    the credential file is another file than the key file and can be
    read. *)
Theorem saved_creds_log_in (kf af : string) (src : CredsProvider) (w w' : world) :
  kf <> af ->
  SaveProvidedCredsToFile kf af src w = (Ok tt, w') ->
  (forall e, fileOf af w' <> Err e) ->
  exists k,
    keyOf kf w = Ok k
    /\ AuthWithCredsFromFile kf af w'
       = AuthWithProvideCreds src
           (addEvents (keyPhase kf k w') [EvNewGCM; EvReadFile af; EvOpen; EvGobDecode]).
Proof.
  unfold SaveProvidedCredsToFile, AuthWithProvideCreds, AuthWithCredsFromFile.
  destruct (GetCreds src) as [u p]. intros Hne Hwrite Hread.
  destruct (readCreds_after_write kf af _ w w' Hne Hwrite Hread) as (k & Hk & Hrun).
  exists k. split; [done|]. by rewrite bind_run, Hrun.
Qed.

End SavedCreds.

Lemma saved_creds_log_in_witness :
  exists k,
    keyOf "secret.key" worldStore = Ok k
    /\ AuthWithCredsFromFile "secret.key" "creds.dat"
         (snd (SaveProvidedCredsToFile "secret.key" "creds.dat" src0 worldStore))
       = AuthWithProvideCreds src0
           (addEvents
              (keyPhase "secret.key" k
                 (snd (SaveProvidedCredsToFile "secret.key" "creds.dat" src0 worldStore)))
              [EvNewGCM; EvReadFile "creds.dat"; EvOpen; EvGobDecode]).
Proof.
  apply (saved_creds_log_in GobFacts.Decode_Encode "secret.key" "creds.dat" src0 worldStore).
  - discriminate.
  - vm_compute. reflexivity.
  - intros e. vm_compute. discriminate.
Defined.

Section FromFile.
Context `{GobCodec}.

(** X16. [AuthWithCredsFromFile] reads the key and the credentials before
    the session is looked at: on a session that is authenticated already
    it returns nil without a request only if [readCreds] succeeds, and it
    panics as [readCreds] does otherwise, for instance when the key file
    is gone. *)
Theorem AuthWithCredsFromFile_reads_first (kf af : string) (w : world) :
  isAuthed (session w) = true ->
  AuthWithCredsFromFile kf af w
  = (match fst (readCreds kf af w) with
     | Ok _ => Ok None
     | Panicked p => Panicked p
     end, snd (readCreds kf af w))
  /\ (fs w !! kf = None ->
        fst (AuthWithCredsFromFile kf af w)
        = Panicked (LogPanic (PathError "stat" kf "no such file or directory"))).
Proof.
  intros Hflag.
  assert (Hrun : AuthWithCredsFromFile kf af w
    = (match fst (readCreds kf af w) with
       | Ok _ => Ok None
       | Panicked p => Panicked p
       end, snd (readCreds kf af w))).
  { unfold AuthWithCredsFromFile. rewrite bind_run.
    pose proof (readCreds_session kf af w) as Hs. unfold sameSession in Hs.
    destruct (readCreds kf af w) as [[a|p] w1]; cbn [fst snd] in *; [|done].
    apply auth_authed. by rewrite Hs. }
  split; [done|]. intros Hnone. rewrite Hrun. cbn [fst].
  rewrite readCreds_split.
  destruct (key_phase_panic kf (openAndDecode af) w
              (LogPanic (PathError "stat" kf "no such file or directory")))
    as (es & -> & _); [|done].
  unfold keyOf. by rewrite Hnone.
Qed.

End FromFile.

Lemma AuthWithCredsFromFile_reads_first_witness :
  fst (AuthWithCredsFromFile "secret.key" "creds.dat" (loggedIn world0 []))
  = Panicked (LogPanic (PathError "stat" "secret.key" "no such file or directory")).
Proof.
  exact (proj2 (AuthWithCredsFromFile_reads_first "secret.key" "creds.dat"
                  (loggedIn world0 []) eq_refl) eq_refl).
Defined.

(** ** The token and the login body *)

Lemma length_EncodeToString (src : bytes) :
  length (Base64.EncodeToString src) = (4 * ((length src + 2) / 3))%nat.
Proof.
  induction src as [|a|a b|a b c l IH] using Base64Facts.bytes_ind3;
    cbn [Base64.EncodeToString].
  - reflexivity.
  - by rewrite length_enc1.
  - by rewrite length_enc2.
  - rewrite length_app, length_enc3, IH. cbn [length].
    replace (S (S (S (length l))) + 2)%nat with (1 * 3 + (length l + 2))%nat by lia.
    rewrite Nat.div_add_l by lia. lia.
Qed.

Lemma auth_never_no_creds (ad : authDataT) (w : world) :
  EncodedPassword ad <> [] -> fst (auth ad w) <> Ok (Some errNoCreds).
Proof.
  intros Hpw. destruct (isAuthed (session w)) eqn:Hflag.
  { by rewrite (auth_authed ad w Hflag). }
  destruct (auth ad w) as [r w'] eqn:Hrun. cbn [fst].
  auth_cases Hrun Hflag Hpw; try done.
  - by destruct le.
  - by destruct (StatusCode gr =? 401).
Qed.

Section Token.
Context `{Unicode}.

(** X17. The token [encodePassword] returns is always 44 bytes long, so
    never empty: through [AuthWithProvideCreds] the error "must provide
    credentials before calling" cannot come back, not even for an empty
    user name and an empty password, which are sent to the peer like any
    other. *)
Theorem encodePassword_length (u p : bytes) (src : CredsProvider) (w : world) :
  length (encodePassword u p) = 44%nat
  /\ fst (AuthWithProvideCreds src w) <> Ok (Some errNoCreds).
Proof.
  assert (Hlen : forall u' p', length (encodePassword u' p') = 44%nat).
  { intros u' p'. by rewrite encodePassword_unfold, length_EncodeToString, Sum256_length. }
  split; [apply Hlen|].
  unfold AuthWithProvideCreds. destruct (GetCreds src) as [u' p'].
  apply auth_never_no_creds. cbn [EncodedPassword].
  intros Hnil. specialize (Hlen u' p'). by rewrite Hnil in Hlen.
Qed.

(** X18. Password and user name are hashed one after the other with
    nothing in between: for ASCII names, moving a prefix of the user name,
    lower-cased, to the end of the password gives the same token. *)
Theorem encodePassword_no_delimiter (s u p : bytes) :
  forallb isASCII (s ++ u) = true ->
  encodePassword (s ++ u) p = encodePassword u (p ++ List.map lowerByte s).
Proof.
  intros Hascii. rewrite !encodePassword_unfold, (ToLower_ascii _ Hascii).
  rewrite forallb_app in Hascii. apply andb_prop in Hascii as [_ Hu].
  by rewrite (ToLower_ascii _ Hu), List.map_app, app_assoc.
Qed.

End Token.

Lemma encodePassword_no_delimiter_witness :
  encodePassword (bytes_of_string "Ab@example.com") (bytes_of_string "secret")
  = encodePassword (bytes_of_string "b@example.com") (bytes_of_string "secreta").
Proof.
  exact (encodePassword_no_delimiter (bytes_of_string "A") (bytes_of_string "b@example.com")
           (bytes_of_string "secret") eq_refl).
Defined.

(** X19. The login body is put together without escaping: a user name
    that contains the text between the two values yields the body of
    another pair of credentials. *)
Theorem loginBody_unescaped (u s p : bytes) :
  loginBody (mkAuthData (u ++ fieldSep ++ s) p)
  = loginBody (mkAuthData u (s ++ fieldSep ++ p)).
Proof.
  unfold loginBody, quoted, fieldSep. cbn [Username EncodedPassword].
  repeat (rewrite <- ?app_assoc, <- ?app_comm_cons). reflexivity.
Qed.
